(** * Saints Encyclopedia: the statistics aggregation layer

    A shallow embedding of [web/lib/queries.ts] and of the leaderboard
    route [web/app/api/leaders/route.ts].

    Every exported function of [queries.ts] is one SQL statement handed to
    the data-store client.  A statement is embedded as the list function it
    denotes: a table is the list of its rows, [JOIN] is a nested loop,
    [GROUP BY] partitions the joined rows, and the aggregates fold over a
    group.  SQL [NULL] is [None].  The SQL dialect is the one the statements
    are written in (bare columns next to aggregates, [?] placeholders,
    [NULL] ordered before every value): SQLite. *)

From Stdlib Require Import ZArith List String Ascii Bool Lia Permutation.
Import ListNotations.

Open Scope string_scope.
Open Scope Z_scope.
Open Scope list_scope.

(** Text comparison, [a = b] of two text values in a statement. *)
Notation "a == b" := (String.eqb a b) (at level 70, no associativity).

(** ** Relational operators *)

Module Sql.

Section Joins.
Context {A B : Type}.

(** [l JOIN r ON on]. *)
Definition inner_join (l : list A) (r : list B) (on : A -> B -> bool)
  : list (A * B) :=
  flat_map (fun a => map (pair a) (filter (on a) r)) l.

(** The rows of [r] joined to one left row under [LEFT JOIN]: the matches,
    or one NULL-extended row when there is none. *)
Definition null_extend (a : A) (matches : list B) : list (A * option B) :=
  match matches with
  | [] => [(a, None)]
  | _ :: _ => map (fun b => (a, Some b)) matches
  end.

(** [l LEFT JOIN r ON on]. *)
Definition left_join (l : list A) (r : list B) (on : A -> B -> bool)
  : list (A * option B) :=
  flat_map (fun a => null_extend a (filter (on a) r)) l.
End Joins.

Section Distinct.
Context {A : Type} (eqb : A -> A -> bool).

(** [SELECT DISTINCT] / [UNION]: duplicates removed, first occurrences
    kept in order. *)
Fixpoint distinct (l : list A) : list A :=
  match l with
  | [] => []
  | a :: t => a :: filter (fun b => negb (eqb a b)) (distinct t)
  end.
End Distinct.

(** [GROUP BY key]: one group per distinct key, in order of first
    occurrence; a group is its key with the rows that carry it. *)
Definition group_by {A K : Type} (keqb : K -> K -> bool) (key : A -> K)
  (l : list A) : list (K * list A) :=
  map (fun k => (k, filter (fun a => keqb k (key a)) l))
    (distinct keqb (map key l)).

(** A column that is neither aggregated nor a grouping key is read from
    one row of the group; which one is left to the engine.  The embedding
    takes that choice as a parameter: any function that returns a member of
    the (non-empty) group. *)
Record BareColumns : Type := {
  choose : forall A : Type, A -> list A -> A;
  choose_In : forall (A : Type) (a : A) (l : list A), In (choose A a l) (a :: l)
}.

Definition bare_row {A : Type} (ch : BareColumns) (group : list A) : option A :=
  match group with
  | [] => None
  | a :: t => Some (choose ch A a t)
  end.

(** [SELECT mk(keys, bare columns, aggregates) ... GROUP BY ...]: one
    output row per group. *)
Definition select_groups {A K R : Type} (ch : BareColumns)
  (mk : K -> A -> list A -> R) (groups : list (K * list A)) : list R :=
  flat_map (fun kg => match bare_row ch (snd kg) with
                      | Some a => [mk (fst kg) a (snd kg)]
                      | None => []
                      end) groups.

(** The same when every selected column is a grouping key or an
    aggregate. *)
Definition select_keyed {A K R : Type} (mk : K -> list A -> R)
  (groups : list (K * list A)) : list R :=
  map (fun kg => mk (fst kg) (snd kg)) groups.

(** [l UNION r]. *)
Definition union {A : Type} (eqb : A -> A -> bool) (l r : list A) : list A :=
  distinct eqb (l ++ r).

(** Aggregates. [SUM], [MIN] and [MAX] of no row are NULL. *)
Definition sum_Z (l : list Z) : Z := fold_right Z.add 0 l.

Definition sql_sum (l : list Z) : option Z :=
  match l with
  | [] => None
  | _ :: _ => Some (sum_Z l)
  end.

(** [MAX] over the rows of a group, which is never empty. *)
Definition max_Z (l : list Z) : Z :=
  match l with
  | [] => 0
  | a :: t => fold_right Z.max a t
  end.

Definition count_rows {A : Type} (l : list A) : Z := Z.of_nat (List.length l).

Definition count_distinct (l : list string) : Z :=
  Z.of_nat (List.length (distinct String.eqb l)).

Definition opt_min (a b : option Z) : option Z :=
  match a, b with
  | Some x, Some y => Some (Z.min x y)
  | Some x, None => Some x
  | None, _ => b
  end.

Definition opt_max (a b : option Z) : option Z :=
  match a, b with
  | Some x, Some y => Some (Z.max x y)
  | Some x, None => Some x
  | None, _ => b
  end.

(** [MIN(e)] and [MAX(e)] skip NULL values. *)
Definition sql_min (l : list (option Z)) : option Z := fold_right opt_min None l.
Definition sql_max (l : list (option Z)) : option Z := fold_right opt_max None l.

(** [COALESCE(e, d)] with a non-NULL default, and the NULL-able
    [COALESCE(a, b)]. *)
Definition coalesce (e : option Z) (d : Z) : Z :=
  match e with
  | Some v => v
  | None => d
  end.

Definition or_else (a b : option Z) : option Z :=
  match a with
  | Some _ => a
  | None => b
  end.

(** [ORDER BY]: a stable insertion sort under the comparison [le]; rows
    that compare equal keep the order they were produced in. *)
Section OrderBy.
Context {A : Type} (le : A -> A -> bool).

Fixpoint insert_by (a : A) (l : list A) : list A :=
  match l with
  | [] => [a]
  | b :: t => if le a b then a :: l else b :: insert_by a t
  end.

Definition order_by (l : list A) : list A := fold_right insert_by [] l.
End OrderBy.

Definition desc {A : Type} (f : A -> Z) (a b : A) : bool := f b <=? f a.
Definition asc {A : Type} (f : A -> Z) (a b : A) : bool := f a <=? f b.

(** NULL sorts before every value. *)
Definition null_leb (a b : option Z) : bool :=
  match a, b with
  | None, _ => true
  | Some _, None => false
  | Some x, Some y => x <=? y
  end.

(** [LIMIT n]: a negative [n] means no limit. *)
Definition limit {A : Type} (n : Z) (l : list A) : list A :=
  if n <? 0 then l else firstn (Z.to_nat n) l.

End Sql.

Import Sql.

(** ** The schema

    One record per table, with the columns the statements below read.
    Field names follow the table aliases of the statements ([g], [p], [pp],
    [pr], [rec], [pd], [ps], [pi]).  Counters are integers; [ps_sacks] is
    counted in the unit the table stores. *)

Record Game := {
  g_game_id : string;
  g_season : Z;
  g_game_date : string;
  g_game_type : string;
  g_opponent : string;
  g_home_away : string;
  g_saints_score : option Z;
  g_opponent_score : option Z;
  g_result : option string
}.

Record Player := {
  p_player_id : string;
  p_player_name : string;
  p_pfa_url : option string;
  p_position : option string
}.

Record PassingStats := {
  pp_game_id : string;
  pp_player_id : string;
  pp_att : Z;
  pp_com : Z;
  pp_int_thrown : Z;
  pp_yds : Z;
  pp_td : Z;
  pp_sacked : Z;
  pp_rtg : Z
}.

Record RushingStats := {
  pr_game_id : string;
  pr_player_id : string;
  pr_att : Z;
  pr_yds : Z;
  pr_td : Z
}.

Record ReceivingStats := {
  rec_game_id : string;
  rec_player_id : string;
  rec_rec : Z;
  rec_yds : Z;
  rec_td : Z
}.

Record DefenseStats := {
  pd_game_id : string;
  pd_player_id : string;
  pd_tkl : Z;
  pd_tfl : Z;
  pd_qh : Z;
  pd_pd : Z;
  pd_ff : Z
}.

Record SackStats := {
  ps_game_id : string;
  ps_player_id : string;
  ps_sacks : Z
}.

Record InterceptionStats := {
  pi_game_id : string;
  pi_player_id : string;
  pi_int_count : Z;
  pi_yds : Z;
  pi_td : Z
}.

Record Database := {
  games : list Game;
  players : list Player;
  player_passing : list PassingStats;
  player_rushing : list RushingStats;
  player_receiving : list ReceivingStats;
  player_defense : list DefenseStats;
  player_sacks : list SackStats;
  player_interceptions : list InterceptionStats
}.

(** Modelled from the spec: the data-store client [./db] ([query],
    [queryOne]) is not among the sources.  [query] returns the rows of the
    statement in order; [queryOne] returns the first of them, or null. *)
Definition queryOne {R : Type} (rows : list R) : option R := hd_error rows.

Definition is_regular (g : Game) : bool := g_game_type g == "regular".

Definition recognized (p : Player) : bool :=
  match p_pfa_url p with
  | Some _ => true
  | None => false
  end.

(** ** Player defensive stats *)

(** The three sub-selects of [getPlayerCareerDefense]: an aggregate without
    [GROUP BY] yields exactly one row, whose sums and season bounds are NULL
    when the player has no row in the table. *)
Record CareerDefSub := {
  def_tkl : option Z;
  def_tfl : option Z;
  def_qh : option Z;
  def_pd_count : option Z;
  def_ff : option Z;
  def_games : Z;
  def_first_season : option Z;
  def_last_season : option Z
}.

Record CareerSackSub := {
  sk_sacks : option Z;
  sk_games : Z;
  sk_first_season : option Z;
  sk_last_season : option Z
}.

Record CareerIntSub := {
  it_int_count : option Z;
  it_int_yds : option Z;
  it_int_td : option Z;
  it_games : Z;
  it_first_season : option Z;
  it_last_season : option Z
}.

Definition player_defense_games (db : Database) (playerId : string)
  : list (DefenseStats * Game) :=
  filter (fun r => pd_player_id (fst r) == playerId)
    (inner_join (player_defense db) (games db)
       (fun pd g => pd_game_id pd == g_game_id g)).

Definition player_sacks_games (db : Database) (playerId : string)
  : list (SackStats * Game) :=
  filter (fun r => ps_player_id (fst r) == playerId)
    (inner_join (player_sacks db) (games db)
       (fun ps g => ps_game_id ps == g_game_id g)).

Definition player_interceptions_games (db : Database) (playerId : string)
  : list (InterceptionStats * Game) :=
  filter (fun r => pi_player_id (fst r) == playerId)
    (inner_join (player_interceptions db) (games db)
       (fun pi g => pi_game_id pi == g_game_id g)).

Definition seasons_of {S : Type} (rows : list (S * Game)) : list (option Z) :=
  map (fun r => Some (g_season (snd r))) rows.

Definition career_def_sub (db : Database) (playerId : string) : CareerDefSub :=
  let rows := player_defense_games db playerId in
  {| def_tkl := sql_sum (map (fun r => pd_tkl (fst r)) rows);
     def_tfl := sql_sum (map (fun r => pd_tfl (fst r)) rows);
     def_qh := sql_sum (map (fun r => pd_qh (fst r)) rows);
     def_pd_count := sql_sum (map (fun r => pd_pd (fst r)) rows);
     def_ff := sql_sum (map (fun r => pd_ff (fst r)) rows);
     def_games := count_distinct (map (fun r => pd_game_id (fst r)) rows);
     def_first_season := sql_min (seasons_of rows);
     def_last_season := sql_max (seasons_of rows) |}.

Definition career_sack_sub (db : Database) (playerId : string) : CareerSackSub :=
  let rows := player_sacks_games db playerId in
  {| sk_sacks := sql_sum (map (fun r => ps_sacks (fst r)) rows);
     sk_games := count_distinct (map (fun r => ps_game_id (fst r)) rows);
     sk_first_season := sql_min (seasons_of rows);
     sk_last_season := sql_max (seasons_of rows) |}.

Definition career_int_sub (db : Database) (playerId : string) : CareerIntSub :=
  let rows := player_interceptions_games db playerId in
  {| it_int_count := sql_sum (map (fun r => pi_int_count (fst r)) rows);
     it_int_yds := sql_sum (map (fun r => pi_yds (fst r)) rows);
     it_int_td := sql_sum (map (fun r => pi_td (fst r)) rows);
     it_games := count_distinct (map (fun r => pi_game_id (fst r)) rows);
     it_first_season := sql_min (seasons_of rows);
     it_last_season := sql_max (seasons_of rows) |}.

(** A column of a left-joined row: NULL when the row is NULL-extended. *)
Definition col {S : Type} (f : S -> option Z) (s : option S) : option Z :=
  match s with
  | Some x => f x
  | None => None
  end.

Record CareerDefense := {
  cd_tkl : Z;
  cd_tfl : Z;
  cd_qh : Z;
  cd_pd_count : Z;
  cd_ff : Z;
  cd_sacks : Z;
  cd_int_count : Z;
  cd_int_yds : Z;
  cd_int_td : Z;
  cd_games : Z;
  cd_first_season : option Z;
  cd_last_season : option Z
}.

Definition CareerDefenseJoin : Type :=
  ((unit * option CareerDefSub) * option CareerSackSub) * option CareerIntSub.

(** [FROM (SELECT 1) dummy LEFT JOIN (...) def ON 1=1 LEFT JOIN (...) sk ON
    1=1 LEFT JOIN (...) it ON 1=1]. *)
Definition career_defense_join (db : Database) (playerId : string)
  : list CareerDefenseJoin :=
  left_join
    (left_join
       (left_join [tt] [career_def_sub db playerId] (fun _ _ => true))
       [career_sack_sub db playerId] (fun _ _ => true))
    [career_int_sub db playerId] (fun _ _ => true).

Definition cdj_def (r : CareerDefenseJoin) : option CareerDefSub := snd (fst (fst r)).
Definition cdj_sk (r : CareerDefenseJoin) : option CareerSackSub := snd (fst r).
Definition cdj_it (r : CareerDefenseJoin) : option CareerIntSub := snd r.

(** [COALESCE(def.first_season, sk.first_season, it.first_season)] and its
    [last_season] twin. *)
Definition coalesce_first_season (r : CareerDefenseJoin) : option Z :=
  or_else (col def_first_season (cdj_def r))
    (or_else (col sk_first_season (cdj_sk r)) (col it_first_season (cdj_it r))).

Definition coalesce_last_season (r : CareerDefenseJoin) : option Z :=
  or_else (col def_last_season (cdj_def r))
    (or_else (col sk_last_season (cdj_sk r)) (col it_last_season (cdj_it r))).

(** The outer select carries [MIN] and [MAX], so it is an aggregate over all
    joined rows; its other columns are bare. *)
Definition career_defense_select (ch : BareColumns) (rows : list CareerDefenseJoin)
  : CareerDefense :=
  let b := bare_row ch rows in
  let bcol {S} (get : CareerDefenseJoin -> option S) (f : S -> option Z) :=
    match b with
    | Some r => col f (get r)
    | None => None
    end in
  {| cd_tkl := coalesce (bcol cdj_def def_tkl) 0;
     cd_tfl := coalesce (bcol cdj_def def_tfl) 0;
     cd_qh := coalesce (bcol cdj_def def_qh) 0;
     cd_pd_count := coalesce (bcol cdj_def def_pd_count) 0;
     cd_ff := coalesce (bcol cdj_def def_ff) 0;
     cd_sacks := coalesce (bcol cdj_sk sk_sacks) 0;
     cd_int_count := coalesce (bcol cdj_it it_int_count) 0;
     cd_int_yds := coalesce (bcol cdj_it it_int_yds) 0;
     cd_int_td := coalesce (bcol cdj_it it_int_td) 0;
     cd_games := coalesce (bcol cdj_def (fun d => Some (def_games d))) 0
                 + coalesce (bcol cdj_sk (fun s => Some (sk_games s))) 0
                 + coalesce (bcol cdj_it (fun i => Some (it_games i))) 0;
     cd_first_season := sql_min (map coalesce_first_season rows);
     cd_last_season := sql_max (map coalesce_last_season rows) |}.

Definition getPlayerCareerDefense (ch : BareColumns) (db : Database)
  (playerId : string) : option CareerDefense :=
  queryOne [career_defense_select ch (career_defense_join db playerId)].

(** ** Defensive leaders

    "Defense data spans three tables with different date ranges:
    player_defense (tackles etc): 1999-present, player_sacks: 1973-present,
    player_interceptions: 1967-present.  We UNION all player IDs from all
    three tables so older legends appear." *)

Definition pair_eqb (a b : string * Z) : bool :=
  (fst a == fst b) && (snd a =? snd b).

Definition regular_defense (db : Database) : list (DefenseStats * Game) :=
  filter (fun r => is_regular (snd r))
    (inner_join (player_defense db) (games db)
       (fun pd g => pd_game_id pd == g_game_id g)).

Definition regular_sacks (db : Database) : list (SackStats * Game) :=
  filter (fun r => is_regular (snd r))
    (inner_join (player_sacks db) (games db)
       (fun ps g => ps_game_id ps == g_game_id g)).

Definition regular_interceptions (db : Database)
  : list (InterceptionStats * Game) :=
  filter (fun r => is_regular (snd r))
    (inner_join (player_interceptions db) (games db)
       (fun pi g => pi_game_id pi == g_game_id g)).

Record DefLeaderSub := {
  dl_player_id : string;
  dl_tkl : Z;
  dl_tfl : Z;
  dl_qh : Z;
  dl_pd_count : Z;
  dl_ff : Z;
  dl_games : Z
}.

Record SackLeaderSub := {
  sl_player_id : string;
  sl_sacks : Z;
  sl_games : Z
}.

Record IntLeaderSub := {
  il_player_id : string;
  il_int_count : Z;
  il_games : Z
}.

Definition def_leader_select (k : string) (g : list (DefenseStats * Game))
  : DefLeaderSub :=
  {| dl_player_id := k;
     dl_tkl := sum_Z (map (fun r => pd_tkl (fst r)) g);
     dl_tfl := sum_Z (map (fun r => pd_tfl (fst r)) g);
     dl_qh := sum_Z (map (fun r => pd_qh (fst r)) g);
     dl_pd_count := sum_Z (map (fun r => pd_pd (fst r)) g);
     dl_ff := sum_Z (map (fun r => pd_ff (fst r)) g);
     dl_games := count_distinct (map (fun r => pd_game_id (fst r)) g) |}.

Definition sack_leader_select (k : string) (g : list (SackStats * Game))
  : SackLeaderSub :=
  {| sl_player_id := k;
     sl_sacks := sum_Z (map (fun r => ps_sacks (fst r)) g);
     sl_games := count_distinct (map (fun r => ps_game_id (fst r)) g) |}.

Definition int_leader_select (k : string) (g : list (InterceptionStats * Game))
  : IntLeaderSub :=
  {| il_player_id := k;
     il_int_count := sum_Z (map (fun r => pi_int_count (fst r)) g);
     il_games := count_distinct (map (fun r => pi_game_id (fst r)) g) |}.

Definition def_leader_sub (db : Database) : list DefLeaderSub :=
  select_keyed def_leader_select
    (group_by String.eqb (fun r => pd_player_id (fst r)) (regular_defense db)).

Definition sack_leader_sub (db : Database) : list SackLeaderSub :=
  select_keyed sack_leader_select
    (group_by String.eqb (fun r => ps_player_id (fst r)) (regular_sacks db)).

Definition int_leader_sub (db : Database) : list IntLeaderSub :=
  select_keyed int_leader_select
    (group_by String.eqb (fun r => pi_player_id (fst r))
       (regular_interceptions db)).

(** [SELECT player_id FROM player_defense UNION SELECT player_id FROM
    player_sacks UNION SELECT player_id FROM player_interceptions]. *)
Definition all_def (db : Database) : list string :=
  union String.eqb
    (union String.eqb (map pd_player_id (player_defense db))
       (map ps_player_id (player_sacks db)))
    (map pi_player_id (player_interceptions db)).

Definition CareerLeaderJoin : Type :=
  (((string * Player) * option DefLeaderSub) * option SackLeaderSub)
  * option IntLeaderSub.

Definition clj_id (r : CareerLeaderJoin) : string := fst (fst (fst (fst r))).
Definition clj_p (r : CareerLeaderJoin) : Player := snd (fst (fst (fst r))).
Definition clj_def (r : CareerLeaderJoin) : option DefLeaderSub := snd (fst (fst r)).
Definition clj_sk (r : CareerLeaderJoin) : option SackLeaderSub := snd (fst r).
Definition clj_it (r : CareerLeaderJoin) : option IntLeaderSub := snd r.

Definition career_leader_join (db : Database) : list CareerLeaderJoin :=
  left_join
    (left_join
       (left_join
          (inner_join (all_def db) (players db)
             (fun id p => id == p_player_id p))
          (def_leader_sub db) (fun l d => dl_player_id d == fst l))
       (sack_leader_sub db) (fun l s => sl_player_id s == fst (fst l)))
    (int_leader_sub db) (fun l i => il_player_id i == fst (fst (fst l))).

Record CareerDefenseLeader := {
  cl_player_id : string;
  cl_player_name : string;
  cl_tkl : Z;
  cl_tfl : Z;
  cl_qh : Z;
  cl_pd_count : Z;
  cl_ff : Z;
  cl_sacks : Z;
  cl_int_count : Z;
  cl_games : Z
}.

Definition career_leader_select (r : CareerLeaderJoin) : CareerDefenseLeader :=
  {| cl_player_id := p_player_id (clj_p r);
     cl_player_name := p_player_name (clj_p r);
     cl_tkl := coalesce (option_map dl_tkl (clj_def r)) 0;
     cl_tfl := coalesce (option_map dl_tfl (clj_def r)) 0;
     cl_qh := coalesce (option_map dl_qh (clj_def r)) 0;
     cl_pd_count := coalesce (option_map dl_pd_count (clj_def r)) 0;
     cl_ff := coalesce (option_map dl_ff (clj_def r)) 0;
     cl_sacks := coalesce (option_map sl_sacks (clj_sk r)) 0;
     cl_int_count := coalesce (option_map il_int_count (clj_it r)) 0;
     cl_games := coalesce (option_map dl_games (clj_def r)) 0
                 + coalesce (option_map sl_games (clj_sk r)) 0
                 + coalesce (option_map il_games (clj_it r)) 0 |}.

(** The rows of the career-defense leaderboard before [ORDER BY] and
    [LIMIT]: the leaderboard universe. *)
Definition career_defense_universe (db : Database) : list CareerDefenseLeader :=
  map career_leader_select
    (filter (fun r => recognized (clj_p r)) (career_leader_join db)).

Definition getCareerDefensiveLeaders (limit : Z) (db : Database)
  : list CareerDefenseLeader :=
  Sql.limit limit (order_by (desc cl_sacks) (career_defense_universe db)).

(** Season scope. One partial row per player and season from each table. *)
Record SeasonPartial := {
  sp_player_id : string;
  sp_season : Z;
  sp_tkl : Z;
  sp_tfl : Z;
  sp_qh : Z;
  sp_pd_count : Z;
  sp_ff : Z;
  sp_sacks : Z;
  sp_int_count : Z;
  sp_games : Z
}.

Definition defense_partial (rows : list (DefenseStats * Game)) : list SeasonPartial :=
  select_keyed
    (fun k g =>
       {| sp_player_id := fst k;
          sp_season := snd k;
          sp_tkl := sum_Z (map (fun r => pd_tkl (fst r)) g);
          sp_tfl := sum_Z (map (fun r => pd_tfl (fst r)) g);
          sp_qh := sum_Z (map (fun r => pd_qh (fst r)) g);
          sp_pd_count := sum_Z (map (fun r => pd_pd (fst r)) g);
          sp_ff := sum_Z (map (fun r => pd_ff (fst r)) g);
          sp_sacks := 0;
          sp_int_count := 0;
          sp_games := count_distinct (map (fun r => pd_game_id (fst r)) g) |})
    (group_by pair_eqb (fun r => (pd_player_id (fst r), g_season (snd r))) rows).

Definition sacks_partial (rows : list (SackStats * Game)) : list SeasonPartial :=
  select_keyed
    (fun k g =>
       {| sp_player_id := fst k;
          sp_season := snd k;
          sp_tkl := 0; sp_tfl := 0; sp_qh := 0; sp_pd_count := 0; sp_ff := 0;
          sp_sacks := sum_Z (map (fun r => ps_sacks (fst r)) g);
          sp_int_count := 0;
          sp_games := count_distinct (map (fun r => ps_game_id (fst r)) g) |})
    (group_by pair_eqb (fun r => (ps_player_id (fst r), g_season (snd r))) rows).

Definition interceptions_partial (rows : list (InterceptionStats * Game))
  : list SeasonPartial :=
  select_keyed
    (fun k g =>
       {| sp_player_id := fst k;
          sp_season := snd k;
          sp_tkl := 0; sp_tfl := 0; sp_qh := 0; sp_pd_count := 0; sp_ff := 0;
          sp_sacks := 0;
          sp_int_count := sum_Z (map (fun r => pi_int_count (fst r)) g);
          sp_games := count_distinct (map (fun r => pi_game_id (fst r)) g) |})
    (group_by pair_eqb (fun r => (pi_player_id (fst r), g_season (snd r))) rows).

(** The [UNION ALL] of the three partial results. *)
Definition combined (d : list (DefenseStats * Game)) (s : list (SackStats * Game))
  (i : list (InterceptionStats * Game)) : list SeasonPartial :=
  defense_partial d ++ sacks_partial s ++ interceptions_partial i.

Record SeasonDefenseRecord := {
  sr_player_id : string;
  sr_player_name : string;
  sr_season : Z;
  sr_tkl : Z;
  sr_tfl : Z;
  sr_qh : Z;
  sr_pd_count : Z;
  sr_ff : Z;
  sr_sacks : Z;
  sr_int_count : Z;
  sr_games : Z
}.

(** Every selected column of [getSeasonDefensiveRecords] is bare: the outer
    select groups by [(combined.player_id, season)] and aggregates
    nothing. *)
Definition season_record_select (k : string * Z) (r : SeasonPartial * Player)
  (g : list (SeasonPartial * Player)) : SeasonDefenseRecord :=
  {| sr_player_id := p_player_id (snd r);
     sr_player_name := p_player_name (snd r);
     sr_season := sp_season (fst r);
     sr_tkl := coalesce (Some (sp_tkl (fst r))) 0;
     sr_tfl := coalesce (Some (sp_tfl (fst r))) 0;
     sr_qh := coalesce (Some (sp_qh (fst r))) 0;
     sr_pd_count := coalesce (Some (sp_pd_count (fst r))) 0;
     sr_ff := coalesce (Some (sp_ff (fst r))) 0;
     sr_sacks := coalesce (Some (sp_sacks (fst r))) 0;
     sr_int_count := coalesce (Some (sp_int_count (fst r))) 0;
     sr_games := sp_games (fst r) |}.

Definition season_defense_universe (ch : BareColumns) (db : Database)
  : list SeasonDefenseRecord :=
  select_groups ch season_record_select
    (group_by pair_eqb (fun r => (sp_player_id (fst r), sp_season (fst r)))
       (filter (fun r => recognized (snd r))
          (inner_join
             (combined (regular_defense db) (regular_sacks db)
                (regular_interceptions db))
             (players db)
             (fun c p => sp_player_id c == p_player_id p)))).

Definition getSeasonDefensiveRecords (ch : BareColumns) (limit : Z)
  (db : Database) : list SeasonDefenseRecord :=
  Sql.limit limit (order_by (desc sr_sacks) (season_defense_universe ch db)).

(** [getPlayerSeasonDefense]: the three partial results of one player,
    over games of every type, each grouped by [g.season], then summed per
    season. *)
Record PlayerSeasonPartial := {
  ys_season : Z;
  ys_tkl : Z;
  ys_tfl : Z;
  ys_qh : Z;
  ys_pd_count : Z;
  ys_ff : Z;
  ys_sacks : Z;
  ys_int_count : Z;
  ys_games : Z
}.

Definition defense_season_select (k : Z) (g : list (DefenseStats * Game))
  : PlayerSeasonPartial :=
  {| ys_season := k;
     ys_tkl := sum_Z (map (fun r => pd_tkl (fst r)) g);
     ys_tfl := sum_Z (map (fun r => pd_tfl (fst r)) g);
     ys_qh := sum_Z (map (fun r => pd_qh (fst r)) g);
     ys_pd_count := sum_Z (map (fun r => pd_pd (fst r)) g);
     ys_ff := sum_Z (map (fun r => pd_ff (fst r)) g);
     ys_sacks := 0;
     ys_int_count := 0;
     ys_games := count_distinct (map (fun r => pd_game_id (fst r)) g) |}.

Definition sacks_season_select (k : Z) (g : list (SackStats * Game))
  : PlayerSeasonPartial :=
  {| ys_season := k;
     ys_tkl := 0; ys_tfl := 0; ys_qh := 0; ys_pd_count := 0; ys_ff := 0;
     ys_sacks := sum_Z (map (fun r => ps_sacks (fst r)) g);
     ys_int_count := 0;
     ys_games := count_distinct (map (fun r => ps_game_id (fst r)) g) |}.

Definition interceptions_season_select (k : Z)
  (g : list (InterceptionStats * Game)) : PlayerSeasonPartial :=
  {| ys_season := k;
     ys_tkl := 0; ys_tfl := 0; ys_qh := 0; ys_pd_count := 0; ys_ff := 0;
     ys_sacks := 0;
     ys_int_count := sum_Z (map (fun r => pi_int_count (fst r)) g);
     ys_games := count_distinct (map (fun r => pi_game_id (fst r)) g) |}.

Definition player_defense_partial (db : Database) (playerId : string)
  : list PlayerSeasonPartial :=
  select_keyed defense_season_select
    (group_by Z.eqb (fun r => g_season (snd r)) (player_defense_games db playerId)).

Definition player_sacks_partial (db : Database) (playerId : string)
  : list PlayerSeasonPartial :=
  select_keyed sacks_season_select
    (group_by Z.eqb (fun r => g_season (snd r)) (player_sacks_games db playerId)).

Definition player_interceptions_partial (db : Database) (playerId : string)
  : list PlayerSeasonPartial :=
  select_keyed interceptions_season_select
    (group_by Z.eqb (fun r => g_season (snd r))
       (player_interceptions_games db playerId)).

Definition player_combined (db : Database) (playerId : string)
  : list PlayerSeasonPartial :=
  player_defense_partial db playerId
  ++ player_sacks_partial db playerId
  ++ player_interceptions_partial db playerId.

Record PlayerSeasonDefense := {
  psd_season : Z;
  psd_tkl : Z;
  psd_tfl : Z;
  psd_qh : Z;
  psd_pd_count : Z;
  psd_ff : Z;
  psd_sacks : Z;
  psd_int_count : Z;
  psd_games : Z
}.

Definition player_season_select (k : Z) (g : list PlayerSeasonPartial)
  : PlayerSeasonDefense :=
  {| psd_season := k;
     psd_tkl := sum_Z (map ys_tkl g);
     psd_tfl := sum_Z (map ys_tfl g);
     psd_qh := sum_Z (map ys_qh g);
     psd_pd_count := sum_Z (map ys_pd_count g);
     psd_ff := sum_Z (map ys_ff g);
     psd_sacks := sum_Z (map ys_sacks g);
     psd_int_count := sum_Z (map ys_int_count g);
     psd_games := max_Z (map ys_games g) |}.

Definition getPlayerSeasonDefense (db : Database) (playerId : string)
  : list PlayerSeasonDefense :=
  order_by (asc psd_season)
    (select_keyed player_season_select
       (group_by Z.eqb ys_season (player_combined db playerId))).

(** [getSingleGameDefensiveLeaders]: one row per (game, player) pair found
    in any of the three tables. *)
Definition gp_eqb (a b : string * string) : bool :=
  (fst a == fst b) && (snd a == snd b).

Definition all_gp (db : Database) : list (string * string) :=
  union gp_eqb
    (union gp_eqb
       (map (fun r => (pd_game_id r, pd_player_id r)) (player_defense db))
       (map (fun r => (ps_game_id r, ps_player_id r)) (player_sacks db)))
    (map (fun r => (pi_game_id r, pi_player_id r)) (player_interceptions db)).

Definition GameLeaderJoin : Type :=
  (((((string * string) * Player) * Game) * option DefenseStats)
   * option SackStats) * option InterceptionStats.

Definition glj_gp (r : GameLeaderJoin) : string * string :=
  fst (fst (fst (fst (fst r)))).
Definition glj_p (r : GameLeaderJoin) : Player := snd (fst (fst (fst (fst r)))).
Definition glj_g (r : GameLeaderJoin) : Game := snd (fst (fst (fst r))).
Definition glj_pd (r : GameLeaderJoin) : option DefenseStats := snd (fst (fst r)).
Definition glj_sk (r : GameLeaderJoin) : option SackStats := snd (fst r).
Definition glj_it (r : GameLeaderJoin) : option InterceptionStats := snd r.

Definition game_leader_join (db : Database) : list GameLeaderJoin :=
  left_join
    (left_join
       (left_join
          (inner_join
             (inner_join (all_gp db) (players db)
                (fun gp p => snd gp == p_player_id p))
             (games db) (fun l g => fst (fst l) == g_game_id g))
          (player_defense db)
          (fun l pd => (pd_player_id pd == snd (fst (fst l)))
                       && (pd_game_id pd == fst (fst (fst l)))))
       (player_sacks db)
       (fun l sk => (ps_player_id sk == snd (fst (fst (fst l))))
                    && (ps_game_id sk == fst (fst (fst (fst l))))))
    (player_interceptions db)
    (fun l it => (pi_player_id it == snd (fst (fst (fst (fst l)))))
                 && (pi_game_id it == fst (fst (fst (fst (fst l)))))).

Record GameDefenseLeader := {
  gd_player_id : string;
  gd_player_name : string;
  gd_tkl : Z;
  gd_tfl : Z;
  gd_qh : Z;
  gd_pd_count : Z;
  gd_ff : Z;
  gd_sacks : Z;
  gd_int_count : Z;
  gd_game_date : string;
  gd_opponent : string;
  gd_season : Z
}.

Definition game_leader_select (r : GameLeaderJoin) : GameDefenseLeader :=
  {| gd_player_id := p_player_id (glj_p r);
     gd_player_name := p_player_name (glj_p r);
     gd_tkl := coalesce (option_map pd_tkl (glj_pd r)) 0;
     gd_tfl := coalesce (option_map pd_tfl (glj_pd r)) 0;
     gd_qh := coalesce (option_map pd_qh (glj_pd r)) 0;
     gd_pd_count := coalesce (option_map pd_pd (glj_pd r)) 0;
     gd_ff := coalesce (option_map pd_ff (glj_pd r)) 0;
     gd_sacks := coalesce (option_map ps_sacks (glj_sk r)) 0;
     gd_int_count := coalesce (option_map pi_int_count (glj_it r)) 0;
     gd_game_date := g_game_date (glj_g r);
     gd_opponent := g_opponent (glj_g r);
     gd_season := g_season (glj_g r) |}.

(** [ORDER BY sacks DESC, it.int_count DESC]: the second key is the raw,
    NULL-able column. *)
Definition game_leader_order (a b : GameLeaderJoin) : bool :=
  let sa := coalesce (option_map ps_sacks (glj_sk a)) 0 in
  let sb := coalesce (option_map ps_sacks (glj_sk b)) 0 in
  if sa =? sb
  then null_leb (option_map pi_int_count (glj_it b))
         (option_map pi_int_count (glj_it a))
  else sb <? sa.

Definition getSingleGameDefensiveLeaders (limit : Z) (db : Database)
  : list GameDefenseLeader :=
  Sql.limit limit
    (map game_leader_select
       (order_by game_leader_order
          (filter (fun r => is_regular (glj_g r) && recognized (glj_p r))
             (game_leader_join db)))).

(** ** Passing, rushing and receiving

    The statements over [player_passing], [player_rushing] and
    [player_receiving] come in six shapes, each written three times in
    [queries.ts] with the table and its counters exchanged.  A shape is
    embedded once, over a table whose rows carry a game and a player, and
    instantiated per table below. *)

Record Leader (T : Type) := {
  ld_player_id : string;
  ld_player_name : string;
  ld_totals : T;
  ld_games : Z
}.

Record SeasonRecord (T : Type) := {
  rc_player_id : string;
  rc_player_name : string;
  rc_season : Z;
  rc_totals : T;
  rc_games : Z
}.

Record GameLeader (L : Type) := {
  gm_player_id : string;
  gm_player_name : string;
  gm_line : L;
  gm_game_date : string;
  gm_opponent : string;
  gm_season : Z
}.

Record PlayerCareer (T : Type) := {
  pc_totals : T;
  pc_games : Z;
  pc_first_season : option Z;
  pc_last_season : option Z
}.

Record PlayerSeason (T : Type) := {
  py_season : Z;
  py_totals : T;
  py_games : Z
}.

Arguments ld_player_id {T}.
Arguments ld_player_name {T}.
Arguments ld_totals {T}.
Arguments ld_games {T}.
Arguments rc_player_id {T}.
Arguments rc_player_name {T}.
Arguments rc_season {T}.
Arguments rc_totals {T}.
Arguments rc_games {T}.
Arguments gm_player_id {L}.
Arguments gm_player_name {L}.
Arguments gm_line {L}.
Arguments gm_game_date {L}.
Arguments gm_opponent {L}.
Arguments gm_season {L}.
Arguments pc_totals {T}.
Arguments pc_games {T}.
Arguments pc_first_season {T}.
Arguments pc_last_season {T}.
Arguments py_season {T}.
Arguments py_totals {T}.
Arguments py_games {T}.

Section Offense.
Context {S : Type} (game_id player_id : S -> string).

(** [FROM tbl JOIN players p ON tbl.player_id = p.player_id
    JOIN games g ON tbl.game_id = g.game_id]. *)
Definition stat_player_game (tbl : list S) (db : Database)
  : list ((S * Player) * Game) :=
  inner_join
    (inner_join tbl (players db) (fun s p => player_id s == p_player_id p))
    (games db) (fun l g => game_id (fst l) == g_game_id g).

(** [FROM tbl JOIN games g ON tbl.game_id = g.game_id
    WHERE tbl.player_id = ?]. *)
Definition stat_game_of (tbl : list S) (db : Database) (playerId : string)
  : list (S * Game) :=
  filter (fun r => player_id (fst r) == playerId)
    (inner_join tbl (games db) (fun s g => game_id s == g_game_id g)).

Definition spg_stat (r : (S * Player) * Game) : S := fst (fst r).
Definition spg_p (r : (S * Player) * Game) : Player := snd (fst r).
Definition spg_g (r : (S * Player) * Game) : Game := snd r.

(** [WHERE g.game_type = 'regular' AND p.pfa_url IS NOT NULL]. *)
Definition regular_recognized (r : (S * Player) * Game) : bool :=
  is_regular (spg_g r) && recognized (spg_p r).

Section Totals.
Context {T : Type} (total : list S -> T) (yds : T -> Z).

(** [getSeason{Passing,Rushing,Receiving}Leaders(year)]: the five
    leaders of one season; [games] is [COUNT( * )]. *)
Definition season_leaders (ch : BareColumns) (tbl : list S) (year : Z)
  (db : Database) : list (Leader T) :=
  Sql.limit 5
    (order_by (desc (fun r => yds (ld_totals r)))
       (select_groups ch
          (fun (_ : string) r g =>
             {| ld_player_id := p_player_id (spg_p r);
                ld_player_name := p_player_name (spg_p r);
                ld_totals := total (map spg_stat g);
                ld_games := count_rows g |})
          (group_by String.eqb (fun r => player_id (spg_stat r))
             (filter (fun r => (g_season (spg_g r) =? year)
                               && is_regular (spg_g r)
                               && recognized (spg_p r))
                (stat_player_game tbl db))))).

(** [getCareer{Passing,Rushing,Receiving}Leaders(limit)]. *)
Definition career_leaders (ch : BareColumns) (tbl : list S) (limit : Z)
  (db : Database) : list (Leader T) :=
  Sql.limit limit
    (order_by (desc (fun r => yds (ld_totals r)))
       (select_groups ch
          (fun (_ : string) r g =>
             {| ld_player_id := p_player_id (spg_p r);
                ld_player_name := p_player_name (spg_p r);
                ld_totals := total (map spg_stat g);
                ld_games := count_distinct (map (fun x => game_id (spg_stat x)) g) |})
          (group_by String.eqb (fun r => player_id (spg_stat r))
             (filter regular_recognized (stat_player_game tbl db))))).

(** [getSeason{Passing,Rushing,Receiving}Records(limit)]. *)
Definition season_records (ch : BareColumns) (tbl : list S) (limit : Z)
  (db : Database) : list (SeasonRecord T) :=
  Sql.limit limit
    (order_by (desc (fun r => yds (rc_totals r)))
       (select_groups ch
          (fun (k : string * Z) r g =>
             {| rc_player_id := p_player_id (spg_p r);
                rc_player_name := p_player_name (spg_p r);
                rc_season := snd k;
                rc_totals := total (map spg_stat g);
                rc_games := count_distinct (map (fun x => game_id (spg_stat x)) g) |})
          (group_by pair_eqb
             (fun r => (player_id (spg_stat r), g_season (spg_g r)))
             (filter regular_recognized (stat_player_game tbl db))))).

(** [getPlayerSeason{Stats,Rushing,Receiving}(playerId)]. *)
Definition player_seasons (tbl : list S) (db : Database) (playerId : string)
  : list (PlayerSeason T) :=
  order_by (asc py_season)
    (select_keyed
       (fun k g =>
          {| py_season := k;
             py_totals := total (map fst g);
             py_games := count_distinct (map (fun x => game_id (fst x)) g) |})
       (group_by Z.eqb (fun r => g_season (snd r))
          (stat_game_of tbl db playerId))).

(** [getPlayerCareer{Passing,Rushing,Receiving}(playerId)]: an aggregate
    without [GROUP BY], one row whatever the player. *)
Definition player_career (tbl : list S) (db : Database) (playerId : string)
  : option (PlayerCareer T) :=
  let rows := stat_game_of tbl db playerId in
  queryOne
    [ {| pc_totals := total (map fst rows);
         pc_games := count_distinct (map (fun x => game_id (fst x)) rows);
         pc_first_season := sql_min (seasons_of rows);
         pc_last_season := sql_max (seasons_of rows) |} ].
End Totals.

(** [getSingleGame{Passing,Rushing,Receiving}Leaders(limit)]: the rows
    themselves, ordered by yards. *)
Definition single_game_leaders {L : Type} (line : S -> L) (yds : S -> Z)
  (tbl : list S) (limit : Z) (db : Database) : list (GameLeader L) :=
  Sql.limit limit
    (map (fun r => {| gm_player_id := p_player_id (spg_p r);
                      gm_player_name := p_player_name (spg_p r);
                      gm_line := line (spg_stat r);
                      gm_game_date := g_game_date (spg_g r);
                      gm_opponent := g_opponent (spg_g r);
                      gm_season := g_season (spg_g r) |})
       (order_by (desc (fun r => yds (spg_stat r)))
          (filter regular_recognized (stat_player_game tbl db)))).
End Offense.

Record PassingTotals := {
  pt_att : Z; pt_com : Z; pt_yds : Z; pt_td : Z; pt_int_thrown : Z
}.

Record RushingTotals := { rt_att : Z; rt_yds : Z; rt_td : Z }.

Record ReceivingTotals := { ct_rec : Z; ct_yds : Z; ct_td : Z }.

(** Sums over the rows of a group. *)
Definition passing_totals (l : list PassingStats) : PassingTotals :=
  {| pt_att := sum_Z (map pp_att l);
     pt_com := sum_Z (map pp_com l);
     pt_yds := sum_Z (map pp_yds l);
     pt_td := sum_Z (map pp_td l);
     pt_int_thrown := sum_Z (map pp_int_thrown l) |}.

Definition rushing_totals (l : list RushingStats) : RushingTotals :=
  {| rt_att := sum_Z (map pr_att l);
     rt_yds := sum_Z (map pr_yds l);
     rt_td := sum_Z (map pr_td l) |}.

Definition receiving_totals (l : list ReceivingStats) : ReceivingTotals :=
  {| ct_rec := sum_Z (map rec_rec l);
     ct_yds := sum_Z (map rec_yds l);
     ct_td := sum_Z (map rec_td l) |}.

(** Sums of a career summary: NULL when the player has no row. *)
Record PassingCareerTotals := {
  pk_att : option Z; pk_com : option Z; pk_yds : option Z;
  pk_td : option Z; pk_int_thrown : option Z; pk_sacked : option Z
}.

Record RushingCareerTotals := {
  rk_att : option Z; rk_yds : option Z; rk_td : option Z
}.

Record ReceivingCareerTotals := {
  ck_rec : option Z; ck_yds : option Z; ck_td : option Z
}.

Definition passing_career_totals (l : list PassingStats) : PassingCareerTotals :=
  {| pk_att := sql_sum (map pp_att l);
     pk_com := sql_sum (map pp_com l);
     pk_yds := sql_sum (map pp_yds l);
     pk_td := sql_sum (map pp_td l);
     pk_int_thrown := sql_sum (map pp_int_thrown l);
     pk_sacked := sql_sum (map pp_sacked l) |}.

Definition rushing_career_totals (l : list RushingStats) : RushingCareerTotals :=
  {| rk_att := sql_sum (map pr_att l);
     rk_yds := sql_sum (map pr_yds l);
     rk_td := sql_sum (map pr_td l) |}.

Definition receiving_career_totals (l : list ReceivingStats)
  : ReceivingCareerTotals :=
  {| ck_rec := sql_sum (map rec_rec l);
     ck_yds := sql_sum (map rec_yds l);
     ck_td := sql_sum (map rec_td l) |}.

(** The line of one game. *)
Record PassingLine := {
  pl_yds : Z; pl_td : Z; pl_com : Z; pl_att : Z; pl_int_thrown : Z; pl_rtg : Z
}.

Definition passing_line (r : PassingStats) : PassingLine :=
  {| pl_yds := pp_yds r; pl_td := pp_td r; pl_com := pp_com r;
     pl_att := pp_att r; pl_int_thrown := pp_int_thrown r; pl_rtg := pp_rtg r |}.

Definition rushing_line (r : RushingStats) : RushingTotals :=
  {| rt_att := pr_att r; rt_yds := pr_yds r; rt_td := pr_td r |}.

Definition receiving_line (r : ReceivingStats) : ReceivingTotals :=
  {| ct_rec := rec_rec r; ct_yds := rec_yds r; ct_td := rec_td r |}.

Definition getSeasonPassingLeaders (ch : BareColumns) (year : Z) (db : Database) :=
  season_leaders pp_game_id pp_player_id passing_totals pt_yds ch
    (player_passing db) year db.

Definition getSeasonRushingLeaders (ch : BareColumns) (year : Z) (db : Database) :=
  season_leaders pr_game_id pr_player_id rushing_totals rt_yds ch
    (player_rushing db) year db.

Definition getSeasonReceivingLeaders (ch : BareColumns) (year : Z) (db : Database) :=
  season_leaders rec_game_id rec_player_id receiving_totals ct_yds ch
    (player_receiving db) year db.

Definition getPlayerCareerPassing (db : Database) (playerId : string) :=
  player_career pp_game_id pp_player_id passing_career_totals
    (player_passing db) db playerId.

Definition getPlayerCareerRushing (db : Database) (playerId : string) :=
  player_career pr_game_id pr_player_id rushing_career_totals
    (player_rushing db) db playerId.

Definition getPlayerCareerReceiving (db : Database) (playerId : string) :=
  player_career rec_game_id rec_player_id receiving_career_totals
    (player_receiving db) db playerId.

Definition getPlayerSeasonStats (db : Database) (playerId : string) :=
  player_seasons pp_game_id pp_player_id passing_totals
    (player_passing db) db playerId.

Definition getPlayerSeasonRushing (db : Database) (playerId : string) :=
  player_seasons pr_game_id pr_player_id rushing_totals
    (player_rushing db) db playerId.

Definition getPlayerSeasonReceiving (db : Database) (playerId : string) :=
  player_seasons rec_game_id rec_player_id receiving_totals
    (player_receiving db) db playerId.

Definition getCareerPassingLeaders (ch : BareColumns) (limit : Z) (db : Database) :=
  career_leaders pp_game_id pp_player_id passing_totals pt_yds ch
    (player_passing db) limit db.

Definition getCareerRushingLeaders (ch : BareColumns) (limit : Z) (db : Database) :=
  career_leaders pr_game_id pr_player_id rushing_totals rt_yds ch
    (player_rushing db) limit db.

Definition getCareerReceivingLeaders (ch : BareColumns) (limit : Z) (db : Database) :=
  career_leaders rec_game_id rec_player_id receiving_totals ct_yds ch
    (player_receiving db) limit db.

Definition getSingleGamePassingLeaders (limit : Z) (db : Database) :=
  single_game_leaders pp_game_id pp_player_id passing_line pp_yds
    (player_passing db) limit db.

Definition getSingleGameRushingLeaders (limit : Z) (db : Database) :=
  single_game_leaders pr_game_id pr_player_id rushing_line pr_yds
    (player_rushing db) limit db.

Definition getSingleGameReceivingLeaders (limit : Z) (db : Database) :=
  single_game_leaders rec_game_id rec_player_id receiving_line rec_yds
    (player_receiving db) limit db.

Definition getSeasonPassingRecords (ch : BareColumns) (limit : Z) (db : Database) :=
  season_records pp_game_id pp_player_id passing_totals pt_yds ch
    (player_passing db) limit db.

Definition getSeasonRushingRecords (ch : BareColumns) (limit : Z) (db : Database) :=
  season_records pr_game_id pr_player_id rushing_totals rt_yds ch
    (player_rushing db) limit db.

Definition getSeasonReceivingRecords (ch : BareColumns) (limit : Z) (db : Database) :=
  season_records rec_game_id rec_player_id receiving_totals ct_yds ch
    (player_receiving db) limit db.

(** ** Game log *)

Record GameLogRow := {
  lg_game_id : string;
  lg_season : Z;
  lg_game_date : string;
  lg_opponent : string;
  lg_home_away : string;
  lg_saints_score : option Z;
  lg_opponent_score : option Z;
  lg_result : option string;
  lg_game_type : string;
  lg_pass_att : option Z;
  lg_pass_com : option Z;
  lg_pass_yds : option Z;
  lg_pass_td : option Z;
  lg_pass_int : option Z;
  lg_pass_rtg : option Z;
  lg_rush_att : option Z;
  lg_rush_yds : option Z;
  lg_rush_td : option Z;
  lg_rec : option Z;
  lg_rec_yds : option Z;
  lg_rec_td : option Z
}.

Definition GameLogJoin : Type :=
  ((Game * option PassingStats) * option RushingStats) * option ReceivingStats.

Definition gj_g (r : GameLogJoin) : Game := fst (fst (fst r)).
Definition gj_pp (r : GameLogJoin) : option PassingStats := snd (fst (fst r)).
Definition gj_pr (r : GameLogJoin) : option RushingStats := snd (fst r).
Definition gj_rec (r : GameLogJoin) : option ReceivingStats := snd r.

Definition game_log_join (db : Database) (playerId : string) : list GameLogJoin :=
  left_join
    (left_join
       (left_join (games db) (player_passing db)
          (fun g pp => (pp_game_id pp == g_game_id g)
                       && (pp_player_id pp == playerId)))
       (player_rushing db)
       (fun l pr => (pr_game_id pr == g_game_id (fst l))
                    && (pr_player_id pr == playerId)))
    (player_receiving db)
    (fun l rec => (rec_game_id rec == g_game_id (fst (fst l)))
                  && (rec_player_id rec == playerId)).

Definition is_some {X : Type} (o : option X) : bool :=
  match o with
  | Some _ => true
  | None => false
  end.

(** [season ? `AND g.season = ?` : ``]: the clause is added when the
    argument is given and truthy, that is, not [0]. *)
Definition season_clause (season : option Z) (g : Game) : bool :=
  match season with
  | Some y => if y =? 0 then true else g_season g =? y
  | None => true
  end.

Definition game_log_where (season : option Z) (r : GameLogJoin) : bool :=
  (is_some (gj_pp r) || is_some (gj_pr r) || is_some (gj_rec r))
  && negb (g_game_type (gj_g r) == "preseason")
  && season_clause season (gj_g r).

Definition game_log_select (r : GameLogJoin) : GameLogRow :=
  let g := gj_g r in
  {| lg_game_id := g_game_id g;
     lg_season := g_season g;
     lg_game_date := g_game_date g;
     lg_opponent := g_opponent g;
     lg_home_away := g_home_away g;
     lg_saints_score := g_saints_score g;
     lg_opponent_score := g_opponent_score g;
     lg_result := g_result g;
     lg_game_type := g_game_type g;
     lg_pass_att := option_map pp_att (gj_pp r);
     lg_pass_com := option_map pp_com (gj_pp r);
     lg_pass_yds := option_map pp_yds (gj_pp r);
     lg_pass_td := option_map pp_td (gj_pp r);
     lg_pass_int := option_map pp_int_thrown (gj_pp r);
     lg_pass_rtg := option_map pp_rtg (gj_pp r);
     lg_rush_att := option_map pr_att (gj_pr r);
     lg_rush_yds := option_map pr_yds (gj_pr r);
     lg_rush_td := option_map pr_td (gj_pr r);
     lg_rec := option_map rec_rec (gj_rec r);
     lg_rec_yds := option_map rec_yds (gj_rec r);
     lg_rec_td := option_map rec_td (gj_rec r) |}.

Definition getPlayerGameLog (db : Database) (playerId : string)
  (season : option Z) : list GameLogRow :=
  map game_log_select
    (order_by (fun a b => String.leb (g_game_date (gj_g b)) (g_game_date (gj_g a)))
       (filter (game_log_where season) (game_log_join db playerId))).

(** ** Player search *)

(** [LIKE]: [%] matches any run of characters, [_] any one character, and
    letters [A]-[Z] match their lower-case forms.  Texts are byte strings
    here, so [_] consumes one byte: that is SQLite's one character on ASCII
    names, and differs from it on a multi-byte UTF-8 character. *)
Definition fold_case (c : ascii) : ascii :=
  let n := nat_of_ascii c in
  if (Nat.leb 65 n && Nat.leb n 90)%bool then ascii_of_nat (n + 32) else c.

Definition ci_eqb (c d : ascii) : bool := Ascii.eqb (fold_case c) (fold_case d).

Fixpoint like (pattern : string) : string -> bool :=
  match pattern with
  | EmptyString =>
      fun text => match text with EmptyString => true | String _ _ => false end
  | String c rest =>
      if Ascii.eqb c "%" then
        fix any_run (text : string) : bool :=
          like rest text
          || match text with
             | EmptyString => false
             | String _ text' => any_run text'
             end
      else if Ascii.eqb c "_" then
        fun text =>
          match text with
          | EmptyString => false
          | String _ text' => like rest text'
          end
      else
        fun text =>
          match text with
          | EmptyString => false
          | String d text' => ci_eqb c d && like rest text'
          end
  end.

Record SearchRow := {
  sr_id : string;
  sr_name : string;
  sr_position : option string;
  sr_first_season : option Z;
  sr_last_season : option Z
}.

Definition opt_Z_eqb (a b : option Z) : bool :=
  match a, b with
  | Some x, Some y => x =? y
  | None, None => true
  | _, _ => false
  end.

Definition opt_string_eqb (a b : option string) : bool :=
  match a, b with
  | Some x, Some y => x == y
  | None, None => true
  | _, _ => false
  end.

Definition search_row_eqb (a b : SearchRow) : bool :=
  (sr_id a == sr_id b) && (sr_name a == sr_name b)
  && opt_string_eqb (sr_position a) (sr_position b)
  && opt_Z_eqb (sr_first_season a) (sr_first_season b)
  && opt_Z_eqb (sr_last_season a) (sr_last_season b).

(** The value of a scalar sub-select: the first column of its first row,
    NULL when it has no row. *)
Definition scalar (rows : list (option Z)) : option Z :=
  match rows with
  | [] => None
  | v :: _ => v
  end.

(** [(SELECT MIN(g.season) FROM player_passing ... UNION ALL SELECT
    MIN(g.season) FROM player_rushing ... UNION ALL SELECT MIN(g.season) FROM
    player_receiving ... ORDER BY 1 LIMIT 1)]. *)
Definition search_first_season (db : Database) (playerId : string) : option Z :=
  scalar
    (Sql.limit 1
       (order_by null_leb
          ([sql_min (seasons_of (stat_game_of pp_game_id pp_player_id
                                   (player_passing db) db playerId))]
           ++ [sql_min (seasons_of (stat_game_of pr_game_id pr_player_id
                                      (player_rushing db) db playerId))]
           ++ [sql_min (seasons_of (stat_game_of rec_game_id rec_player_id
                                      (player_receiving db) db playerId))]))).

(** The same with [MAX] and [ORDER BY 1 DESC]. *)
Definition search_last_season (db : Database) (playerId : string) : option Z :=
  scalar
    (Sql.limit 1
       (order_by (fun a b => null_leb b a)
          ([sql_max (seasons_of (stat_game_of pp_game_id pp_player_id
                                   (player_passing db) db playerId))]
           ++ [sql_max (seasons_of (stat_game_of pr_game_id pr_player_id
                                      (player_rushing db) db playerId))]
           ++ [sql_max (seasons_of (stat_game_of rec_game_id rec_player_id
                                      (player_receiving db) db playerId))]))).

Definition search_select (db : Database) (p : Player) : SearchRow :=
  {| sr_id := p_player_id p;
     sr_name := p_player_name p;
     sr_position := p_position p;
     sr_first_season := search_first_season db (p_player_id p);
     sr_last_season := search_last_season db (p_player_id p) |}.

Definition search_pattern (q : string) : string := ("%" ++ q ++ "%")%string.

(** The rows of the search before [ORDER BY] and [LIMIT]. *)
Definition search_universe (q : string) (db : Database) : list SearchRow :=
  distinct search_row_eqb
    (map (search_select db)
       (filter (fun p => like (search_pattern q) (p_player_name p) && recognized p)
          (players db))).

Definition searchPlayers (q : string) (limit : Z) (db : Database)
  : list SearchRow :=
  Sql.limit limit
    (order_by (fun a b => String.leb (sr_name a) (sr_name b))
       (search_universe q db)).

(** ** The leaderboard route, [app/api/leaders/route.ts] *)

Module Route.

(** The twelve query functions the route imports. *)
Inductive Fetcher :=
| CareerPassingLeaders
| CareerRushingLeaders
| CareerReceivingLeaders
| CareerDefensiveLeaders
| SeasonPassingRecords
| SeasonRushingRecords
| SeasonReceivingRecords
| SeasonDefensiveRecords
| SingleGamePassingLeaders
| SingleGameRushingLeaders
| SingleGameReceivingLeaders
| SingleGameDefensiveLeaders.

(** What a fetcher resolves to: the rows of its statement. *)
Inductive LeaderRows :=
| CareerPassingRows (rows : list (Leader PassingTotals))
| CareerRushingRows (rows : list (Leader RushingTotals))
| CareerReceivingRows (rows : list (Leader ReceivingTotals))
| CareerDefenseRows (rows : list CareerDefenseLeader)
| SeasonPassingRows (rows : list (SeasonRecord PassingTotals))
| SeasonRushingRows (rows : list (SeasonRecord RushingTotals))
| SeasonReceivingRows (rows : list (SeasonRecord ReceivingTotals))
| SeasonDefenseRows (rows : list SeasonDefenseRecord)
| GamePassingRows (rows : list (GameLeader PassingLine))
| GameRushingRows (rows : list (GameLeader RushingTotals))
| GameReceivingRows (rows : list (GameLeader ReceivingTotals))
| GameDefenseRows (rows : list GameDefenseLeader).

(** [fetcher(limit, gameType)].  Every query function declares the single
    parameter [limit]; the second argument of the call has no parameter to
    bind to. *)
Definition call_fetcher (ch : BareColumns) (f : Fetcher) (limit : Z)
  (gameType : string) (db : Database) : LeaderRows :=
  match f with
  | CareerPassingLeaders => CareerPassingRows (getCareerPassingLeaders ch limit db)
  | CareerRushingLeaders => CareerRushingRows (getCareerRushingLeaders ch limit db)
  | CareerReceivingLeaders => CareerReceivingRows (getCareerReceivingLeaders ch limit db)
  | CareerDefensiveLeaders => CareerDefenseRows (getCareerDefensiveLeaders limit db)
  | SeasonPassingRecords => SeasonPassingRows (getSeasonPassingRecords ch limit db)
  | SeasonRushingRecords => SeasonRushingRows (getSeasonRushingRecords ch limit db)
  | SeasonReceivingRecords => SeasonReceivingRows (getSeasonReceivingRecords ch limit db)
  | SeasonDefensiveRecords => SeasonDefenseRows (getSeasonDefensiveRecords ch limit db)
  | SingleGamePassingLeaders => GamePassingRows (getSingleGamePassingLeaders limit db)
  | SingleGameRushingLeaders => GameRushingRows (getSingleGameRushingLeaders limit db)
  | SingleGameReceivingLeaders => GameReceivingRows (getSingleGameReceivingLeaders limit db)
  | SingleGameDefensiveLeaders => GameDefenseRows (getSingleGameDefensiveLeaders limit db)
  end.

(** Requests against the store, with the statements issued so far. *)
Definition Store (A : Type) : Type := Database -> A * list Fetcher.

Definition ret {A : Type} (a : A) : Store A := fun _ => (a, []).

Definition bind {A B : Type} (m : Store A) (k : A -> Store B) : Store B :=
  fun db => let (a, issued) := m db in
            let (b, issued') := k a db in
            (b, issued ++ issued').

Notation "x <- m ;; k" := (bind m (fun x => k))
  (at level 61, m at next level, right associativity).

Definition issue (ch : BareColumns) (f : Fetcher) (limit : Z) (gameType : string)
  : Store LeaderRows :=
  fun db => (call_fetcher ch f limit gameType db, [f]).

(** The object literal [fetchers], by own property. *)
Definition fetchers : list (string * list (string * Fetcher)) :=
  [ ("career", [ ("passing", CareerPassingLeaders);
                 ("rushing", CareerRushingLeaders);
                 ("receiving", CareerReceivingLeaders);
                 ("defense", CareerDefensiveLeaders) ]);
    ("season", [ ("passing", SeasonPassingRecords);
                 ("rushing", SeasonRushingRecords);
                 ("receiving", SeasonReceivingRecords);
                 ("defense", SeasonDefensiveRecords) ]);
    ("game", [ ("passing", SingleGamePassingLeaders);
               ("rushing", SingleGameRushingLeaders);
               ("receiving", SingleGameReceivingLeaders);
               ("defense", SingleGameDefensiveLeaders) ]) ].

Fixpoint own {V : Type} (o : list (string * V)) (key : string) : option V :=
  match o with
  | [] => None
  | (k, v) :: rest => if k == key then Some v else own rest key
  end.

(** The result of calling a value that is not one of the query functions. *)
Inductive CallResult :=
| Returned (value : string)
| Thrown (error : string).

(** [fetchers[scope]?.[category]] is a property read, and a property that
    is not an own property of an object literal is looked up in
    [Object.prototype].  The built-in objects found there belong to the
    JavaScript runtime, not to the repository; they are a parameter of the
    route: [object_prototype k] is the member of [Object.prototype] named
    [k], [builtin_member b k] the property [k] of a built-in ([None] when it
    is undefined or null), [builtin_truthy] its truth value and
    [builtin_call b limit gameType] the outcome of calling it the way the
    route calls a fetcher.  No built-in reaches the data store. *)
Record Runtime : Type := {
  builtin : Type;
  object_prototype : string -> option builtin;
  builtin_member : builtin -> string -> option builtin;
  builtin_truthy : builtin -> bool;
  builtin_call : builtin -> Z -> string -> CallResult
}.

Inductive Value (rt : Runtime) :=
| Undefined
| Table (t : list (string * Fetcher))
| QueryFunction (f : Fetcher)
| Builtin (b : builtin rt).

Arguments Undefined {rt}.
Arguments Table {rt}.
Arguments QueryFunction {rt}.
Arguments Builtin {rt}.

Definition inherited (rt : Runtime) (key : string) : Value rt :=
  match object_prototype rt key with
  | Some b => Builtin b
  | None => Undefined
  end.

(** [fetchers[scope]]. *)
Definition get_scope (rt : Runtime) (scope : string) : Value rt :=
  match own fetchers scope with
  | Some t => Table t
  | None => inherited rt scope
  end.

(** [v?.[category]]. *)
Definition get_category (rt : Runtime) (v : Value rt) (category : string)
  : Value rt :=
  match v with
  | Undefined => Undefined
  | Table t =>
      match own t category with
      | Some f => QueryFunction f
      | None => inherited rt category
      end
  | QueryFunction _ => Undefined
  | Builtin b =>
      match builtin_member rt b category with
      | Some b' => Builtin b'
      | None => Undefined
      end
  end.

Record Request := {
  scope_param : option string;
  category_param : option string;
  gameType_param : option string
}.

Inductive Body :=
| ErrorBody (error : string)
| RowsBody (rows : LeaderRows)
| ValueBody (value : string).

Inductive Response :=
| Json (status : Z) (body : Body)
| Uncaught (error : string).

(** [searchParams.get(name) ?? fallback]. *)
Definition or_default (param : option string) (fallback : string) : string :=
  match param with
  | Some v => v
  | None => fallback
  end.

Definition VALID_GAME_TYPES : list string := ["regular"; "playoff"; "preseason"].

Definition has (set : list string) (x : string) : bool :=
  existsb (fun y => y == x) set.

(** [VALID_GAME_TYPES.has(rawGameType) ? rawGameType : "regular"]. *)
Definition game_type_of (request : Request) : string :=
  let rawGameType := or_default (gameType_param request) "regular" in
  if has VALID_GAME_TYPES rawGameType then rawGameType else "regular".

(** [fetchers[scope]?.[category]]. *)
Definition fetcher_of (rt : Runtime) (request : Request) : Value rt :=
  let scope := or_default (scope_param request) "career" in
  let category := or_default (category_param request) "passing" in
  get_category rt (get_scope rt scope) category.

Definition invalid : Response := Json 400 (ErrorBody "Invalid scope or category").

Definition GET (rt : Runtime) (ch : BareColumns) (request : Request)
  : Store Response :=
  let gameType := game_type_of request in
  match fetcher_of rt request with
  | Undefined => ret invalid
  | Table _ => ret (Uncaught "TypeError: fetcher is not a function")
  | QueryFunction f =>
      data <- issue ch f 50 gameType ;;
      ret (Json 200 (RowsBody data))
  | Builtin b =>
      if builtin_truthy rt b then
        match builtin_call rt b 50 gameType with
        | Returned v => ret (Json 200 (ValueBody v))
        | Thrown e => ret (Uncaught e)
        end
      else ret invalid
  end.

(** A runtime holding the one built-in the examples below reach:
    [Object.prototype.toString], which called without a receiver returns the
    text [[object Undefined]]. *)
Inductive ToStringOnly := ObjectPrototype_toString.

Definition toString_runtime : Runtime :=
  {| builtin := ToStringOnly;
     object_prototype := fun k => if k == "toString"
                                  then Some ObjectPrototype_toString else None;
     builtin_member := fun _ _ => None;
     builtin_truthy := fun _ => true;
     builtin_call := fun _ _ _ => Returned "[object Undefined]" |}.

End Route.

(** Two engines, for the examples: one reads bare columns from the first
    row of a group, the other from the last. *)
Definition first_row : BareColumns.
Proof.
  refine {| choose := fun A a l => a |}.
  intros A a l. left. reflexivity.
Defined.

Definition last_row : BareColumns.
Proof.
  refine {| choose := fun A a l => last l a |}.
  intros A a l.
  induction l as [|b t IH].
  - left. reflexivity.
  - destruct t as [|c t'].
    + right. left. reflexivity.
    + change (last (b :: c :: t') a) with (last (c :: t') a).
      destruct IH as [E | H].
      * left. exact E.
      * right. right. exact H.
Defined.

(** ** Example databases *)

Definition game (id : string) (season : Z) (type : string) : Game :=
  {| g_game_id := id; g_season := season; g_game_date := id;
     g_game_type := type; g_opponent := "ATL"; g_home_away := "home";
     g_saints_score := None; g_opponent_score := None; g_result := None |}.

Definition linked_player (id name : string) : Player :=
  {| p_player_id := id; p_player_name := name;
     p_pfa_url := Some "https://www.profootballarchives.com";
     p_position := None |}.

Definition tackles (gameId playerId : string) (tkl : Z) : DefenseStats :=
  {| pd_game_id := gameId; pd_player_id := playerId; pd_tkl := tkl;
     pd_tfl := 0; pd_qh := 0; pd_pd := 0; pd_ff := 0 |}.

Definition sack (gameId playerId : string) (sacks : Z) : SackStats :=
  {| ps_game_id := gameId; ps_player_id := playerId; ps_sacks := sacks |}.

Definition interception (gameId playerId : string) (n : Z) : InterceptionStats :=
  {| pi_game_id := gameId; pi_player_id := playerId; pi_int_count := n;
     pi_yds := 0; pi_td := 0 |}.

Definition passing (gameId playerId : string) (yds : Z) : PassingStats :=
  {| pp_game_id := gameId; pp_player_id := playerId; pp_att := 30;
     pp_com := 20; pp_int_thrown := 0; pp_yds := yds; pp_td := 2;
     pp_sacked := 1; pp_rtg := 1000 |}.

Definition no_rows : Database :=
  {| games := []; players := []; player_passing := []; player_rushing := [];
     player_receiving := []; player_defense := []; player_sacks := [];
     player_interceptions := [] |}.

(** [player_defense = {(P, 2001, tkl=5)}], [player_sacks = {}],
    [player_interceptions = {(P, 1999, int=1)}]. *)
Definition tackles_2001_interception_1999 : Database :=
  {| games := [game "2001-01" 2001 "regular"; game "1999-01" 1999 "regular"];
     players := [linked_player "P" "Pat"];
     player_passing := []; player_rushing := []; player_receiving := [];
     player_defense := [tackles "2001-01" "P" 5];
     player_sacks := [];
     player_interceptions := [interception "1999-01" "P" 1] |}.

(** ** What one player contributes to the career-defense leaderboard

    The rows of each defensive table that belong to the player and whose
    game is a regular-season game, and the leaderboard row they add up
    to. *)

Definition regular_tackles_of (db : Database) (X : string)
  : list (DefenseStats * Game) :=
  filter (fun r => X == pd_player_id (fst r)) (regular_defense db).

Definition regular_sacks_of (db : Database) (X : string)
  : list (SackStats * Game) :=
  filter (fun r => X == ps_player_id (fst r)) (regular_sacks db).

Definition regular_interceptions_of (db : Database) (X : string)
  : list (InterceptionStats * Game) :=
  filter (fun r => X == pi_player_id (fst r)) (regular_interceptions db).

Definition regular_sack_total (db : Database) (X : string) : Z :=
  sum_Z (map (fun r => ps_sacks (fst r)) (regular_sacks_of db X)).

Definition regular_interception_total (db : Database) (X : string) : Z :=
  sum_Z (map (fun r => pi_int_count (fst r)) (regular_interceptions_of db X)).

Definition career_leader_row (db : Database) (p : Player) : CareerDefenseLeader :=
  let X := p_player_id p in
  {| cl_player_id := X;
     cl_player_name := p_player_name p;
     cl_tkl := sum_Z (map (fun r => pd_tkl (fst r)) (regular_tackles_of db X));
     cl_tfl := sum_Z (map (fun r => pd_tfl (fst r)) (regular_tackles_of db X));
     cl_qh := sum_Z (map (fun r => pd_qh (fst r)) (regular_tackles_of db X));
     cl_pd_count := sum_Z (map (fun r => pd_pd (fst r)) (regular_tackles_of db X));
     cl_ff := sum_Z (map (fun r => pd_ff (fst r)) (regular_tackles_of db X));
     cl_sacks := regular_sack_total db X;
     cl_int_count := regular_interception_total db X;
     cl_games :=
       count_distinct (map (fun r => pd_game_id (fst r)) (regular_tackles_of db X))
       + count_distinct (map (fun r => ps_game_id (fst r)) (regular_sacks_of db X))
       + count_distinct (map (fun r => pi_game_id (fst r))
                           (regular_interceptions_of db X)) |}.

(** The row of a sub-select that joins to player [X], if any. *)
Definition def_lookup (db : Database) (X : string) : option DefLeaderSub :=
  match regular_tackles_of db X with
  | [] => None
  | g => Some (def_leader_select X g)
  end.

Definition sack_lookup (db : Database) (X : string) : option SackLeaderSub :=
  match regular_sacks_of db X with
  | [] => None
  | g => Some (sack_leader_select X g)
  end.

Definition int_lookup (db : Database) (X : string) : option IntLeaderSub :=
  match regular_interceptions_of db X with
  | [] => None
  | g => Some (int_leader_select X g)
  end.

Definition career_join_of (db : Database) (l : string * Player)
  : CareerLeaderJoin :=
  (l, def_lookup db (fst l), sack_lookup db (fst l), int_lookup db (fst l)).

(** The identities found in the three defensive tables. *)
Definition defensive_ids (db : Database) : list string :=
  map pd_player_id (player_defense db)
  ++ map ps_player_id (player_sacks db)
  ++ map pi_player_id (player_interceptions db).

(** A sack in a playoff game, and nothing else. *)
Definition playoff_sack_only : Database :=
  {| games := [game "1987-p1" 1987 "playoff"];
     players := [linked_player "X" "Rickey"];
     player_passing := []; player_rushing := []; player_receiving := [];
     player_defense := [];
     player_sacks := [sack "1987-p1" "X" 2];
     player_interceptions := [] |}.

(** An interception in a playoff game, and nothing else. *)
Definition playoff_interception_only : Database :=
  {| games := [game "1991-p1" 1991 "playoff"];
     players := [linked_player "X" "Gene"];
     player_passing := []; player_rushing := []; player_receiving := [];
     player_defense := [];
     player_sacks := [];
     player_interceptions := [interception "1991-p1" "X" 1] |}.

(** Sacks in two regular-season games and one playoff game. *)
Definition sacks_only : Database :=
  {| games := [game "1979-01" 1979 "regular"; game "1979-02" 1979 "regular";
               game "1979-p1" 1979 "playoff"];
     players := [linked_player "X" "Rickey"; linked_player "Y" "Pat"];
     player_passing := []; player_rushing := []; player_receiving := [];
     player_defense := [tackles "1979-01" "Y" 4];
     player_sacks := [sack "1979-01" "X" 2; sack "1979-02" "X" 1;
                      sack "1979-p1" "X" 3];
     player_interceptions := [] |}.

(** Interceptions only, in the regular season. *)
Definition interceptions_only : Database :=
  {| games := [game "1967-01" 1967 "regular"; game "1967-02" 1967 "regular"];
     players := [linked_player "X" "Dave"];
     player_passing := []; player_rushing := []; player_receiving := [];
     player_defense := [];
     player_sacks := [];
     player_interceptions := [interception "1967-01" "X" 1;
                              interception "1967-02" "X" 2] |}.

(** The sack total of a player as the leaderboard claim words it: the sum
    over the player's rows of [player_sacks]. *)
Definition sack_total (db : Database) (X : string) : Z :=
  sum_Z (map ps_sacks (filter (fun s => ps_player_id s == X) (player_sacks db))).

(** ** What one season adds to the season-by-season defense of a player

    The rows of each defensive table that belong to the player and to a
    game of the season (of any type), with the per-season row they merge
    into. *)

Definition season_tackles_of (db : Database) (playerId : string) (s : Z)
  : list (DefenseStats * Game) :=
  filter (fun r => s =? g_season (snd r)) (player_defense_games db playerId).

Definition season_sacks_of (db : Database) (playerId : string) (s : Z)
  : list (SackStats * Game) :=
  filter (fun r => s =? g_season (snd r)) (player_sacks_games db playerId).

Definition season_interceptions_of (db : Database) (playerId : string) (s : Z)
  : list (InterceptionStats * Game) :=
  filter (fun r => s =? g_season (snd r)) (player_interceptions_games db playerId).

(** The three distinct-game counts of a player in a season. *)
Definition season_tackle_games (db : Database) (playerId : string) (s : Z) : Z :=
  count_distinct (map (fun r => pd_game_id (fst r)) (season_tackles_of db playerId s)).

Definition season_sack_games (db : Database) (playerId : string) (s : Z) : Z :=
  count_distinct (map (fun r => ps_game_id (fst r)) (season_sacks_of db playerId s)).

Definition season_interception_games (db : Database) (playerId : string) (s : Z)
  : Z :=
  count_distinct
    (map (fun r => pi_game_id (fst r)) (season_interceptions_of db playerId s)).

Definition player_season_row (db : Database) (playerId : string) (s : Z)
  : PlayerSeasonDefense :=
  {| psd_season := s;
     psd_tkl := sum_Z (map (fun r => pd_tkl (fst r)) (season_tackles_of db playerId s));
     psd_tfl := sum_Z (map (fun r => pd_tfl (fst r)) (season_tackles_of db playerId s));
     psd_qh := sum_Z (map (fun r => pd_qh (fst r)) (season_tackles_of db playerId s));
     psd_pd_count :=
       sum_Z (map (fun r => pd_pd (fst r)) (season_tackles_of db playerId s));
     psd_ff := sum_Z (map (fun r => pd_ff (fst r)) (season_tackles_of db playerId s));
     psd_sacks :=
       sum_Z (map (fun r => ps_sacks (fst r)) (season_sacks_of db playerId s));
     psd_int_count :=
       sum_Z (map (fun r => pi_int_count (fst r))
                (season_interceptions_of db playerId s));
     psd_games :=
       Z.max (season_tackle_games db playerId s)
         (Z.max (season_sack_games db playerId s)
            (season_interception_games db playerId s)) |}.

(** The seasons in which the player has a row in one of the tables. *)
Definition defensive_seasons (db : Database) (playerId : string) : list Z :=
  map (fun r => g_season (snd r)) (player_defense_games db playerId)
  ++ map (fun r => g_season (snd r)) (player_sacks_games db playerId)
  ++ map (fun r => g_season (snd r)) (player_interceptions_games db playerId).

(** Tackles and a sack in the same game. *)
Definition tackles_and_sack_same_game : Database :=
  {| games := [game "2001-01" 2001 "regular"];
     players := [linked_player "P" "Pat"];
     player_passing := []; player_rushing := []; player_receiving := [];
     player_defense := [tackles "2001-01" "P" 5];
     player_sacks := [sack "2001-01" "P" 2];
     player_interceptions := [] |}.

(** The partial row a table contributes to a season: none when the player
    has no row of the table in that season. *)
Definition one_partial {R : Type} (mk : Z -> list R -> PlayerSeasonPartial)
  (s : Z) (rows : list R) : list PlayerSeasonPartial :=
  match rows with
  | [] => []
  | _ :: _ => [mk s rows]
  end.


(** The three distinct-game counts of a player over regular-season games,
    and over games of every type. *)
Definition regular_tackle_games (db : Database) (X : string) : Z :=
  count_distinct (map (fun r => pd_game_id (fst r)) (regular_tackles_of db X)).

Definition regular_sack_games (db : Database) (X : string) : Z :=
  count_distinct (map (fun r => ps_game_id (fst r)) (regular_sacks_of db X)).

Definition regular_interception_games (db : Database) (X : string) : Z :=
  count_distinct
    (map (fun r => pi_game_id (fst r)) (regular_interceptions_of db X)).

Definition career_tackle_games (db : Database) (X : string) : Z :=
  count_distinct (map (fun r => pd_game_id (fst r)) (player_defense_games db X)).

Definition career_sack_games (db : Database) (X : string) : Z :=
  count_distinct (map (fun r => ps_game_id (fst r)) (player_sacks_games db X)).

Definition career_interception_games (db : Database) (X : string) : Z :=
  count_distinct
    (map (fun r => pi_game_id (fst r)) (player_interceptions_games db X)).

(** Two rows of [player_passing] for the same game and player. *)
Definition duplicate_passing_row : Database :=
  {| games := [game "2009-01" 2009 "regular"];
     players := [linked_player "P" "Drew"];
     player_passing := [passing "2009-01" "P" 300; passing "2009-01" "P" 300];
     player_rushing := []; player_receiving := [];
     player_defense := []; player_sacks := []; player_interceptions := [] |}.

(** Passing in two games. *)
Definition two_passing_games : Database :=
  {| games := [game "2009-01" 2009 "regular"; game "2009-02" 2009 "regular"];
     players := [linked_player "P" "Drew"];
     player_passing := [passing "2009-01" "P" 300; passing "2009-02" "P" 250];
     player_rushing := []; player_receiving := [];
     player_defense := []; player_sacks := []; player_interceptions := [] |}.

(** The rows of a table that belong to a player. *)
Definition rows_of {S : Type} (player_id : S -> string) (tbl : list S)
  (playerId : string) : list S :=
  filter (fun s => player_id s == playerId) tbl.

(** Passing in a regular-season game and in a playoff game. *)
Definition regular_and_playoff_passing : Database :=
  {| games := [game "2009-01" 2009 "regular"; game "2009-p1" 2009 "playoff"];
     players := [linked_player "P" "Drew"];
     player_passing := [passing "2009-01" "P" 100; passing "2009-p1" "P" 300];
     player_rushing := []; player_receiving := [];
     player_defense := []; player_sacks := []; player_interceptions := [] |}.

(** The scopes and categories of the leaderboard interface. *)
Definition valid_scopes : list string := ["career"; "season"; "game"].

Definition valid_categories : list string :=
  ["passing"; "rushing"; "receiving"; "defense"].

(** ** The game log, game by game

    The row of the player in each offensive table for one game, if any,
    and the joined row of that game. *)

Definition passing_row (db : Database) (gameId playerId : string)
  : option PassingStats :=
  find (fun pp => (pp_game_id pp == gameId) && (pp_player_id pp == playerId))
    (player_passing db).

Definition rushing_row (db : Database) (gameId playerId : string)
  : option RushingStats :=
  find (fun pr => (pr_game_id pr == gameId) && (pr_player_id pr == playerId))
    (player_rushing db).

Definition receiving_row (db : Database) (gameId playerId : string)
  : option ReceivingStats :=
  find (fun rec => (rec_game_id rec == gameId) && (rec_player_id rec == playerId))
    (player_receiving db).

Definition game_log_join_of (db : Database) (playerId : string) (g : Game)
  : GameLogJoin :=
  (g, passing_row db (g_game_id g) playerId,
   rushing_row db (g_game_id g) playerId,
   receiving_row db (g_game_id g) playerId).

(** The player recorded a statistic in passing, rushing or receiving in
    game [g]. *)
Definition played (db : Database) (playerId : string) (g : Game) : bool :=
  is_some (passing_row db (g_game_id g) playerId)
  || is_some (rushing_row db (g_game_id g) playerId)
  || is_some (receiving_row db (g_game_id g) playerId).

(** A preseason game and three games of 2009, one of them without a
    statistic of the player, one with tackles only; a game of 2010. *)
Definition game_log_example : Database :=
  {| games := [game "2009-00" 2009 "preseason"; game "2009-01" 2009 "regular";
               game "2009-02" 2009 "regular"; game "2009-03" 2009 "regular";
               game "2009-p1" 2009 "playoff"; game "2010-01" 2010 "regular"];
     players := [linked_player "P" "Drew"];
     player_passing := [passing "2009-00" "P" 80; passing "2009-01" "P" 300;
                        passing "2009-p1" "P" 250];
     player_rushing := [ {| pr_game_id := "2009-p1"; pr_player_id := "P";
                            pr_att := 2; pr_yds := 7; pr_td := 0 |} ];
     player_receiving := [ {| rec_game_id := "2010-01"; rec_player_id := "P";
                              rec_rec := 1; rec_yds := 12; rec_td := 0 |} ];
     player_defense := [tackles "2009-03" "P" 1];
     player_sacks := []; player_interceptions := [] |}.

(** ** Player search, in the words of the specification *)

(** [q] is a prefix of [t], letters compared without case. *)
Fixpoint prefix_ci (q t : string) : bool :=
  match q with
  | EmptyString => true
  | String c q' =>
      match t with
      | EmptyString => false
      | String d t' => ci_eqb c d && prefix_ci q' t'
      end
  end.

(** [t] contains [q] as a case-insensitive substring. *)
Fixpoint contains_ci (q t : string) : bool :=
  prefix_ci q t
  || match t with
     | EmptyString => false
     | String _ t' => contains_ci q t'
     end.

(** [q] holds neither [%] nor [_]. *)
Fixpoint wildcard_free (q : string) : bool :=
  match q with
  | EmptyString => true
  | String c q' =>
      negb (Ascii.eqb c "%") && negb (Ascii.eqb c "_") && wildcard_free q'
  end.

(** The seasons of the passing, rushing and receiving appearances of a
    player, together. *)
Definition offense_seasons (db : Database) (playerId : string) : list (option Z) :=
  seasons_of (stat_game_of pp_game_id pp_player_id (player_passing db) db playerId)
  ++ seasons_of (stat_game_of pr_game_id pr_player_id (player_rushing db) db playerId)
  ++ seasons_of (stat_game_of rec_game_id rec_player_id (player_receiving db) db
                   playerId).

(** A passer of 2009 and a defender without offensive statistics. *)
Definition search_example : Database :=
  {| games := [game "2009-01" 2009 "regular"; game "2010-01" 2010 "regular"];
     players := [linked_player "P" "Drew Brees"; linked_player "Q" "Bo"];
     player_passing := [passing "2009-01" "P" 300; passing "2010-01" "P" 250];
     player_rushing := []; player_receiving := [];
     player_defense := [tackles "2009-01" "Q" 3];
     player_sacks := []; player_interceptions := [] |}.

(** A player with passing, rushing and receiving appearances. *)
Definition all_purpose_example : Database :=
  {| games := [game "2006-01" 2006 "regular"; game "2007-01" 2007 "regular";
               game "2008-01" 2008 "regular"];
     players := [linked_player "R" "Reggie Bush"];
     player_passing := [passing "2007-01" "R" 20];
     player_rushing := [ {| pr_game_id := "2006-01"; pr_player_id := "R";
                            pr_att := 10; pr_yds := 60; pr_td := 1 |} ];
     player_receiving := [ {| rec_game_id := "2008-01"; rec_player_id := "R";
                              rec_rec := 5; rec_yds := 40; rec_td := 0 |} ];
     player_defense := []; player_sacks := []; player_interceptions := [] |}.

(** ** Tactics for evaluating a statement on an example

    [eval_groups] computes the groups of a [GROUP BY]; [pick_rows] then
    reads the bare columns of each group from whichever row the engine
    picks, one case per row. *)
Ltac pick_rows ch :=
  repeat match goal with
         | |- context [choose ch ?A ?a ?l] =>
             let E := fresh "E" in
             destruct (choose_In ch A a l) as [E | E];
             [ rewrite <- E; clear E
             | repeat (destruct E as [E | E]; [rewrite <- E; clear E|]);
               try destruct E ]
         end.

Ltac eval_groups ch :=
  repeat match goal with
         | |- context [select_groups ch ?mk ?G] =>
             let g := eval vm_compute in G in
             progress change G with g
         end;
  cbn [select_groups flat_map bare_row fst snd app].


(** ** Games counted in a table

    The number of distinct [game_id] values among the rows of a table that
    belong to player [X] and whose game is a row of [games] that [keep]
    accepts. *)
Definition games_counted {S : Type} (game_id player_id : S -> string)
  (tbl : list S) (keep : Game -> bool) (db : Database) (X : string) : Z :=
  count_distinct
    (map game_id
       (filter (fun s => (player_id s == X)
                         && existsb (fun g => (g_game_id g == game_id s) && keep g)
                              (games db))
          tbl)).

Definition any_game (g : Game) : bool := true.

Definition in_season (season : Z) (g : Game) : bool := g_season g =? season.

(** * The rest of [queries.ts] and the pages that call it

    The statements of [queries.ts] not embedded above (franchise summary,
    seasons, team totals, games played by year, the players directory, the
    draft), and the parts of the season, draft and box-score pages that
    work on their rows.  The tables [team_game_stats] and [draft_picks] are
    arguments of the statements that read them. *)

From Stdlib Require Import Sorted.

(** ** Leaderboards before the cut

    The rows of a leaderboard before [ORDER BY] and [LIMIT], and the rows
    that [LIMIT n] leaves out. *)

Definition dropped {A : Type} (n : Z) (l : list A) : list A :=
  if n <? 0 then [] else skipn (Z.to_nat n) l.

Section OffenseUniverse.
Context {S T : Type} (game_id player_id : S -> string) (total : list S -> T).

Definition career_groups (tbl : list S) (db : Database)
  : list (string * list ((S * Player) * Game)) :=
  group_by String.eqb (fun r => player_id (spg_stat r))
    (filter regular_recognized (stat_player_game game_id player_id tbl db)).

Definition career_universe (ch : BareColumns) (tbl : list S) (db : Database)
  : list (Leader T) :=
  select_groups ch
    (fun (_ : string) r g =>
       {| ld_player_id := p_player_id (spg_p r);
          ld_player_name := p_player_name (spg_p r);
          ld_totals := total (map spg_stat g);
          ld_games := count_distinct (map (fun x => game_id (spg_stat x)) g) |})
    (career_groups tbl db).

Definition season_record_groups (tbl : list S) (db : Database)
  : list ((string * Z) * list ((S * Player) * Game)) :=
  group_by pair_eqb (fun r => (player_id (spg_stat r), g_season (spg_g r)))
    (filter regular_recognized (stat_player_game game_id player_id tbl db)).

Definition season_record_universe (ch : BareColumns) (tbl : list S)
  (db : Database) : list (SeasonRecord T) :=
  select_groups ch
    (fun (k : string * Z) r g =>
       {| rc_player_id := p_player_id (spg_p r);
          rc_player_name := p_player_name (spg_p r);
          rc_season := snd k;
          rc_totals := total (map spg_stat g);
          rc_games := count_distinct (map (fun x => game_id (spg_stat x)) g) |})
    (season_record_groups tbl db).
End OffenseUniverse.

(** ** Franchise summary and seasons *)

(** [SUM(e)] over a NULL-able column skips NULL values; the sum of no value
    is NULL. *)
Definition non_null {X : Type} (l : list (option X)) : list X :=
  flat_map (fun o => match o with Some x => [x] | None => [] end) l.

Definition sql_sum_nullable (l : list (option Z)) : option Z :=
  sql_sum (non_null l).

(** [CASE WHEN result = c THEN 1 ELSE 0 END]: a NULL result takes the
    [ELSE] branch. *)
Definition result_case (c : string) (g : Game) : Z :=
  match g_result g with
  | Some r => if r == c then 1 else 0
  | None => 0
  end.

(** [FROM games WHERE game_type = 'regular']. *)
Definition regular_games (db : Database) : list Game :=
  filter is_regular (games db).

Record FranchiseSummary := {
  fs_total_games : Z;
  fs_wins : option Z;
  fs_losses : option Z;
  fs_ties : option Z;
  fs_first_season : option Z;
  fs_last_season : option Z;
  fs_total_players : Z;
  fs_points_for : Z;
  fs_points_against : Z
}.

(** [getFranchiseSummary]: an aggregate without [GROUP BY], one row. *)
Definition getFranchiseSummary (db : Database) : option FranchiseSummary :=
  let rows := regular_games db in
  queryOne
    [ {| fs_total_games := count_rows rows;
         fs_wins := sql_sum (map (result_case "W") rows);
         fs_losses := sql_sum (map (result_case "L") rows);
         fs_ties := sql_sum (map (result_case "T") rows);
         fs_first_season := sql_min (map (fun g => Some (g_season g)) rows);
         fs_last_season := sql_max (map (fun g => Some (g_season g)) rows);
         fs_total_players := count_rows (filter recognized (players db));
         fs_points_for := coalesce (sql_sum_nullable (map g_saints_score rows)) 0;
         fs_points_against :=
           coalesce (sql_sum_nullable (map g_opponent_score rows)) 0 |} ].

Record SeasonSummary := {
  ss_season : Z;
  ss_wins : Z;
  ss_losses : Z;
  ss_ties : Z;
  ss_games : Z;
  ss_points_for : Z;
  ss_points_against : Z
}.

(** The select list of [getSeasons] and [getRecentSeasons] over the games
    of one season. *)
Definition season_summary_select (k : Z) (g : list Game) : SeasonSummary :=
  {| ss_season := k;
     ss_wins := sum_Z (map (result_case "W") g);
     ss_losses := sum_Z (map (result_case "L") g);
     ss_ties := sum_Z (map (result_case "T") g);
     ss_games := count_rows g;
     ss_points_for := coalesce (sql_sum_nullable (map g_saints_score g)) 0;
     ss_points_against :=
       coalesce (sql_sum_nullable (map g_opponent_score g)) 0 |}.

(** [getSeasons]: [GROUP BY season ORDER BY season DESC]. *)
Definition getSeasons (db : Database) : list SeasonSummary :=
  order_by (desc ss_season)
    (select_keyed season_summary_select
       (group_by Z.eqb g_season (regular_games db))).

(** [getRecentSeasons(limit = 3)]: the statement of [getSeasons] with
    [LIMIT ?]. *)
Definition getRecentSeasons (limit : Z) (db : Database) : list SeasonSummary :=
  Sql.limit limit
    (order_by (desc ss_season)
       (select_keyed season_summary_select
          (group_by Z.eqb g_season (regular_games db)))).

(** [getSeasonGames(year)]: [WHERE season = ? ORDER BY game_date]. *)
Definition getSeasonGames (year : Z) (db : Database) : list Game :=
  order_by (fun a b => String.leb (g_game_date a) (g_game_date b))
    (filter (fun g => g_season g =? year) (games db)).

(** [getGame(id)]. *)
Definition getGame (id : string) (db : Database) : option Game :=
  queryOne (filter (fun g => g_game_id g == id) (games db)).

(** The table [team_game_stats]: one row per game and team. *)
Record TeamGameStats := {
  tg_game_id : string;
  tg_team : string;
  tg_rush_att : Z;
  tg_rush_yds : Z;
  tg_rush_td : Z;
  tg_pass_att : Z;
  tg_pass_com : Z;
  tg_pass_yds : Z;
  tg_pass_td : Z;
  tg_pass_int : Z;
  tg_total_points : Z
}.

Record TeamTotals := {
  tt_rush_att : Z;
  tt_rush_yds : Z;
  tt_rush_td : Z;
  tt_pass_att : Z;
  tt_pass_com : Z;
  tt_pass_yds : Z;
  tt_pass_td : Z;
  tt_pass_int : Z;
  tt_total_points : Z
}.

(** [t.team LIKE '%Saints%' OR t.team LIKE '%New Orleans%']. *)
Definition saints_team (team : string) : bool :=
  like "%Saints%" team || like "%New Orleans%" team.

Definition season_team_rows (team_game_stats : list TeamGameStats) (year : Z)
  (db : Database) : list (TeamGameStats * Game) :=
  filter (fun r => (g_season (snd r) =? year)
                   && saints_team (tg_team (fst r))
                   && is_regular (snd r))
    (inner_join team_game_stats (games db)
       (fun t g => tg_game_id t == g_game_id g)).

(** [getSeasonTeamStats(year)]: every column is [COALESCE(SUM(...), 0)]. *)
Definition getSeasonTeamStats (team_game_stats : list TeamGameStats) (year : Z)
  (db : Database) : list TeamTotals :=
  let rows := map fst (season_team_rows team_game_stats year db) in
  [ {| tt_rush_att := coalesce (sql_sum (map tg_rush_att rows)) 0;
       tt_rush_yds := coalesce (sql_sum (map tg_rush_yds rows)) 0;
       tt_rush_td := coalesce (sql_sum (map tg_rush_td rows)) 0;
       tt_pass_att := coalesce (sql_sum (map tg_pass_att rows)) 0;
       tt_pass_com := coalesce (sql_sum (map tg_pass_com rows)) 0;
       tt_pass_yds := coalesce (sql_sum (map tg_pass_yds rows)) 0;
       tt_pass_td := coalesce (sql_sum (map tg_pass_td rows)) 0;
       tt_pass_int := coalesce (sql_sum (map tg_pass_int rows)) 0;
       tt_total_points := coalesce (sql_sum (map tg_total_points rows)) 0 |} ].

(** ** The season page, [seasons/[year]/page.tsx] *)

(** A JavaScript number as [parseInt(s, 10)] returns it: NaN or an
    integer.  (The infinity it returns on a run of digits beyond the range
    of numbers is left out.) *)
Inductive JsNumber :=
| NaN
| Num (n : Z).

(** [g.game_type === t] and [g.result === c]. *)
Definition game_type_is (t : string) (g : Game) : bool := g_game_type g == t.

Definition result_is (c : string) (g : Game) : bool :=
  match g_result g with
  | Some r => r == c
  | None => false
  end.

Record SeasonPage := {
  sp_year : Z;
  sp_wins : Z;
  sp_losses : Z;
  sp_ties : Z;
  sp_team_stats : option TeamTotals;
  sp_regular : list Game;
  sp_playoff : list Game;
  sp_preseason : list Game;
  sp_pass_leaders : list (Leader PassingTotals);
  sp_rush_leaders : list (Leader RushingTotals);
  sp_rec_leaders : list (Leader ReceivingTotals)
}.

(** [SeasonDetailPage], from the value of [parseInt(yearStr, 10)] on;
    [None] is [notFound()].  The games pass through
    [JSON.parse(JSON.stringify(...))], which returns rows of text, numbers
    and null unchanged. *)
Definition SeasonDetailPage (ch : BareColumns)
  (team_game_stats : list TeamGameStats) (year : JsNumber) (db : Database)
  : option SeasonPage :=
  match year with
  | NaN => None
  | Num y =>
      let rawGames := getSeasonGames y db in
      let teamStatsArr := getSeasonTeamStats team_game_stats y db in
      let passLeaders := getSeasonPassingLeaders ch y db in
      let rushLeaders := getSeasonRushingLeaders ch y db in
      let recLeaders := getSeasonReceivingLeaders ch y db in
      if (List.length rawGames =? 0)%nat then None
      else
        let games := rawGames in
        let regularGames := filter (game_type_is "regular") games in
        let playoffGames := filter (game_type_is "playoff") games in
        let preseasonGames := filter (game_type_is "preseason") games in
        Some {| sp_year := y;
                sp_wins := count_rows (filter (result_is "W") regularGames);
                sp_losses := count_rows (filter (result_is "L") regularGames);
                sp_ties := count_rows (filter (result_is "T") regularGames);
                sp_team_stats := hd_error teamStatsArr;
                sp_regular := regularGames;
                sp_playoff := playoffGames;
                sp_preseason := preseasonGames;
                sp_pass_leaders := passLeaders;
                sp_rush_leaders := rushLeaders;
                sp_rec_leaders := recLeaders |}
  end.

(** A season of three regular-season games (a win, a loss, one not yet
    played) and a playoff win, and an older season of one tie. *)
Definition final_score (id : string) (season : Z) (type : string) (us them : Z)
  (result : string) : Game :=
  {| g_game_id := id; g_season := season; g_game_date := id;
     g_game_type := type; g_opponent := "ATL"; g_home_away := "home";
     g_saints_score := Some us; g_opponent_score := Some them;
     g_result := Some result |}.

Definition two_seasons : Database :=
  {| games := [final_score "2009-02" 2009 "regular" 10 17 "L";
               final_score "1971-01" 1971 "regular" 24 24 "T";
               final_score "2009-01" 2009 "regular" 45 27 "W";
               game "2009-03" 2009 "regular";
               final_score "2009-p1" 2009 "playoff" 31 17 "W"];
     players := [linked_player "P" "Pat"];
     player_passing := [passing "2009-01" "P" 358];
     player_rushing := []; player_receiving := [];
     player_defense := []; player_sacks := []; player_interceptions := [] |}.

(** The select list of the single-game leaderboards over one joined row. *)
Definition game_leader_row {S L : Type} (line : S -> L)
  (r : (S * Player) * Game) : GameLeader L :=
  {| gm_player_id := p_player_id (spg_p r);
     gm_player_name := p_player_name (spg_p r);
     gm_line := line (spg_stat r);
     gm_game_date := g_game_date (spg_g r);
     gm_opponent := g_opponent (spg_g r);
     gm_season := g_season (spg_g r) |}.

(** ** Games played by year *)

Definition sg_eqb (a b : Z * string) : bool :=
  (fst a =? fst b) && (snd a == snd b).

(** [SELECT g.season, t.game_id] over the joined rows of one table. *)
Definition season_games_of {S : Type} (game_id : S -> string)
  (rows : list (S * Game)) : list (Z * string) :=
  map (fun r => (g_season (snd r), game_id (fst r))) rows.

(** The six sub-selects of [getPlayerGamesPlayedByYear], joined by
    [UNION]. *)
Definition all_games (db : Database) (playerId : string) : list (Z * string) :=
  union sg_eqb
    (union sg_eqb
       (union sg_eqb
          (union sg_eqb
             (union sg_eqb
                (season_games_of pp_game_id
                   (stat_game_of pp_game_id pp_player_id (player_passing db)
                      db playerId))
                (season_games_of pr_game_id
                   (stat_game_of pr_game_id pr_player_id (player_rushing db)
                      db playerId)))
             (season_games_of rec_game_id
                (stat_game_of rec_game_id rec_player_id (player_receiving db)
                   db playerId)))
          (season_games_of pd_game_id (player_defense_games db playerId)))
       (season_games_of ps_game_id (player_sacks_games db playerId)))
    (season_games_of pi_game_id (player_interceptions_games db playerId)).

Record GamesPlayed := {
  gy_season : Z;
  gy_games : Z
}.

(** [getPlayerGamesPlayedByYear(playerId)]. *)
Definition getPlayerGamesPlayedByYear (db : Database) (playerId : string)
  : list GamesPlayed :=
  order_by (asc gy_season)
    (select_keyed
       (fun k g => {| gy_season := k; gy_games := count_distinct (map snd g) |})
       (group_by Z.eqb fst (all_games db playerId))).

(** ** The players directory *)

(** One of the three sub-selects of [getPlayersWithStats]:
    [SELECT player_id, SUM(yds), SUM(td), COUNT(DISTINCT game_id)
     FROM tbl GROUP BY player_id]. *)
Record StatSub := {
  sub_player_id : string;
  sub_yds : Z;
  sub_td : Z;
  sub_games : Z
}.

Definition stat_sub {S : Type} (player_id game_id : S -> string)
  (yds td : S -> Z) (tbl : list S) : list StatSub :=
  select_keyed
    (fun k g => {| sub_player_id := k;
                   sub_yds := sum_Z (map yds g);
                   sub_td := sum_Z (map td g);
                   sub_games := count_distinct (map game_id g) |})
    (group_by String.eqb player_id tbl).

Definition StatsJoin : Type :=
  ((Player * option StatSub) * option StatSub) * option StatSub.

Definition sj_p (r : StatsJoin) : Player := fst (fst (fst r)).
Definition sj_pass (r : StatsJoin) : option StatSub := snd (fst (fst r)).
Definition sj_rush (r : StatsJoin) : option StatSub := snd (fst r).
Definition sj_recv (r : StatsJoin) : option StatSub := snd r.

Definition players_stats_join (db : Database) : list StatsJoin :=
  left_join
    (left_join
       (left_join (players db)
          (stat_sub pp_player_id pp_game_id pp_yds pp_td (player_passing db))
          (fun p s => p_player_id p == sub_player_id s))
       (stat_sub pr_player_id pr_game_id pr_yds pr_td (player_rushing db))
       (fun l s => p_player_id (fst l) == sub_player_id s))
    (stat_sub rec_player_id rec_game_id rec_yds rec_td (player_receiving db))
    (fun l s => p_player_id (fst (fst l)) == sub_player_id s).

(** [COALESCE(pass.yds, 0) + COALESCE(rush.yds, 0) + COALESCE(recv.yds, 0)]. *)
Definition total_yds (r : StatsJoin) : Z :=
  coalesce (option_map sub_yds (sj_pass r)) 0
  + coalesce (option_map sub_yds (sj_rush r)) 0
  + coalesce (option_map sub_yds (sj_recv r)) 0.

Record PlayerWithStats := {
  pw_player_id : string;
  pw_player_name : string;
  pw_position : option string;
  pw_pass_yds : Z;
  pw_pass_td : Z;
  pw_rush_yds : Z;
  pw_rush_td : Z;
  pw_rec_yds : Z;
  pw_rec_td : Z;
  pw_stat_entries : Z
}.

Definition players_stats_select (r : StatsJoin) : PlayerWithStats :=
  {| pw_player_id := p_player_id (sj_p r);
     pw_player_name := p_player_name (sj_p r);
     pw_position := p_position (sj_p r);
     pw_pass_yds := coalesce (option_map sub_yds (sj_pass r)) 0;
     pw_pass_td := coalesce (option_map sub_td (sj_pass r)) 0;
     pw_rush_yds := coalesce (option_map sub_yds (sj_rush r)) 0;
     pw_rush_td := coalesce (option_map sub_td (sj_rush r)) 0;
     pw_rec_yds := coalesce (option_map sub_yds (sj_recv r)) 0;
     pw_rec_td := coalesce (option_map sub_td (sj_recv r)) 0;
     pw_stat_entries :=
       coalesce (option_map sub_games (sj_pass r)) 0
       + coalesce (option_map sub_games (sj_rush r)) 0
       + coalesce (option_map sub_games (sj_recv r)) 0 |}.

(** [OFFSET n]: a negative [n] counts as no offset. *)
Definition offset_rows {A : Type} (n : Z) (l : list A) : list A :=
  skipn (Z.to_nat n) l.

(** [getPlayersWithStats(limit = 100, offset = 0)]. *)
Definition getPlayersWithStats (limit offset : Z) (db : Database)
  : list PlayerWithStats :=
  Sql.limit limit
    (offset_rows offset
       (map players_stats_select
          (order_by (desc total_yds)
             (filter (fun r => (0 <? total_yds r) && recognized (sj_p r))
                (players_stats_join db))))).

(** What the rows of one table add up to for a player, over games of every
    type. *)
Definition passing_of (db : Database) (id : string) : list PassingStats :=
  filter (fun s => id == pp_player_id s) (player_passing db).

Definition rushing_of (db : Database) (id : string) : list RushingStats :=
  filter (fun s => id == pr_player_id s) (player_rushing db).

Definition receiving_of (db : Database) (id : string) : list ReceivingStats :=
  filter (fun s => id == rec_player_id s) (player_receiving db).

Definition directory_row (db : Database) (p : Player) : PlayerWithStats :=
  let id := p_player_id p in
  {| pw_player_id := id;
     pw_player_name := p_player_name p;
     pw_position := p_position p;
     pw_pass_yds := sum_Z (map pp_yds (passing_of db id));
     pw_pass_td := sum_Z (map pp_td (passing_of db id));
     pw_rush_yds := sum_Z (map pr_yds (rushing_of db id));
     pw_rush_td := sum_Z (map pr_td (rushing_of db id));
     pw_rec_yds := sum_Z (map rec_yds (receiving_of db id));
     pw_rec_td := sum_Z (map rec_td (receiving_of db id));
     pw_stat_entries :=
       count_distinct (map pp_game_id (passing_of db id))
       + count_distinct (map pr_game_id (rushing_of db id))
       + count_distinct (map rec_game_id (receiving_of db id)) |}.

Definition directory_yds (r : PlayerWithStats) : Z :=
  pw_pass_yds r + pw_rush_yds r + pw_rec_yds r.

(** The row of a sub-select that joins to player [id], if any, and the
    joined row of a player. *)
Definition stat_lookup {S : Type} (player_id game_id : S -> string)
  (yds td : S -> Z) (tbl : list S) (id : string) : option StatSub :=
  match filter (fun s => id == player_id s) tbl with
  | [] => None
  | g => Some {| sub_player_id := id;
                 sub_yds := sum_Z (map yds g);
                 sub_td := sum_Z (map td g);
                 sub_games := count_distinct (map game_id g) |}
  end.

Definition stats_join_of (db : Database) (p : Player) : StatsJoin :=
  (p,
   stat_lookup pp_player_id pp_game_id pp_yds pp_td (player_passing db)
     (p_player_id p),
   stat_lookup pr_player_id pr_game_id pr_yds pr_td (player_rushing db)
     (p_player_id p),
   stat_lookup rec_player_id rec_game_id rec_yds rec_td (player_receiving db)
     (p_player_id p)).


(** ** The draft *)

(** The table [draft_picks]. *)
Record DraftPick := {
  d_season : Z;
  d_round : Z;
  d_pick : Z;
  d_player_name : string;
  d_player_id : option string;
  d_position : option string;
  d_college : option string
}.

Record DraftSummary := {
  ds_season : Z;
  ds_picks : Z;
  ds_first_pick : Z;
  ds_first_player : option string
}.

(** [MIN] over the rows of a group, which is never empty. *)
Definition min_Z (l : list Z) : Z :=
  match l with
  | [] => 0
  | a :: t => fold_right Z.min a t
  end.

(** [(SELECT player_name FROM draft_picks d2 WHERE d2.season = d.season
      ORDER BY pick LIMIT 1)]. *)
Definition first_player (draft_picks : list DraftPick) (season : Z)
  : option string :=
  hd_error
    (map d_player_name
       (Sql.limit 1
          (order_by (asc d_pick)
             (filter (fun d2 => d_season d2 =? season) draft_picks)))).

(** [getDraftYears]. *)
Definition getDraftYears (draft_picks : list DraftPick) : list DraftSummary :=
  order_by (desc ds_season)
    (select_keyed
       (fun k g => {| ds_season := k;
                      ds_picks := count_rows g;
                      ds_first_pick := min_Z (map d_pick g);
                      ds_first_player := first_player draft_picks k |})
       (group_by Z.eqb d_season draft_picks)).

(** [LOWER(text)]: the letters [A]-[Z] to lower case. *)
Fixpoint lower (s : string) : string :=
  match s with
  | EmptyString => EmptyString
  | String c rest => String (fold_case c) (lower rest)
  end.

(** [(SELECT e FROM t WHERE c LIMIT 1)] without [ORDER BY]: one of the
    matching rows, whichever the engine reads, or NULL when there is
    none. *)
Definition any_row {A : Type} (ch : BareColumns) (rows : list A) : option A :=
  bare_row ch rows.

(** [COALESCE(a, b)] of two text values. *)
Definition or_else_text (a b : option string) : option string :=
  match a with
  | Some _ => a
  | None => b
  end.

(** The two sub-selects of [getDraftByYear] and their [COALESCE]. *)
Definition linked_by_id (ch : BareColumns) (db : Database) (d : DraftPick)
  : option string :=
  match d_player_id d with
  | Some id =>
      option_map p_player_id
        (any_row ch (filter (fun p => p_player_id p == id) (players db)))
  | None => None
  end.

Definition linked_by_name (ch : BareColumns) (db : Database) (d : DraftPick)
  : option string :=
  option_map p_player_id
    (any_row ch
       (filter (fun p => lower (p_player_name p) == lower (d_player_name d))
          (players db))).

Definition linked_player_id (ch : BareColumns) (db : Database) (d : DraftPick)
  : option string :=
  or_else_text (linked_by_id ch db d) (linked_by_name ch db d).

Record DraftRow := {
  dr_pick : DraftPick;
  dr_linked_player_id : option string
}.

(** [ORDER BY d.round, d.pick]. *)
Definition round_pick_leb (a b : DraftPick) : bool :=
  if d_round a =? d_round b then d_pick a <=? d_pick b
  else d_round a <? d_round b.

(** [getDraftByYear(year)]. *)
Definition getDraftByYear (ch : BareColumns) (draft_picks : list DraftPick)
  (year : Z) (db : Database) : list DraftRow :=
  map (fun d => {| dr_pick := d; dr_linked_player_id := linked_player_id ch db d |})
    (order_by round_pick_leb
       (filter (fun d => d_season d =? year) draft_picks)).

(** [getPlayerDraftInfo(playerId)]: [d.player_id = ? OR LOWER(d.player_name)
    = (SELECT LOWER(player_name) FROM players WHERE player_id = ?)], one
    row. *)
Definition text_is (a : option string) (b : string) : bool :=
  match a with
  | Some x => x == b
  | None => false
  end.

Definition lower_name_of (ch : BareColumns) (db : Database) (playerId : string)
  : option string :=
  option_map (fun p => lower (p_player_name p))
    (any_row ch (filter (fun p => p_player_id p == playerId) (players db))).

Definition drafted_as (ch : BareColumns) (db : Database) (playerId : string)
  (d : DraftPick) : bool :=
  text_is (d_player_id d) playerId
  || text_is (lower_name_of ch db playerId) (lower (d_player_name d)).

Definition getPlayerDraftInfo (ch : BareColumns) (draft_picks : list DraftPick)
  (db : Database) (playerId : string) : option DraftPick :=
  queryOne
    (match any_row ch (filter (drafted_as ch db playerId) draft_picks) with
     | Some d => [d]
     | None => []
     end).

(** ** The draft pages, [draft/page.tsx] and [draft/[year]/page.tsx] *)

(** A [Map] from round to picks, in insertion order of the keys. *)
Definition RoundMap : Type := list (Z * list DraftRow).

Fixpoint map_get (m : RoundMap) (k : Z) : option (list DraftRow) :=
  match m with
  | [] => None
  | (k', v) :: rest => if k' =? k then Some v else map_get rest k
  end.

Fixpoint map_set (m : RoundMap) (k : Z) (v : list DraftRow) : RoundMap :=
  match m with
  | [] => [(k, v)]
  | (k', v') :: rest =>
      if k' =? k then (k', v) :: rest else (k', v') :: map_set rest k v
  end.

(** The loop body: [const arr = rounds.get(pick.round) || [];
    arr.push(pick); rounds.set(pick.round, arr)]. *)
Definition add_pick (rounds : RoundMap) (pick : DraftRow) : RoundMap :=
  let round := d_round (dr_pick pick) in
  let arr := match map_get rounds round with
             | Some a => a
             | None => []
             end in
  map_set rounds round (arr ++ [pick]).

Definition group_by_round (picks : list DraftRow) : RoundMap :=
  fold_left add_pick picks [].

Record DraftPage := {
  dp_year : Z;
  dp_selections : Z;
  dp_rounds : RoundMap
}.

(** The rows of the table, as the nested [map] over [rounds.entries()]
    renders them. *)
Definition table_rows (page : DraftPage) : list DraftRow :=
  List.concat (map snd (dp_rounds page)).

(** [DraftYearPage], from the value of [parseInt(year, 10)] on; [None] is
    [notFound()]. *)
Definition DraftYearPage (ch : BareColumns) (draft_picks : list DraftPick)
  (yearNum : JsNumber) (db : Database) : option DraftPage :=
  match yearNum with
  | NaN => None
  | Num y =>
      let picks := getDraftByYear ch draft_picks y db in
      if (List.length picks =? 0)%nat then None
      else Some {| dp_year := y;
                   dp_selections := count_rows picks;
                   dp_rounds := group_by_round picks |}
  end.

(** The range the draft index shows:
    [drafts[drafts.length - 1]?.season] and [drafts[0]?.season]. *)
Definition draft_range (drafts : list DraftSummary) : option Z * option Z :=
  (option_map ds_season (nth_error drafts (List.length drafts - 1)),
   option_map ds_season (nth_error drafts 0)).

(** A round map as the loop builds it from picks ordered by round: the
    rounds ascend, no round is empty, and a round holds its own picks. *)
Definition well_grouped (m : RoundMap) : Prop :=
  StronglySorted Z.lt (map fst m)
  /\ Forall (fun kv => snd kv <> []
                       /\ Forall (fun r => d_round (dr_pick r) = fst kv) (snd kv))
       m.

(** [ORDER BY round, pick] as a relation on rows. *)
Definition round_pick_le (a b : DraftPick) : Prop :=
  d_round a < d_round b \/ (d_round a = d_round b /\ d_pick a <= d_pick b).

Definition drafted (season round pick : Z) (name : string)
  (id : option string) : DraftPick :=
  {| d_season := season; d_round := round; d_pick := pick;
     d_player_name := name; d_player_id := id;
     d_position := None; d_college := None |}.

(** Two drafts; the second pick of 2006 carries no player id and is linked
    by name. *)
Definition draft_example : list DraftPick :=
  [drafted 2006 2 43 "PAT" None;
   drafted 1981 1 1 "George" (Some "G");
   drafted 2006 1 2 "Reggie" (Some "R");
   drafted 2006 2 60 "Zach" None].

(** ** The box score, [games/[id]/page.tsx] *)

(** [getGameTeamStats(gameId)]. *)
Definition getGameTeamStats (team_game_stats : list TeamGameStats)
  (gameId : string) : list TeamGameStats :=
  filter (fun t => tg_game_id t == gameId) team_game_stats.

(** [text.includes(part)]. *)
Fixpoint starts_with (part text : string) : bool :=
  match part with
  | EmptyString => true
  | String c part' =>
      match text with
      | EmptyString => false
      | String d text' => Ascii.eqb c d && starts_with part' text'
      end
  end.

Fixpoint includes (text part : string) : bool :=
  starts_with part text
  || match text with
     | EmptyString => false
     | String _ text' => includes text' part
     end.

Definition isSaintsTeam (team : string) : bool :=
  includes team "Saints" || includes team "New Orleans".

(** [teamStats.find((t) => t.team.includes("Saints") ||
    t.team.includes("New Orleans"))]. *)
Definition saintsStats (teamStats : list TeamGameStats) : option TeamGameStats :=
  find (fun t => includes (tg_team t) "Saints"
                 || includes (tg_team t) "New Orleans") teamStats.

Definition team_line (gameId team : string) (points : Z) : TeamGameStats :=
  {| tg_game_id := gameId; tg_team := team;
     tg_rush_att := 25; tg_rush_yds := 100; tg_rush_td := 1;
     tg_pass_att := 30; tg_pass_com := 20; tg_pass_yds := 250;
     tg_pass_td := 2; tg_pass_int := 0; tg_total_points := points |}.

Definition box_scores : list TeamGameStats :=
  [team_line "2009-01" "Detroit LionsDET" 27;
   team_line "2009-01" "New Orleans SaintsNO" 45].

(** ** The game log and the season lines *)

(** The joined rows of season [y] whose game is a preseason game. *)
Definition preseason_of {S : Type} (y : Z) (rows : list (S * Game))
  : list (S * Game) :=
  filter (fun r => (g_season (snd r) =? y)
                   && (g_game_type (snd r) == "preseason")) rows.

(** The season line of season [y], if the player has one. *)
Definition season_line {T : Type} (y : Z) (seasons : list (PlayerSeason T))
  : list (PlayerSeason T) :=
  filter (fun s => py_season s =? y) seasons.

(** What the log and the season line both add up: the column of a row when
    it is the row of the player in game [g]. *)
Definition in_game {S : Type} (game_id player_id : S -> string) (col : S -> Z)
  (playerId : string) (g : Game) (s : S) : Z :=
  if (game_id s == g_game_id g) && (player_id s == playerId) then col s else 0.
(** * Properties *)

(** ** Facts about the relational operators *)

Module SqlFacts.

Lemma filter_flat_map {A B : Type} (P : B -> bool) (f : A -> list B) (l : list A) :
  filter P (flat_map f l) = flat_map (fun a => filter P (f a)) l.
Proof.
  induction l as [|a l IH]; simpl.
  - reflexivity.
  - rewrite filter_app, IH. reflexivity.
Qed.

Lemma filter_map_swap {A B : Type} (Q : B -> bool) (f : A -> B) (l : list A) :
  filter Q (map f l) = map f (filter (fun a => Q (f a)) l).
Proof.
  induction l as [|a l IH]; simpl.
  - reflexivity.
  - destruct (Q (f a)); simpl; rewrite IH; reflexivity.
Qed.

Lemma flat_map_singleton {A B : Type} (f : A -> B) (l : list A) :
  flat_map (fun a => [f a]) l = map f l.
Proof.
  induction l as [|a l IH]; simpl; [reflexivity | now rewrite IH].
Qed.

Lemma filter_none {A : Type} (P : A -> bool) (l : list A) :
  (forall a, In a l -> P a = false) -> filter P l = [].
Proof.
  induction l as [|a l IH]; intros H; simpl.
  - reflexivity.
  - rewrite (H a (or_introl eq_refl)). apply IH.
    intros b Hb. apply H. now right.
Qed.

Lemma filter_nil_iff {A : Type} (P : A -> bool) (l : list A) :
  filter P l = [] <-> forall a, In a l -> P a = false.
Proof.
  split.
  - intros E a Ha. destruct (P a) eqn:Pa; [|reflexivity].
    assert (In a (filter P l)) as Hin by (apply filter_In; split; assumption).
    rewrite E in Hin. destruct Hin.
  - apply filter_none.
Qed.

(** A predicate that singles out [k] selects, in a duplicate-free list,
    [k] alone. *)
Lemma filter_single {A : Type} (P : A -> bool) (k : A) (l : list A) :
  NoDup l -> (forall x, P x = true <-> x = k) -> In k l -> filter P l = [k].
Proof.
  intros ND HP. induction l as [|a l IH]; intros Hin; simpl.
  - destruct Hin.
  - inversion ND as [|? ? Hnot ND']; subst.
    destruct (P a) eqn:Pa.
    + apply HP in Pa. subst a. f_equal.
      apply filter_none. intros b Hb.
      destruct (P b) eqn:Pb; [|reflexivity].
      apply HP in Pb. subst b. contradiction.
    + destruct Hin as [E | Hin].
      * subst a. assert (P k = true) as Pk by now apply HP. congruence.
      * now apply IH.
Qed.

Lemma filter_absent {A : Type} (P : A -> bool) (k : A) (l : list A) :
  (forall x, P x = true <-> x = k) -> ~ In k l -> filter P l = [].
Proof.
  intros HP Hnot. apply filter_none. intros a Ha.
  destruct (P a) eqn:Pa; [|reflexivity].
  apply HP in Pa. subst a. contradiction.
Qed.

(** Joins whose right side matches at most one row. *)
Lemma left_join_lookup {A B : Type} (l : list A) (r : list B)
  (on : A -> B -> bool) (look : A -> option B) :
  (forall a, In a l ->
     filter (on a) r = match look a with Some b => [b] | None => [] end) ->
  left_join l r on = map (fun a => (a, look a)) l.
Proof.
  unfold left_join. induction l as [|a l IH]; intros H; simpl.
  - reflexivity.
  - rewrite (H a (or_introl eq_refl)), IH.
    + destruct (look a); reflexivity.
    + intros b Hb. apply H. now right.
Qed.

Lemma in_inner_join {A B : Type} (l : list A) (r : list B)
  (on : A -> B -> bool) (a : A) (b : B) :
  In (a, b) (inner_join l r on) <-> In a l /\ In b r /\ on a b = true.
Proof.
  unfold inner_join. rewrite in_flat_map. split.
  - intros [x [Hx Hin]]. apply in_map_iff in Hin.
    destruct Hin as [y [E Hy]]. inversion E; subst.
    apply filter_In in Hy. tauto.
  - intros [Ha [Hb Hon]]. exists a. split; [assumption|].
    apply in_map. apply filter_In. tauto.
Qed.

Section DistinctFacts.
Context {A : Type} (eqb : A -> A -> bool).
Hypothesis eqb_eq : forall a b, eqb a b = true <-> a = b.

Lemma distinct_In (l : list A) (x : A) : In x (distinct eqb l) <-> In x l.
Proof.
  induction l as [|a l IH]; simpl.
  - tauto.
  - rewrite filter_In, IH. split.
    + intros [E | [H _]]; tauto.
    + intros [E | H]; [now left|].
      destruct (eqb a x) eqn:Eax.
      * left. now apply eqb_eq.
      * right. split; [assumption | reflexivity].
Qed.

Lemma distinct_NoDup (l : list A) : NoDup (distinct eqb l).
Proof.
  induction l as [|a l IH]; simpl.
  - constructor.
  - constructor.
    + rewrite filter_In. intros [_ H].
      assert (eqb a a = true) as E by now apply eqb_eq.
      rewrite E in H. discriminate.
    + now apply NoDup_filter.
Qed.

Lemma union_In (l r : list A) (x : A) :
  In x (union eqb l r) <-> In x l \/ In x r.
Proof.
  unfold union. rewrite distinct_In. apply in_app_iff.
Qed.

Lemma union_NoDup (l r : list A) : NoDup (union eqb l r).
Proof. apply distinct_NoDup. Qed.

(** Two lists with the same members have as many distinct members. *)
Lemma distinct_length_same (l l' : list A) :
  (forall x, In x l <-> In x l') ->
  List.length (distinct eqb l) = List.length (distinct eqb l').
Proof.
  intros H. apply Nat.le_antisymm; apply NoDup_incl_length;
    try apply distinct_NoDup; intros x Hx;
    rewrite distinct_In in Hx |- *; apply H; exact Hx.
Qed.

Section GroupFacts.
Context {R : Type} (key : R -> A).

Lemma in_group_by (l : list R) (k : A) (g : list R) :
  In (k, g) (group_by eqb key l) <->
  In k (map key l) /\ g = filter (fun a => eqb k (key a)) l.
Proof.
  unfold group_by. rewrite in_map_iff. split.
  - intros [k' [E Hk]]. inversion E; subst.
    rewrite distinct_In in Hk. split; [exact Hk | reflexivity].
  - intros [Hk ->]. exists k. split; [reflexivity|].
    rewrite distinct_In. exact Hk.
Qed.

Lemma group_by_keys (l : list R) :
  map fst (group_by eqb key l) = distinct eqb (map key l).
Proof.
  unfold group_by. rewrite map_map. simpl. apply map_id.
Qed.

Lemma group_nonempty (l : list R) (k : A) :
  In k (map key l) <-> filter (fun a => eqb k (key a)) l <> [].
Proof.
  split.
  - intros Hk E. apply in_map_iff in Hk. destruct Hk as [a [Ea Ha]].
    rewrite filter_nil_iff in E. specialize (E a Ha).
    assert (eqb k (key a) = true) as T by (apply eqb_eq; congruence).
    congruence.
  - intros Hne. destruct (filter (fun a => eqb k (key a)) l) as [|a t] eqn:E.
    + contradiction.
    + assert (In a (filter (fun a => eqb k (key a)) l)) as Hin
        by (rewrite E; now left).
      apply filter_In in Hin. destruct Hin as [Ha Hk].
      apply eqb_eq in Hk. subst k. now apply in_map.
Qed.

(** The groups selected by a predicate that singles out the key [k]: the
    group of [k] when some row carries [k], none otherwise. *)
Lemma group_by_lookup (P : A -> bool) (k : A) (l : list R) :
  (forall x, P x = true <-> x = k) ->
  filter (fun kg => P (fst kg)) (group_by eqb key l) =
  match filter (fun a => eqb k (key a)) l with
  | [] => []
  | g => [(k, g)]
  end.
Proof.
  intros HP. unfold group_by.
  rewrite filter_map_swap. simpl.
  destruct (filter (fun a => eqb k (key a)) l) as [|a t] eqn:E.
  - rewrite (filter_absent P k); [reflexivity | assumption |].
    rewrite distinct_In, group_nonempty. now rewrite E.
  - rewrite (filter_single P k).
    + simpl. now rewrite E.
    + apply distinct_NoDup.
    + assumption.
    + rewrite distinct_In, group_nonempty. rewrite E. discriminate.
Qed.
End GroupFacts.
End DistinctFacts.

Lemma bare_row_single {A : Type} (ch : BareColumns) (a : A) :
  bare_row ch [a] = Some a.
Proof.
  simpl. destruct (choose_In ch A a []) as [E | []]. now rewrite <- E.
Qed.

Lemma bare_row_In {A : Type} (ch : BareColumns) (g : list A) (a : A) :
  bare_row ch g = Some a -> In a g.
Proof.
  destruct g as [|b t]; simpl; intros E; inversion E; subst.
  apply choose_In.
Qed.

Section OrderFacts.
Context {A : Type} (le : A -> A -> bool).

Lemma insert_by_perm (a : A) (l : list A) : Permutation (insert_by le a l) (a :: l).
Proof.
  induction l as [|b t IH]; simpl.
  - apply Permutation_refl.
  - destruct (le a b).
    + apply Permutation_refl.
    + eapply Permutation_trans; [apply perm_skip, IH | apply perm_swap].
Qed.

Lemma order_by_perm (l : list A) : Permutation (order_by le l) l.
Proof.
  induction l as [|a t IH]; simpl.
  - apply Permutation_refl.
  - eapply Permutation_trans; [apply insert_by_perm | now apply perm_skip].
Qed.

Lemma order_by_In (l : list A) (x : A) : In x (order_by le l) <-> In x l.
Proof.
  split; apply Permutation_in;
    [apply order_by_perm | apply Permutation_sym, order_by_perm].
Qed.
End OrderFacts.

Lemma perm_filter {A : Type} (P : A -> bool) (l l' : list A) :
  Permutation l l' -> Permutation (filter P l) (filter P l').
Proof.
  induction 1 as [| x l l' _ IH | x y l | l l' l'' _ IH1 _ IH2]; simpl.
  - constructor.
  - destruct (P x); [now apply perm_skip | assumption].
  - destruct (P x), (P y); try apply Permutation_refl. apply perm_swap.
  - eapply Permutation_trans; eassumption.
Qed.

(** Sorting does not change which rows a predicate selects when it selects
    exactly one. *)
Lemma filter_order_by_single {A : Type} (le : A -> A -> bool) (P : A -> bool)
  (l : list A) (r : A) :
  filter P l = [r] -> filter P (order_by le l) = [r].
Proof.
  intros E.
  assert (Permutation [r] (filter P (order_by le l))) as H.
  { rewrite <- E. apply perm_filter, Permutation_sym, order_by_perm. }
  now apply Permutation_length_1_inv in H.
Qed.

Lemma limit_In {A : Type} (n : Z) (l : list A) (x : A) :
  In x (limit n l) -> In x l.
Proof.
  unfold limit. destruct (n <? 0); [tauto|].
  intros H. rewrite <- (firstn_skipn (Z.to_nat n) l).
  apply in_or_app. now left.
Qed.

Lemma limit_all {A : Type} (n : Z) (l : list A) :
  n < 0 \/ Z.of_nat (List.length l) <= n -> limit n l = l.
Proof.
  unfold limit. intros H. destruct (n <? 0) eqn:E; [reflexivity|].
  apply Z.ltb_ge in E. apply firstn_all2. lia.
Qed.

Lemma sum_Z_app (l l' : list Z) : sum_Z (l ++ l') = sum_Z l + sum_Z l'.
Proof.
  unfold sum_Z. induction l as [|a t IH]; simpl; [reflexivity | lia].
Qed.

Lemma count_distinct_nonneg (l : list string) : 0 <= count_distinct l.
Proof. unfold count_distinct. lia. Qed.

Lemma opt_min_None_r (a : option Z) : opt_min a None = a.
Proof. destruct a; reflexivity. Qed.

Lemma opt_max_None_r (a : option Z) : opt_max a None = a.
Proof. destruct a; reflexivity. Qed.

End SqlFacts.

Import SqlFacts.

(** More on single matches. *)
Lemma filter_and {A : Type} (f g : A -> bool) (l : list A) :
  filter f (filter g l) = filter (fun x => g x && f x) l.
Proof.
  induction l as [|a l IH]; simpl.
  - reflexivity.
  - destruct (g a); simpl; [destruct (f a)|]; rewrite IH; reflexivity.
Qed.

Lemma flat_map_none {A B : Type} (h : A -> list B) (l : list A) :
  (forall y, In y l -> h y = []) -> flat_map h l = [].
Proof.
  induction l as [|a l IH]; intros H; simpl.
  - reflexivity.
  - rewrite (H a (or_introl eq_refl)). apply IH.
    intros y Hy. apply H. now right.
Qed.

Lemma flat_map_single {A B : Type} (h : A -> list B) (l : list A) (x : A) :
  NoDup l -> In x l -> (forall y, In y l -> y <> x -> h y = []) ->
  flat_map h l = h x.
Proof.
  induction l as [|a l IH]; intros ND Hin Hother.
  - destruct Hin.
  - inversion ND as [|? ? Hnot ND']; subst. simpl.
    destruct Hin as [E | Hin].
    + subst a.
      replace (flat_map h l) with (@nil B); [apply app_nil_r|].
      symmetry. apply flat_map_none.
      intros y Hy. apply Hother; [now right | intros ->; contradiction].
    + rewrite (Hother a); [| now left | intros ->; contradiction].
      simpl. apply IH; [assumption | assumption |].
      intros y Hy. apply Hother. now right.
Qed.

(** In a table whose key column holds no duplicate, the rows carrying the
    key of [p] are [p] alone. *)
Lemma filter_key_single {A : Type} (key : A -> string) (l : list A) (p : A) :
  NoDup (map key l) -> In p l ->
  filter (fun q => key p == key q) l = [p].
Proof.
  induction l as [|a l IH]; intros ND Hin; simpl in *.
  - destruct Hin.
  - inversion ND as [|? ? Hnot ND']; subst.
    destruct Hin as [E | Hin].
    + subst a. rewrite String.eqb_refl. f_equal.
      apply filter_none. intros b Hb.
      apply String.eqb_neq. intros E. apply Hnot. rewrite E. now apply in_map.
    + destruct (key p == key a) eqn:E.
      * apply String.eqb_eq in E. exfalso. apply Hnot. rewrite <- E.
        now apply in_map.
      * now apply IH.
Qed.

(** The row a keyed sub-select holds for [X]. *)
Lemma select_keyed_lookup {R D : Type} (key : R -> string)
  (mk : string -> list R -> D) (kd : D -> string) (l : list R) (X : string) :
  (forall k g, kd (mk k g) = k) ->
  filter (fun d => kd d == X) (select_keyed mk (group_by String.eqb key l)) =
  match filter (fun a => X == key a) l with
  | [] => []
  | g => [mk X g]
  end.
Proof.
  intros Hkd. unfold select_keyed.
  rewrite filter_map_swap.
  rewrite (filter_ext _ (fun kg => (fun k => k == X) (fst kg)))
    by (intros [k g]; simpl; now rewrite Hkd).
  rewrite (group_by_lookup String.eqb String.eqb_eq key (fun k => k == X) X)
    by (intro x; apply String.eqb_eq).
  destruct (filter (fun a => X == key a) l); reflexivity.
Qed.

Lemma sum_Z_nonneg (l : list Z) : (forall x, In x l -> 0 <= x) -> 0 <= sum_Z l.
Proof.
  induction l as [|a t IH]; intros H; simpl.
  - lia.
  - assert (0 <= a) by (apply H; now left).
    assert (0 <= sum_Z t) by (apply IH; intros x Hx; apply H; now right).
    unfold sum_Z in *. lia.
Qed.

Lemma sum_Z_pos (l : list Z) (x : Z) :
  (forall y, In y l -> 0 <= y) -> In x l -> 0 < x -> 0 < sum_Z l.
Proof.
  induction l as [|a t IH]; intros H Hin Hx.
  - destruct Hin.
  - assert (0 <= a) by (apply H; now left).
    assert (0 <= sum_Z t) by (apply sum_Z_nonneg; intros y Hy; apply H; now right).
    simpl. destruct Hin as [E | Hin].
    + subst a. unfold sum_Z in *. lia.
    + assert (0 < sum_Z t) by (apply IH; auto; intros y Hy; apply H; now right).
      unfold sum_Z in *. lia.
Qed.

Lemma select_keyed_lookup_by {K R D : Type} (eqb : K -> K -> bool)
  (eqb_eq : forall a b, eqb a b = true <-> a = b)
  (key : R -> K) (mk : K -> list R -> D) (kd : D -> K) (P : K -> bool)
  (l : list R) (k : K) :
  (forall k g, kd (mk k g) = k) ->
  (forall x, P x = true <-> x = k) ->
  filter (fun d => P (kd d)) (select_keyed mk (group_by eqb key l)) =
  match filter (fun a => eqb k (key a)) l with
  | [] => []
  | g => [mk k g]
  end.
Proof.
  intros Hkd HP. unfold select_keyed.
  rewrite filter_map_swap.
  rewrite (filter_ext _ (fun kg => P (fst kg)))
    by (intros [k' g]; simpl; now rewrite Hkd).
  rewrite (group_by_lookup eqb eqb_eq key P k) by assumption.
  destruct (filter (fun a => eqb k (key a)) l); reflexivity.
Qed.

Lemma select_keyed_keys {K R D : Type} (mk : K -> list R -> D) (kd : D -> K)
  (groups : list (K * list R)) :
  (forall k g, kd (mk k g) = k) ->
  map kd (select_keyed mk groups) = map fst groups.
Proof.
  intros Hkd. unfold select_keyed. rewrite map_map.
  apply map_ext. intros [k g]. apply Hkd.
Qed.

Lemma Z_eqb_single (k x : Z) : (k =? x) = true <-> x = k.
Proof. rewrite Z.eqb_eq. split; congruence. Qed.

(** Under a key, a condition that fixes the key matches at most one row. *)
Lemma filter_at_most_one {A K : Type} (key : A -> K) (k : K) (f : A -> bool)
  (l : list A) :
  NoDup (map key l) ->
  (forall a, In a l -> f a = true -> key a = k) ->
  filter f l = match find f l with Some b => [b] | None => [] end.
Proof.
  induction l as [|a t IH]; intros ND Hk; simpl.
  - reflexivity.
  - inversion ND as [|? ? Hnot ND']; subst.
    destruct (f a) eqn:Fa.
    + f_equal. apply filter_none. intros b Hb.
      destruct (f b) eqn:Fb; [|reflexivity].
      exfalso. apply Hnot.
      rewrite (Hk a (or_introl eq_refl) Fa).
      rewrite <- (Hk b (or_intror Hb) Fb). now apply in_map.
    + apply IH; [assumption|]. intros b Hb. apply Hk. now right.
Qed.

Lemma NoDup_map_filter {A K : Type} (key : A -> K) (P : A -> bool) (l : list A) :
  NoDup (map key l) -> NoDup (map key (filter P l)).
Proof.
  induction l as [|a t IH]; intros ND; simpl.
  - constructor.
  - inversion ND as [|? ? Hnot ND']; subst.
    destruct (P a); simpl; [|now apply IH].
    constructor; [|now apply IH].
    intros H. apply Hnot. apply in_map_iff in H.
    destruct H as [b [E Hb]]. apply filter_In in Hb.
    rewrite <- E. apply in_map. tauto.
Qed.

Lemma NoDup_map_inj {A K : Type} (key : A -> K) (l : list A) (a b : A) :
  NoDup (map key l) -> In a l -> In b l -> key a = key b -> a = b.
Proof.
  induction l as [|c t IH]; intros ND Ha Hb E.
  - destruct Ha.
  - inversion ND as [|? ? Hnot ND']; subst.
    destruct Ha as [-> | Ha]; destruct Hb as [-> | Hb].
    + reflexivity.
    + exfalso. apply Hnot. rewrite E. now apply in_map.
    + exfalso. apply Hnot. rewrite <- E. now apply in_map.
    + now apply IH.
Qed.

Lemma is_some_find {A : Type} (f : A -> bool) (l : list A) :
  is_some (find f l) = existsb f l.
Proof.
  induction l as [|a t IH]; simpl; [reflexivity|].
  destruct (f a); [reflexivity | exact IH].
Qed.

(** ** Order, cut and partition *)

Module OrderFacts.

Section SortedFacts.
Context {A : Type} (le : A -> A -> bool).
Hypothesis le_total : forall a b, le a b = true \/ le b a = true.
Hypothesis le_trans :
  forall a b c, le a b = true -> le b c = true -> le a c = true.

Lemma insert_by_Forall (P : A -> Prop) (a : A) (l : list A) :
  P a -> Forall P l -> Forall P (insert_by le a l).
Proof.
  intros Pa Hl. induction Hl as [|b t Pb Ht IH]; simpl.
  - constructor; [assumption | constructor].
  - destruct (le a b).
    + constructor; [assumption|]. constructor; assumption.
    + constructor; assumption.
Qed.

Lemma insert_by_sorted (a : A) (l : list A) :
  StronglySorted (fun x y => le x y = true) l ->
  StronglySorted (fun x y => le x y = true) (insert_by le a l).
Proof.
  induction 1 as [|b t Ht IH Hb]; simpl.
  - constructor; constructor.
  - destruct (le a b) eqn:E.
    + constructor; [constructor; assumption|].
      constructor; [exact E|].
      eapply Forall_impl; [|exact Hb].
      intros c Hc. cbn beta in *. eapply le_trans; eassumption.
    + constructor; [exact IH|].
      apply insert_by_Forall; [|exact Hb].
      destruct (le_total a b) as [H | H]; [congruence | exact H].
Qed.

(** [ORDER BY] sorts. *)
Lemma order_by_sorted (l : list A) :
  StronglySorted (fun x y => le x y = true) (order_by le l).
Proof.
  induction l as [|a t IH]; simpl.
  - constructor.
  - now apply insert_by_sorted.
Qed.
End SortedFacts.

Lemma sorted_app_inv {A : Type} (R : A -> A -> Prop) (l1 l2 : list A) :
  StronglySorted R (l1 ++ l2) ->
  forall x y, In x l1 -> In y l2 -> R x y.
Proof.
  induction l1 as [|a t IH]; intros H x y Hx Hy.
  - destruct Hx.
  - simpl in H. apply StronglySorted_inv in H. destruct H as [Ht Ha].
    destruct Hx as [<- | Hx].
    + rewrite Forall_forall in Ha. apply Ha. apply in_or_app. now right.
    + now apply IH.
Qed.

Lemma sorted_app_l {A : Type} (R : A -> A -> Prop) (l1 l2 : list A) :
  StronglySorted R (l1 ++ l2) -> StronglySorted R l1.
Proof.
  induction l1 as [|a t IH]; intros H.
  - constructor.
  - simpl in H. apply StronglySorted_inv in H. destruct H as [Ht Ha].
    constructor; [now apply IH|].
    rewrite Forall_forall in *. intros x Hx. apply Ha.
    apply in_or_app. now left.
Qed.

Lemma sorted_impl {A : Type} (R R' : A -> A -> Prop) (l : list A) :
  (forall a b, R a b -> R' a b) -> StronglySorted R l -> StronglySorted R' l.
Proof.
  intros H. induction 1 as [|a t St IH Ha]; constructor; [exact IH|].
  eapply Forall_impl; [|exact Ha]. intros b. apply H.
Qed.

Lemma sorted_map {A B : Type} (R : B -> B -> Prop) (f : A -> B) (l : list A) :
  StronglySorted (fun a b => R (f a) (f b)) l -> StronglySorted R (map f l).
Proof.
  induction 1 as [|a t Ht IH Ha]; simpl; constructor.
  - exact IH.
  - rewrite Forall_forall in *. intros y Hy.
    apply in_map_iff in Hy. destruct Hy as [x [<- Hx]]. now apply Ha.
Qed.

(** [LIMIT] keeps a prefix and [dropped] is the rest. *)
Lemma limit_dropped {A : Type} (n : Z) (l : list A) :
  limit n l ++ dropped n l = l.
Proof.
  unfold limit, dropped. destruct (n <? 0).
  - apply app_nil_r.
  - apply firstn_skipn.
Qed.

Lemma limit_length {A : Type} (n : Z) (l : list A) :
  0 <= n -> Z.of_nat (List.length (limit n l)) <= n.
Proof.
  intros Hn. unfold limit. destruct (n <? 0) eqn:E.
  - apply Z.ltb_lt in E. lia.
  - rewrite length_firstn. lia.
Qed.

Lemma limit_sorted {A : Type} (R : A -> A -> Prop) (n : Z) (l : list A) :
  StronglySorted R l -> StronglySorted R (limit n l).
Proof.
  intros H. apply (sorted_app_l R _ (dropped n l)). now rewrite limit_dropped.
Qed.

(** What the cut leaves out does not rank before what it keeps. *)
Lemma limit_keeps_the_first {A : Type} (R : A -> A -> Prop) (n : Z) (l : list A) :
  StronglySorted R l ->
  forall x y, In x (limit n l) -> In y (dropped n l) -> R x y.
Proof.
  intros H. apply sorted_app_inv. now rewrite limit_dropped.
Qed.

Lemma desc_total {A : Type} (f : A -> Z) (a b : A) :
  desc f a b = true \/ desc f b a = true.
Proof. unfold desc. rewrite !Z.leb_le. lia. Qed.

Lemma desc_trans {A : Type} (f : A -> Z) (a b c : A) :
  desc f a b = true -> desc f b c = true -> desc f a c = true.
Proof. unfold desc. rewrite !Z.leb_le. lia. Qed.

Lemma asc_total {A : Type} (f : A -> Z) (a b : A) :
  asc f a b = true \/ asc f b a = true.
Proof. unfold asc. rewrite !Z.leb_le. lia. Qed.

Lemma asc_trans {A : Type} (f : A -> Z) (a b c : A) :
  asc f a b = true -> asc f b c = true -> asc f a c = true.
Proof. unfold asc. rewrite !Z.leb_le. lia. Qed.

Lemma order_by_desc_sorted {A : Type} (f : A -> Z) (l : list A) :
  StronglySorted (fun a b => f b <= f a) (order_by (desc f) l).
Proof.
  pose proof (order_by_sorted (desc f) (desc_total f) (desc_trans f) l) as H.
  induction H as [|a t Ht IH Ha]; constructor; [exact IH|].
  eapply Forall_impl; [|exact Ha].
  intros b Hb. unfold desc in Hb. now apply Z.leb_le.
Qed.

Lemma order_by_asc_sorted {A : Type} (f : A -> Z) (l : list A) :
  StronglySorted (fun a b => f a <= f b) (order_by (asc f) l).
Proof.
  pose proof (order_by_sorted (asc f) (asc_total f) (asc_trans f) l) as H.
  induction H as [|a t Ht IH Ha]; constructor; [exact IH|].
  eapply Forall_impl; [|exact Ha].
  intros b Hb. unfold asc in Hb. now apply Z.leb_le.
Qed.

(** Rows sorted on a key that no two of them share are strictly sorted. *)
Lemma sorted_NoDup_strict {A K : Type} (key : A -> K) (R R' : A -> A -> Prop)
  (l : list A) :
  (forall a b, R a b -> key a <> key b -> R' a b) ->
  NoDup (map key l) -> StronglySorted R l -> StronglySorted R' l.
Proof.
  intros H ND S. induction S as [|a t St IH Ha]; constructor.
  - apply IH. now inversion ND.
  - cbn [map] in ND. inversion ND as [|? ? Hnot _]; subst.
    rewrite Forall_forall in *. intros x Hx. apply H; [now apply Ha|].
    intros E. apply Hnot. rewrite E. now apply in_map.
Qed.

(** Rows selected per group: one per group, carrying the key of its
    group. *)
Lemma select_groups_keys {A K D : Type} (ch : BareColumns)
  (mk : K -> A -> list A -> D) (kd : D -> K) (groups : list (K * list A)) :
  (forall k g, In (k, g) groups -> g <> []) ->
  (forall k g a, In (k, g) groups -> In a g -> kd (mk k a g) = k) ->
  map kd (select_groups ch mk groups) = map fst groups.
Proof.
  unfold select_groups.
  induction groups as [|[k g] t IH]; intros Hne Hkd; simpl.
  - reflexivity.
  - destruct (bare_row ch g) as [a|] eqn:B.
    + simpl. f_equal.
      * apply (Hkd k g a); [now left | now apply (bare_row_In ch)].
      * apply IH; intros; [eapply Hne | eapply Hkd]; try right; eassumption.
    + destruct g; [|discriminate]. exfalso. now apply (Hne k []); [left|].
Qed.

Lemma in_select_groups {A K D : Type} (ch : BareColumns)
  (mk : K -> A -> list A -> D) (groups : list (K * list A)) (d : D) :
  In d (select_groups ch mk groups) ->
  exists k g a, In (k, g) groups /\ In a g /\ d = mk k a g.
Proof.
  unfold select_groups. rewrite in_flat_map.
  intros [[k g] [Hg Hd]]. cbn [fst snd] in Hd.
  destruct (bare_row ch g) as [a|] eqn:B; [|destruct Hd].
  destruct Hd as [<- | []]. exists k, g, a.
  repeat split; [assumption | now apply (bare_row_In ch)].
Qed.

Lemma pair_eqb_eq (a b : string * Z) : pair_eqb a b = true <-> a = b.
Proof.
  destruct a as [a1 a2], b as [b1 b2]. unfold pair_eqb. cbn [fst snd].
  rewrite andb_true_iff, String.eqb_eq, Z.eqb_eq.
  split; [intros [-> ->]; reflexivity | intros E; inversion E; tauto].
Qed.

End OrderFacts.

Import OrderFacts.

Lemma NoDup_limit {A : Type} (n : Z) (l : list A) : NoDup l -> NoDup (limit n l).
Proof.
  intros H. rewrite <- (limit_dropped n l) in H.
  now apply NoDup_app_remove_r in H.
Qed.

Lemma map_limit {A B : Type} (f : A -> B) (n : Z) (l : list A) :
  map f (limit n l) = limit n (map f l).
Proof.
  unfold limit. destruct (n <? 0); [reflexivity|]. symmetry. apply firstn_map.
Qed.

Lemma limit_not_cut {A : Type} (n : Z) (l : list A) :
  n < 0 \/ Z.of_nat (List.length (limit n l)) < n -> limit n l = l.
Proof.
  intros H. apply limit_all. destruct H as [H | H]; [now left|].
  unfold limit in H. destruct (n <? 0) eqn:E; [apply Z.ltb_lt in E; now left|].
  right. rewrite length_firstn in H. lia.
Qed.


(** ** Career defense of one player *)

Section CareerDefense.
Variable ch : BareColumns.
Variable db : Database.
Variable playerId : string.

Lemma career_defense_join_single :
  career_defense_join db playerId =
  [ (tt, Some (career_def_sub db playerId), Some (career_sack_sub db playerId),
     Some (career_int_sub db playerId)) ].
Proof. reflexivity. Qed.

(** The row [getPlayerCareerDefense] returns, column by column. *)
Lemma getPlayerCareerDefense_row :
  getPlayerCareerDefense ch db playerId =
  Some {| cd_tkl := coalesce (def_tkl (career_def_sub db playerId)) 0;
          cd_tfl := coalesce (def_tfl (career_def_sub db playerId)) 0;
          cd_qh := coalesce (def_qh (career_def_sub db playerId)) 0;
          cd_pd_count := coalesce (def_pd_count (career_def_sub db playerId)) 0;
          cd_ff := coalesce (def_ff (career_def_sub db playerId)) 0;
          cd_sacks := coalesce (sk_sacks (career_sack_sub db playerId)) 0;
          cd_int_count := coalesce (it_int_count (career_int_sub db playerId)) 0;
          cd_int_yds := coalesce (it_int_yds (career_int_sub db playerId)) 0;
          cd_int_td := coalesce (it_int_td (career_int_sub db playerId)) 0;
          cd_games := def_games (career_def_sub db playerId)
                      + sk_games (career_sack_sub db playerId)
                      + it_games (career_int_sub db playerId);
          cd_first_season :=
            or_else (def_first_season (career_def_sub db playerId))
              (or_else (sk_first_season (career_sack_sub db playerId))
                 (it_first_season (career_int_sub db playerId)));
          cd_last_season :=
            or_else (def_last_season (career_def_sub db playerId))
              (or_else (sk_last_season (career_sack_sub db playerId))
                 (it_last_season (career_int_sub db playerId))) |}.
Proof.
  unfold getPlayerCareerDefense, career_defense_select.
  rewrite career_defense_join_single, bare_row_single.
  unfold queryOne, hd_error. f_equal.
  unfold sql_min, sql_max; simpl.
  rewrite opt_min_None_r, opt_max_None_r. reflexivity.
Qed.

(** Whenever the player has a tackle row, [first_season] and [last_season]
    are the bounds of the tackle seasons alone: the seasons of the sack and
    interception rows are not consulted. *)
Lemma career_defense_seasons_from_tackles (r : CareerDefense) (s : Z) :
  getPlayerCareerDefense ch db playerId = Some r ->
  def_first_season (career_def_sub db playerId) = Some s ->
  cd_first_season r = Some s.
Proof.
  rewrite getPlayerCareerDefense_row. intros E H.
  injection E as <-. cbn [cd_first_season].
  cbn [def_first_season career_def_sub] in H. rewrite H. reflexivity.
Qed.
End CareerDefense.

(** C1 (defect). On the specification's own example, tackles in 2001 and
    an interception in 1999, the career row reports [first_season = 2001]:
    [COALESCE(def.first_season, sk.first_season, it.first_season)] takes the
    tackle table's first season because it is not NULL, and [MIN] then
    ranges over that single value.  The minimum across the sources, 1999, is
    not what is returned. *)
Theorem career_defense_example_first_season (ch : BareColumns) :
  getPlayerCareerDefense ch tackles_2001_interception_1999 "P" =
  Some {| cd_tkl := 5; cd_tfl := 0; cd_qh := 0; cd_pd_count := 0; cd_ff := 0;
          cd_sacks := 0; cd_int_count := 1; cd_int_yds := 0; cd_int_td := 0;
          cd_games := 2;
          cd_first_season := Some 2001;
          cd_last_season := Some 2001 |}.
Proof.
  rewrite getPlayerCareerDefense_row. vm_compute. reflexivity.
Qed.

(** ** The career-defense leaderboard *)

Section CareerLeaders.
Variable db : Database.

Lemma def_sub_lookup (X : string) :
  filter (fun d => dl_player_id d == X) (def_leader_sub db) =
  match def_lookup db X with Some b => [b] | None => [] end.
Proof.
  unfold def_leader_sub, def_lookup, regular_tackles_of.
  rewrite (select_keyed_lookup _ def_leader_select dl_player_id) by reflexivity.
  destruct (filter _ (regular_defense db)); reflexivity.
Qed.

Lemma sack_sub_lookup (X : string) :
  filter (fun s => sl_player_id s == X) (sack_leader_sub db) =
  match sack_lookup db X with Some b => [b] | None => [] end.
Proof.
  unfold sack_leader_sub, sack_lookup, regular_sacks_of.
  rewrite (select_keyed_lookup _ sack_leader_select sl_player_id) by reflexivity.
  destruct (filter _ (regular_sacks db)); reflexivity.
Qed.

Lemma int_sub_lookup (X : string) :
  filter (fun i => il_player_id i == X) (int_leader_sub db) =
  match int_lookup db X with Some b => [b] | None => [] end.
Proof.
  unfold int_leader_sub, int_lookup, regular_interceptions_of.
  rewrite (select_keyed_lookup _ int_leader_select il_player_id) by reflexivity.
  destruct (filter _ (regular_interceptions db)); reflexivity.
Qed.

(** Every aggregate is left-joined onto the universe: each (identity,
    player) pair of the universe yields one joined row, whatever the
    sub-selects hold. *)
Lemma career_leader_join_eq :
  career_leader_join db =
  map (career_join_of db)
    (inner_join (all_def db) (players db) (fun id p => id == p_player_id p)).
Proof.
  unfold career_leader_join.
  rewrite (left_join_lookup _ (def_leader_sub db) _
             (fun l => def_lookup db (fst l)))
    by (intros a _; apply def_sub_lookup).
  rewrite (left_join_lookup _ (sack_leader_sub db) _
             (fun l => sack_lookup db (fst (fst l))))
    by (intros a _; apply sack_sub_lookup).
  rewrite (left_join_lookup _ (int_leader_sub db) _
             (fun l => int_lookup db (fst (fst (fst l)))))
    by (intros a _; apply int_sub_lookup).
  rewrite !map_map. reflexivity.
Qed.

Lemma career_select_join_of (p : Player) :
  career_leader_select (career_join_of db (p_player_id p, p)) =
  career_leader_row db p.
Proof.
  unfold career_leader_select, career_join_of, career_leader_row,
    clj_p, clj_def, clj_sk, clj_it, def_lookup, sack_lookup, int_lookup,
    regular_sack_total, regular_interception_total.
  cbn [fst snd].
  destruct (regular_tackles_of db (p_player_id p));
    destruct (regular_sacks_of db (p_player_id p));
    destruct (regular_interceptions_of db (p_player_id p)); reflexivity.
Qed.

Lemma career_universe_eq :
  career_defense_universe db =
  map (fun l => career_leader_select (career_join_of db l))
    (filter (fun l => recognized (snd l))
       (inner_join (all_def db) (players db) (fun id p => id == p_player_id p))).
Proof.
  unfold career_defense_universe.
  rewrite career_leader_join_eq, filter_map_swap, map_map. reflexivity.
Qed.

Lemma all_def_In (X : string) : In X (all_def db) <-> In X (defensive_ids db).
Proof.
  unfold all_def, defensive_ids.
  rewrite !(union_In String.eqb String.eqb_eq), !in_app_iff. tauto.
Qed.

Lemma all_def_NoDup : NoDup (all_def db).
Proof. apply (union_NoDup String.eqb String.eqb_eq). Qed.

(** The rows of the universe are the rows of the recognized players whose
    identity occurs in one of the three tables. *)
Lemma in_career_universe (r : CareerDefenseLeader) :
  In r (career_defense_universe db) <->
  exists p, In p (players db) /\ recognized p = true
            /\ In (p_player_id p) (defensive_ids db)
            /\ r = career_leader_row db p.
Proof.
  rewrite career_universe_eq, in_map_iff. split.
  - intros [[id p] [E Hl]]. apply filter_In in Hl. destruct Hl as [Hl Hrec].
    apply in_inner_join in Hl. destruct Hl as [Hid [Hp Hon]].
    apply String.eqb_eq in Hon. subst id.
    exists p. rewrite career_select_join_of in E.
    rewrite <- all_def_In. simpl in Hrec. auto.
  - intros [p [Hp [Hrec [Hid E]]]]. exists (p_player_id p, p). split.
    + rewrite career_select_join_of. now symmetry.
    + apply filter_In. split; [|exact Hrec].
      apply in_inner_join. rewrite all_def_In.
      repeat split; try assumption. apply String.eqb_refl.
Qed.

(** With one row per player in [players], a recognized player of the
    universe has exactly one row in it. *)
Lemma career_universe_unique (p : Player) :
  NoDup (map p_player_id (players db)) ->
  In p (players db) -> recognized p = true ->
  In (p_player_id p) (defensive_ids db) ->
  filter (fun r => cl_player_id r == p_player_id p) (career_defense_universe db)
  = [career_leader_row db p].
Proof.
  intros ND Hp Hrec Hid.
  rewrite career_universe_eq, filter_map_swap, filter_and.
  unfold inner_join. rewrite filter_flat_map.
  rewrite (flat_map_single _ (all_def db) (p_player_id p)).
  - rewrite filter_map_swap. cbn [snd fst].
    rewrite filter_and.
    rewrite (filter_ext _ (fun q => (p_player_id p == p_player_id q)
                                    && recognized q)).
    + rewrite <- filter_and, (filter_key_single p_player_id _ p ND Hp).
      simpl. rewrite Hrec. simpl. now rewrite career_select_join_of.
    + intros q. unfold career_leader_select, career_join_of, clj_p.
      cbn [fst snd cl_player_id].
      destruct (p_player_id p == p_player_id q) eqn:E; simpl.
      * apply String.eqb_eq in E. rewrite <- E, String.eqb_refl.
        now rewrite andb_true_r.
      * reflexivity.
  - apply all_def_NoDup.
  - now apply all_def_In.
  - intros id _ Hne. apply filter_none. intros [id' q] Hin.
    apply in_map_iff in Hin. destruct Hin as [q' [E Hq]].
    inversion E; subst id' q'. apply filter_In in Hq. destruct Hq as [_ Hon].
    apply String.eqb_eq in Hon.
    unfold career_leader_select, career_join_of, clj_p.
    cbn [fst snd cl_player_id].
    apply andb_false_iff. right. apply String.eqb_neq. congruence.
Qed.

(** A table without a row of [X] adds nothing to the row of [X]. *)
Lemma no_tackle_rows (X : string) :
  (forall d, In d (player_defense db) -> pd_player_id d <> X) ->
  regular_tackles_of db X = [].
Proof.
  intros H. apply filter_none. intros [d g] Hin.
  apply filter_In in Hin. destruct Hin as [Hin _].
  apply in_inner_join in Hin. destruct Hin as [Hd _].
  apply String.eqb_neq. intros E. now apply (H d Hd).
Qed.

Lemma no_sack_rows (X : string) :
  (forall s, In s (player_sacks db) -> ps_player_id s <> X) ->
  regular_sacks_of db X = [].
Proof.
  intros H. apply filter_none. intros [s g] Hin.
  apply filter_In in Hin. destruct Hin as [Hin _].
  apply in_inner_join in Hin. destruct Hin as [Hs _].
  apply String.eqb_neq. intros E. now apply (H s Hs).
Qed.

Lemma no_interception_rows (X : string) :
  (forall i, In i (player_interceptions db) -> pi_player_id i <> X) ->
  regular_interceptions_of db X = [].
Proof.
  intros H. apply filter_none. intros [i g] Hin.
  apply filter_In in Hin. destruct Hin as [Hin _].
  apply in_inner_join in Hin. destruct Hin as [Hi _].
  apply String.eqb_neq. intros E. now apply (H i Hi).
Qed.

(** The leaderboard is the universe, sorted and cut. *)
Lemma in_leaders_in_universe (limit : Z) (r : CareerDefenseLeader) :
  In r (getCareerDefensiveLeaders limit db) -> In r (career_defense_universe db).
Proof.
  unfold getCareerDefensiveLeaders. intros H.
  apply limit_In in H. now apply order_by_In in H.
Qed.

Lemma leaders_unlimited (limit : Z) (P : CareerDefenseLeader -> bool)
  (r : CareerDefenseLeader) :
  limit < 0 \/ Z.of_nat (List.length (career_defense_universe db)) <= limit ->
  filter P (career_defense_universe db) = [r] ->
  filter P (getCareerDefensiveLeaders limit db) = [r].
Proof.
  intros Hl E. unfold getCareerDefensiveLeaders.
  rewrite limit_all.
  - now apply filter_order_by_single.
  - rewrite (Permutation_length (order_by_perm _ _)). exact Hl.
Qed.
End CareerLeaders.

(** ** Union completeness *)

(** The universe holds a row only for identities of the three tables, and
    so does every leaderboard cut from it. *)
Lemma leaders_from_defensive_tables (limit : Z) (db : Database)
  (r : CareerDefenseLeader) :
  In r (getCareerDefensiveLeaders limit db) ->
  In (cl_player_id r) (defensive_ids db).
Proof.
  intros H. apply in_leaders_in_universe, in_career_universe in H.
  destruct H as [p [_ [_ [Hid ->]]]]. exact Hid.
Qed.

(** C2 (counterexample). A recognized player whose only defensive row is
    a sack in a playoff game is in the universe, but with [sacks = 0], not
    with the total of their sack rows. *)
Lemma playoff_sack_not_counted :
  exists r,
    career_defense_universe playoff_sack_only = [r]
    /\ cl_player_id r = "X"
    /\ cl_sacks r = 0
    /\ sack_total playoff_sack_only "X" = 2.
Proof.
  eexists. repeat split.
Qed.

(** C2 (amended). A recognized player with rows in [player_sacks] and none
    in the two other tables has exactly one row in the leaderboard universe
    (and in every leaderboard that is not cut short), with [tkl = 0],
    [int_count = 0] and [sacks] the sum of their sacks over regular-season
    games.  The universe is the duplicate-free union of the identities of
    the three tables, and each of its (identity, player) pairs is joined to
    exactly one row, whatever the aggregates hold. *)
Theorem sacks_only_player_in_universe (db : Database) (p : Player) :
  NoDup (map p_player_id (players db)) ->
  In p (players db) ->
  recognized p = true ->
  In (p_player_id p) (map ps_player_id (player_sacks db)) ->
  (forall d, In d (player_defense db) -> pd_player_id d <> p_player_id p) ->
  (forall i, In i (player_interceptions db) -> pi_player_id i <> p_player_id p) ->
  (forall X, In X (all_def db) <-> In X (defensive_ids db))
  /\ NoDup (all_def db)
  /\ career_leader_join db =
     map (career_join_of db)
       (inner_join (all_def db) (players db) (fun id q => id == p_player_id q))
  /\ exists r,
       filter (fun r => cl_player_id r == p_player_id p)
         (career_defense_universe db) = [r]
       /\ cl_tkl r = 0
       /\ cl_int_count r = 0
       /\ cl_sacks r = regular_sack_total db (p_player_id p)
       /\ forall limit,
            limit < 0
            \/ Z.of_nat (List.length (career_defense_universe db)) <= limit ->
            filter (fun r => cl_player_id r == p_player_id p)
              (getCareerDefensiveLeaders limit db) = [r].
Proof.
  intros ND Hp Hrec Hsack Hdef Hint.
  split; [apply all_def_In|].
  split; [apply all_def_NoDup|].
  split; [apply career_leader_join_eq|].
  assert (In (p_player_id p) (defensive_ids db)) as Hid.
  { unfold defensive_ids. rewrite !in_app_iff. tauto. }
  pose proof (career_universe_unique db p ND Hp Hrec Hid) as U.
  exists (career_leader_row db p).
  split; [exact U|].
  split; [cbn; now rewrite (no_tackle_rows db _ Hdef)|].
  split; [cbn; unfold regular_interception_total;
          now rewrite (no_interception_rows db _ Hint)|].
  split; [reflexivity|].
  intros limit Hl. now apply leaders_unlimited.
Qed.

(** On [sacks_only]: two regular-season sacks and one, and three more in a
    playoff game that are not counted. *)
Lemma sacks_only_player_in_universe_witness :
  exists r,
    filter (fun r => cl_player_id r == "X") (career_defense_universe sacks_only)
    = [r]
    /\ cl_tkl r = 0 /\ cl_int_count r = 0 /\ cl_sacks r = 3.
Proof.
  destruct (sacks_only_player_in_universe sacks_only (linked_player "X" "Rickey"))
    as [_ [_ [_ [r [U [T [I [S _]]]]]]]].
  - repeat constructor; simpl; intuition discriminate.
  - simpl. tauto.
  - reflexivity.
  - simpl. tauto.
  - intros d [<- | []]. discriminate.
  - intros i [].
  - exists r. repeat split; assumption.
Defined.

(** C7 (counterexample). A recognized player present only in the
    interceptions table, with their one interception in a playoff game, has a
    leaderboard row with [tkl = 0], [sacks = 0] and [int_count = 0]. *)
Lemma playoff_interception_row_all_zero :
  player_defense playoff_interception_only = []
  /\ player_sacks playoff_interception_only = []
  /\ map pi_player_id (player_interceptions playoff_interception_only) = ["X"]
  /\ exists r,
       getCareerDefensiveLeaders 25 playoff_interception_only = [r]
       /\ cl_player_id r = "X"
       /\ cl_tkl r = 0 /\ cl_sacks r = 0
       /\ ~ 0 < cl_int_count r.
Proof.
  repeat split. eexists. repeat split. vm_compute. discriminate.
Qed.

(** C7 (amended). Every leaderboard row belongs to a player found in one of
    the three tables.  A recognized player found only in the interceptions
    table has a row in the universe (and in every leaderboard that is not
    cut short); each row the universe holds for their id has [tkl = 0],
    [sacks = 0] and [int_count] the sum of their interceptions over
    regular-season games, which is positive as soon as one of those games
    has a positive count and no count is negative.  With one row per player
    id in [players] it is exactly one row. *)
Theorem interceptions_only_player_in_universe (db : Database) :
  (forall limit r, In r (getCareerDefensiveLeaders limit db) ->
                   In (cl_player_id r) (defensive_ids db))
  /\ forall p,
       In p (players db) ->
       recognized p = true ->
       In (p_player_id p) (map pi_player_id (player_interceptions db)) ->
       (forall d, In d (player_defense db) -> pd_player_id d <> p_player_id p) ->
       (forall s, In s (player_sacks db) -> ps_player_id s <> p_player_id p) ->
       let mine := filter (fun r => cl_player_id r == p_player_id p)
                     (career_defense_universe db) in
       mine <> []
       /\ (forall r, In r mine ->
             cl_tkl r = 0
             /\ cl_sacks r = 0
             /\ cl_int_count r = regular_interception_total db (p_player_id p)
             /\ ((forall i, In i (player_interceptions db) ->
                    0 <= pi_int_count i) ->
                 (exists x, In x (regular_interceptions_of db (p_player_id p))
                            /\ 0 < pi_int_count (fst x)) ->
                 0 < cl_int_count r))
       /\ (forall limit,
             limit < 0
             \/ Z.of_nat (List.length (career_defense_universe db)) <= limit ->
             forall r, In r mine -> In r (getCareerDefensiveLeaders limit db))
       /\ (NoDup (map p_player_id (players db)) -> exists r, mine = [r]).
Proof.
  split; [intros limit r; apply leaders_from_defensive_tables|].
  intros p Hp Hrec Hint Hdef Hsack mine.
  assert (In (p_player_id p) (defensive_ids db)) as Hid.
  { unfold defensive_ids. rewrite !in_app_iff. tauto. }
  split; [|split; [|split]].
  - assert (In (career_leader_row db p) mine) as H.
    { apply filter_In. split.
      - apply in_career_universe. exists p. auto.
      - apply String.eqb_refl. }
    intros E. rewrite E in H. destruct H.
  - intros r Hr. apply filter_In in Hr. destruct Hr as [Hr Er].
    apply String.eqb_eq in Er. apply in_career_universe in Hr.
    destruct Hr as [q [_ [_ [_ ->]]]].
    cbn [cl_player_id career_leader_row] in Er.
    cbn [cl_tkl cl_sacks cl_int_count career_leader_row]. rewrite Er.
    split; [now rewrite (no_tackle_rows db _ Hdef)|].
    split; [unfold regular_sack_total; now rewrite (no_sack_rows db _ Hsack)|].
    split; [reflexivity|].
    intros Hnn [x [Hx Hpos]]. unfold regular_interception_total.
    apply (sum_Z_pos _ (pi_int_count (fst x))).
    + intros y Hy. apply in_map_iff in Hy. destruct Hy as [[i g] [<- Hin]].
      apply Hnn. apply filter_In in Hin. destruct Hin as [Hin _].
      apply filter_In in Hin. destruct Hin as [Hin _].
      apply in_inner_join in Hin. tauto.
    + apply in_map_iff. exists x. split; [reflexivity | exact Hx].
    + exact Hpos.
  - intros limit Hl r Hr. apply filter_In in Hr. destruct Hr as [Hr _].
    unfold getCareerDefensiveLeaders. rewrite limit_all.
    + now apply order_by_In.
    + now rewrite (Permutation_length (order_by_perm _ _)).
  - intros ND. exists (career_leader_row db p).
    now apply career_universe_unique.
Qed.

(** On [interceptions_only]: three regular-season interceptions. *)
Lemma interceptions_only_player_in_universe_witness :
  exists r,
    filter (fun r => cl_player_id r == "X")
      (career_defense_universe interceptions_only) = [r]
    /\ cl_tkl r = 0 /\ cl_sacks r = 0 /\ cl_int_count r = 3.
Proof.
  destruct (proj2 (interceptions_only_player_in_universe interceptions_only)
              (linked_player "X" "Dave"))
    as (_ & R & _ & U).
  - simpl. tauto.
  - reflexivity.
  - simpl. tauto.
  - intros d [].
  - intros s [].
  - destruct U as [r U].
    + repeat constructor; simpl; intuition discriminate.
    + cbn [p_player_id linked_player] in U, R.
      exists r. split; [exact U|].
      assert (In r (filter (fun r => cl_player_id r == "X")
                      (career_defense_universe interceptions_only))) as Hr
        by (rewrite U; now left).
      destruct (R r Hr) as (T & S & I & _). repeat split; assumption.
Defined.

(** When every sack row of [X] belongs to a regular-season game, the
    regular-season total is the total of their sack rows. *)
Lemma regular_sack_total_all_regular (db : Database) (X : string) :
  NoDup (map g_game_id (games db)) ->
  (forall s, In s (player_sacks db) -> ps_player_id s = X ->
     exists g, In g (games db) /\ g_game_id g = ps_game_id s
               /\ is_regular g = true) ->
  regular_sack_total db X = sack_total db X.
Proof.
  intros Kg. unfold regular_sack_total, sack_total, regular_sacks_of,
    regular_sacks, inner_join.
  induction (player_sacks db) as [|s tbl IH]; intros H.
  - reflexivity.
  - cbn [flat_map]. rewrite !filter_app, map_app, sum_Z_app.
    rewrite IH by (intros s' Hs'; apply H; now right).
    cbn [filter]. destruct (ps_player_id s == X) eqn:E.
    + apply String.eqb_eq in E.
      destruct (H s (or_introl eq_refl) E) as [g [Hg [Eg Hreg]]].
      rewrite <- Eg, (filter_key_single g_game_id _ g Kg Hg).
      cbn [map filter snd fst]. rewrite Hreg.
      cbn [map filter snd fst]. rewrite E, String.eqb_refl.
      unfold sum_Z. cbn [map fold_right fst]. lia.
    + rewrite (filter_none (fun r => X == ps_player_id (fst r))).
      * reflexivity.
      * intros [s' g] Hin. apply filter_In in Hin. destruct Hin as [Hin _].
        apply in_map_iff in Hin. destruct Hin as [g' [Ep _]].
        inversion Ep; subst. cbn [fst]. now rewrite String.eqb_sym.
Qed.

(** ** Season-by-season defense of one player *)

Section PlayerSeasonDefense.
Variable db : Database.
Variable playerId : string.

(** The partial rows of season [s]: at most one per table. *)
Lemma season_group (s : Z) :
  filter (fun y => s =? ys_season y) (player_combined db playerId) =
  one_partial defense_season_select s (season_tackles_of db playerId s)
  ++ one_partial sacks_season_select s (season_sacks_of db playerId s)
  ++ one_partial interceptions_season_select s
       (season_interceptions_of db playerId s).
Proof.
  unfold player_combined, player_defense_partial, player_sacks_partial,
    player_interceptions_partial.
  rewrite !filter_app.
  rewrite (select_keyed_lookup_by Z.eqb Z.eqb_eq _ defense_season_select
             ys_season (fun x => s =? x) _ s)
    by (reflexivity || apply Z_eqb_single).
  rewrite (select_keyed_lookup_by Z.eqb Z.eqb_eq _ sacks_season_select
             ys_season (fun x => s =? x) _ s)
    by (reflexivity || apply Z_eqb_single).
  rewrite (select_keyed_lookup_by Z.eqb Z.eqb_eq _ interceptions_season_select
             ys_season (fun x => s =? x) _ s)
    by (reflexivity || apply Z_eqb_single).
  unfold one_partial, season_tackles_of, season_sacks_of,
    season_interceptions_of.
  destruct (filter _ (player_defense_games db playerId));
    destruct (filter _ (player_sacks_games db playerId));
    destruct (filter _ (player_interceptions_games db playerId)); reflexivity.
Qed.

(** Merging them: every counter is its own table's sum, no side is
    dropped, and [games] is the largest of the three game counts. *)
Lemma merge_partials (s : Z) (d : list (DefenseStats * Game))
  (k : list (SackStats * Game)) (i : list (InterceptionStats * Game)) :
  player_season_select s
    (one_partial defense_season_select s d
     ++ one_partial sacks_season_select s k
     ++ one_partial interceptions_season_select s i) =
  {| psd_season := s;
     psd_tkl := sum_Z (map (fun r => pd_tkl (fst r)) d);
     psd_tfl := sum_Z (map (fun r => pd_tfl (fst r)) d);
     psd_qh := sum_Z (map (fun r => pd_qh (fst r)) d);
     psd_pd_count := sum_Z (map (fun r => pd_pd (fst r)) d);
     psd_ff := sum_Z (map (fun r => pd_ff (fst r)) d);
     psd_sacks := sum_Z (map (fun r => ps_sacks (fst r)) k);
     psd_int_count := sum_Z (map (fun r => pi_int_count (fst r)) i);
     psd_games :=
       Z.max (count_distinct (map (fun r => pd_game_id (fst r)) d))
         (Z.max (count_distinct (map (fun r => ps_game_id (fst r)) k))
            (count_distinct (map (fun r => pi_game_id (fst r)) i))) |}.
Proof.
  pose proof (count_distinct_nonneg (map (fun r => pd_game_id (fst r)) d)) as Hd.
  pose proof (count_distinct_nonneg (map (fun r => ps_game_id (fst r)) k)) as Hk.
  pose proof (count_distinct_nonneg (map (fun r => pi_game_id (fst r)) i)) as Hi.
  unfold player_season_select.
  destruct d as [|d0 d']; destruct k as [|k0 k']; destruct i as [|i0 i'];
    unfold one_partial; cbn [app map sum_Z fold_right max_Z
      defense_season_select sacks_season_select interceptions_season_select
      ys_season ys_tkl ys_tfl ys_qh ys_pd_count ys_ff ys_sacks ys_int_count
      ys_games];
    f_equal; try reflexivity;
    cbn [map] in *; change (count_distinct []) with 0 in *; lia.
Qed.

Lemma season_select_row (s : Z) :
  player_season_select s
    (filter (fun y => s =? ys_season y) (player_combined db playerId)) =
  player_season_row db playerId s.
Proof.
  rewrite season_group, merge_partials. reflexivity.
Qed.

Lemma combined_seasons (s : Z) :
  In s (map ys_season (player_combined db playerId)) <->
  In s (defensive_seasons db playerId).
Proof.
  unfold player_combined, defensive_seasons, player_defense_partial,
    player_sacks_partial, player_interceptions_partial.
  rewrite !map_app, !in_app_iff.
  rewrite !(select_keyed_keys _ ys_season) by reflexivity.
  rewrite !group_by_keys, !(distinct_In Z.eqb Z.eqb_eq). reflexivity.
Qed.

(** The rows of [getPlayerSeasonDefense]: one merged row for each season
    in which the player has a row in any of the three tables. *)
Lemma in_getPlayerSeasonDefense (r : PlayerSeasonDefense) :
  In r (getPlayerSeasonDefense db playerId) <->
  In (psd_season r) (defensive_seasons db playerId)
  /\ r = player_season_row db playerId (psd_season r).
Proof.
  unfold getPlayerSeasonDefense. rewrite order_by_In.
  unfold select_keyed. rewrite in_map_iff. split.
  - intros [[s g] [E Hin]].
    apply (in_group_by Z.eqb Z.eqb_eq) in Hin. destruct Hin as [Hs ->].
    cbn [fst snd] in E. rewrite season_select_row in E. subst r.
    cbn [psd_season player_season_row]. split; [|reflexivity].
    now apply combined_seasons.
  - intros [Hs E].
    exists (psd_season r,
            filter (fun y => psd_season r =? ys_season y)
              (player_combined db playerId)).
    split.
    + cbn [fst snd]. rewrite season_select_row. now symmetry.
    + apply (in_group_by Z.eqb Z.eqb_eq). split; [|reflexivity].
      now apply combined_seasons.
Qed.

Lemma getPlayerSeasonDefense_one_row_per_season :
  NoDup (map psd_season (getPlayerSeasonDefense db playerId)).
Proof.
  unfold getPlayerSeasonDefense.
  eapply Permutation_NoDup.
  - apply Permutation_map, Permutation_sym, order_by_perm.
  - rewrite (select_keyed_keys _ psd_season) by reflexivity.
    rewrite group_by_keys. apply (distinct_NoDup Z.eqb Z.eqb_eq).
Qed.
End PlayerSeasonDefense.

(** ** Merged season rows and games played *)

(** The per-player statement merges the three partial results of a season
    into one row and sums every side. *)
Lemma player_season_defense_merges :
  getPlayerSeasonDefense tackles_and_sack_same_game "P" =
  [ {| psd_season := 2001; psd_tkl := 5; psd_tfl := 0; psd_qh := 0;
       psd_pd_count := 0; psd_ff := 0; psd_sacks := 2; psd_int_count := 0;
       psd_games := 1 |} ].
Proof. vm_compute. reflexivity. Qed.

(** C4 (defect). [getSeasonDefensiveRecords] groups the [UNION ALL] of the
    three partial results by player and season but selects [tkl], [sacks],
    [int_count] and [games] as bare columns, without [SUM]: the merged row
    is one of the partial rows.  For a player with five tackles and two
    sacks in one season, whichever row the engine reads, either the tackles
    or the sacks are dropped. *)
Theorem season_records_drop_a_side (ch : BareColumns) :
  exists r,
    getSeasonDefensiveRecords ch 25 tackles_and_sack_same_game = [r]
    /\ sr_player_id r = "P"
    /\ sr_season r = 2001
    /\ (sr_tkl r = 5 /\ sr_sacks r = 0 \/ sr_tkl r = 0 /\ sr_sacks r = 2).
Proof.
  unfold getSeasonDefensiveRecords, season_defense_universe.
  match goal with
  | |- context [select_groups ch ?mk ?G] =>
      let g := eval vm_compute in G in change G with g
  end.
  cbn [select_groups flat_map bare_row fst snd app].
  match goal with
  | |- context [choose ch ?A ?a ?l] =>
      destruct (choose_In ch A a l) as [E | [E | []]]; rewrite <- E
  end.
  - eexists. split; [vm_compute; reflexivity|]. cbn. auto.
  - eexists. split; [vm_compute; reflexivity|]. cbn. auto.
Qed.

(** C5 (counterexample). In season scope the games-played value is not
    the sum of the three distinct-game counts: with tackles and a sack in
    the same game it is 1, while the counts add up to 2.  On the career
    leaderboard the counts are taken over regular-season games: a player
    whose one sack came in a playoff game is listed with 0 games, while
    the sack table holds one game of theirs and the career summary of the
    player says 1. *)
Lemma season_games_is_not_the_sum :
  (exists r,
     getPlayerSeasonDefense tackles_and_sack_same_game "P" = [r]
     /\ psd_games r = 1
     /\ games_counted pd_game_id pd_player_id
          (player_defense tackles_and_sack_same_game) (in_season (psd_season r))
          tackles_and_sack_same_game "P"
        + games_counted ps_game_id ps_player_id
            (player_sacks tackles_and_sack_same_game) (in_season (psd_season r))
            tackles_and_sack_same_game "P"
        + games_counted pi_game_id pi_player_id
            (player_interceptions tackles_and_sack_same_game)
            (in_season (psd_season r)) tackles_and_sack_same_game "P"
        = 2)
  /\ (exists r,
        getCareerDefensiveLeaders 25 playoff_sack_only = [r]
        /\ cl_player_id r = "X"
        /\ cl_games r = 0
        /\ games_counted ps_game_id ps_player_id (player_sacks playoff_sack_only)
             any_game playoff_sack_only "X" = 1
        /\ forall ch,
             option_map cd_games (getPlayerCareerDefense ch playoff_sack_only "X")
             = Some 1).
Proof.
  split.
  - eexists. split; [vm_compute; reflexivity|]. split; reflexivity.
  - eexists. split; [vm_compute; reflexivity|]. repeat split.
    intros ch. now rewrite getPlayerCareerDefense_row.
Qed.

(** The distinct games of joined rows, counted in the table itself. *)
Lemma joined_games_counted {S : Type} (game_id player_id : S -> string)
  (tbl : list S) (keep : Game -> bool) (db : Database) (X : string)
  (rows : list (S * Game)) :
  (forall s g, In (s, g) rows <->
     In s tbl /\ In g (games db) /\ game_id s = g_game_id g
     /\ player_id s = X /\ keep g = true) ->
  count_distinct (map (fun r => game_id (fst r)) rows)
  = games_counted game_id player_id tbl keep db X.
Proof.
  intros H. unfold games_counted, count_distinct. f_equal.
  apply (distinct_length_same String.eqb String.eqb_eq).
  intros x. rewrite !in_map_iff. split.
  - intros [[s g] [<- Hin]]. apply H in Hin.
    destruct Hin as (Hs & Hg & Eg & Ep & Hk).
    exists s. split; [reflexivity|]. apply filter_In. split; [exact Hs|].
    apply andb_true_iff. split; [now apply String.eqb_eq|].
    apply existsb_exists. exists g. split; [exact Hg|].
    apply andb_true_iff. split; [apply String.eqb_eq; congruence | exact Hk].
  - intros [s [<- Hin]]. apply filter_In in Hin. destruct Hin as [Hs Hc].
    apply andb_true_iff in Hc. destruct Hc as [Ep Hex].
    apply String.eqb_eq in Ep. apply existsb_exists in Hex.
    destruct Hex as [g [Hg Hc]]. apply andb_true_iff in Hc.
    destruct Hc as [Eg Hk]. apply String.eqb_eq in Eg.
    exists (s, g). split; [reflexivity|]. apply H. auto.
Qed.

Lemma regular_games_counted (db : Database) (X : string) :
  regular_tackle_games db X
  = games_counted pd_game_id pd_player_id (player_defense db) is_regular db X
  /\ regular_sack_games db X
     = games_counted ps_game_id ps_player_id (player_sacks db) is_regular db X
  /\ regular_interception_games db X
     = games_counted pi_game_id pi_player_id (player_interceptions db)
         is_regular db X.
Proof.
  unfold regular_tackle_games, regular_sack_games, regular_interception_games,
    regular_tackles_of, regular_sacks_of, regular_interceptions_of,
    regular_defense, regular_sacks, regular_interceptions.
  repeat split; apply joined_games_counted; intros s g;
    rewrite !filter_In, in_inner_join; cbn [fst snd];
    rewrite !String.eqb_eq; intuition congruence.
Qed.

Lemma career_games_counted (db : Database) (X : string) :
  career_tackle_games db X
  = games_counted pd_game_id pd_player_id (player_defense db) any_game db X
  /\ career_sack_games db X
     = games_counted ps_game_id ps_player_id (player_sacks db) any_game db X
  /\ career_interception_games db X
     = games_counted pi_game_id pi_player_id (player_interceptions db)
         any_game db X.
Proof.
  unfold career_tackle_games, career_sack_games, career_interception_games,
    player_defense_games, player_sacks_games, player_interceptions_games,
    any_game.
  repeat split; apply joined_games_counted; intros s g;
    rewrite !filter_In, in_inner_join; cbn [fst snd];
    rewrite !String.eqb_eq; intuition congruence.
Qed.

Lemma season_games_counted (db : Database) (X : string) (y : Z) :
  season_tackle_games db X y
  = games_counted pd_game_id pd_player_id (player_defense db) (in_season y) db X
  /\ season_sack_games db X y
     = games_counted ps_game_id ps_player_id (player_sacks db) (in_season y) db X
  /\ season_interception_games db X y
     = games_counted pi_game_id pi_player_id (player_interceptions db)
         (in_season y) db X.
Proof.
  unfold season_tackle_games, season_sack_games, season_interception_games,
    season_tackles_of, season_sacks_of, season_interceptions_of,
    player_defense_games, player_sacks_games, player_interceptions_games,
    in_season.
  repeat split; apply joined_games_counted; intros s g;
    rewrite !filter_In, in_inner_join; cbn [fst snd];
    rewrite !String.eqb_eq, !Z.eqb_eq; intuition congruence.
Qed.

(** C5 (amended). In career scope games played is the sum of three
    distinct-game counts, one per table.  On the leaderboard each counts
    the distinct games among the player's rows of the table that are
    regular-season games of [games]; in the career summary of a player each
    counts the distinct games among the player's rows that are games of
    [games], of any type.  In the season-by-season summary of a player the
    value is the largest, not the sum, of the three counts over the games
    of the season ([MAX(games)] over the partial rows). *)
Theorem defensive_games_played (ch : BareColumns) (db : Database)
  (playerId : string) :
  (forall limit r,
     In r (getCareerDefensiveLeaders limit db) ->
     cl_games r
     = games_counted pd_game_id pd_player_id (player_defense db) is_regular db
         (cl_player_id r)
       + games_counted ps_game_id ps_player_id (player_sacks db) is_regular db
           (cl_player_id r)
       + games_counted pi_game_id pi_player_id (player_interceptions db)
           is_regular db (cl_player_id r))
  /\ (forall r,
        getPlayerCareerDefense ch db playerId = Some r ->
        cd_games r
        = games_counted pd_game_id pd_player_id (player_defense db) any_game db
            playerId
          + games_counted ps_game_id ps_player_id (player_sacks db) any_game db
              playerId
          + games_counted pi_game_id pi_player_id (player_interceptions db)
              any_game db playerId)
  /\ (forall r,
        In r (getPlayerSeasonDefense db playerId) ->
        psd_games r
        = Z.max
            (games_counted pd_game_id pd_player_id (player_defense db)
               (in_season (psd_season r)) db playerId)
            (Z.max
               (games_counted ps_game_id ps_player_id (player_sacks db)
                  (in_season (psd_season r)) db playerId)
               (games_counted pi_game_id pi_player_id (player_interceptions db)
                  (in_season (psd_season r)) db playerId))).
Proof.
  split; [|split].
  - intros limit r H.
    apply in_leaders_in_universe, in_career_universe in H.
    destruct H as [p [_ [_ [_ ->]]]].
    cbn [cl_player_id cl_games career_leader_row].
    destruct (regular_games_counted db (p_player_id p)) as (<- & <- & <-).
    reflexivity.
  - intros r H. rewrite getPlayerCareerDefense_row in H.
    injection H as <-. cbn [cd_games].
    destruct (career_games_counted db playerId) as (<- & <- & <-).
    reflexivity.
  - intros r H. apply in_getPlayerSeasonDefense in H.
    destruct H as [_ E].
    destruct (season_games_counted db playerId (psd_season r)) as (<- & <- & <-).
    rewrite E at 1. reflexivity.
Qed.

(** On [tackles_and_sack_same_game]: one game in each of two tables, one
    game played. *)
Lemma defensive_games_played_witness :
  In {| psd_season := 2001; psd_tkl := 5; psd_tfl := 0; psd_qh := 0;
        psd_pd_count := 0; psd_ff := 0; psd_sacks := 2; psd_int_count := 0;
        psd_games := 1 |}
     (getPlayerSeasonDefense tackles_and_sack_same_game "P")
  /\ 1 = Z.max
           (games_counted pd_game_id pd_player_id
              (player_defense tackles_and_sack_same_game) (in_season 2001)
              tackles_and_sack_same_game "P")
           (Z.max
              (games_counted ps_game_id ps_player_id
                 (player_sacks tackles_and_sack_same_game) (in_season 2001)
                 tackles_and_sack_same_game "P")
              (games_counted pi_game_id pi_player_id
                 (player_interceptions tackles_and_sack_same_game)
                 (in_season 2001) tackles_and_sack_same_game "P")).
Proof.
  split.
  - vm_compute. left. reflexivity.
  - apply (proj2 (proj2 (defensive_games_played first_row
                           tackles_and_sack_same_game "P"))
             {| psd_season := 2001; psd_tkl := 5; psd_tfl := 0; psd_qh := 0;
                psd_pd_count := 0; psd_ff := 0; psd_sacks := 2;
                psd_int_count := 0; psd_games := 1 |}).
    vm_compute. left. reflexivity.
Defined.

(** An engine that reads the first row of a group keeps the tackles, one
    that reads the last row keeps the sacks. *)
Lemma season_records_by_engine :
  map (fun r => (sr_tkl r, sr_sacks r, sr_games r))
    (getSeasonDefensiveRecords first_row 25 tackles_and_sack_same_game)
  = [(5, 0, 1)]
  /\ map (fun r => (sr_tkl r, sr_sacks r, sr_games r))
       (getSeasonDefensiveRecords last_row 25 tackles_and_sack_same_game)
     = [(0, 2, 1)].
Proof. split; vm_compute; reflexivity. Qed.

(** In general: every row of the season leaderboard is the copy of one
    partial row, so at most one of its three sides is not zero. *)
Lemma season_record_is_one_partial (ch : BareColumns) (limit : Z)
  (db : Database) (r : SeasonDefenseRecord) :
  In r (getSeasonDefensiveRecords ch limit db) ->
  exists c p,
    In c (combined (regular_defense db) (regular_sacks db)
            (regular_interceptions db))
    /\ In p (players db)
    /\ sr_tkl r = sp_tkl c /\ sr_sacks r = sp_sacks c
    /\ sr_int_count r = sp_int_count c /\ sr_games r = sp_games c.
Proof.
  unfold getSeasonDefensiveRecords, season_defense_universe, select_groups.
  intros H. apply limit_In, order_by_In, in_flat_map in H.
  destruct H as [[k g] [Hg Hr]]. cbn [fst snd] in Hr.
  destruct (bare_row ch g) as [[c p]|] eqn:B; [|destruct Hr].
  destruct Hr as [<- | []].
  apply bare_row_In in B.
  apply (in_group_by pair_eqb) in Hg.
  - destruct Hg as [_ ->]. apply filter_In in B. destruct B as [B _].
    apply filter_In in B. destruct B as [B _].
    apply in_inner_join in B. destruct B as [Hc [Hp _]].
    exists c, p. repeat split; assumption.
  - intros [a1 a2] [b1 b2]. unfold pair_eqb. cbn [fst snd].
    rewrite andb_true_iff, String.eqb_eq, Z.eqb_eq.
    split; [intros [-> ->]; reflexivity | intros E; inversion E; tauto].
Qed.

Lemma partial_has_one_side (d : list (DefenseStats * Game))
  (s : list (SackStats * Game)) (i : list (InterceptionStats * Game))
  (c : SeasonPartial) :
  In c (combined d s i) ->
  (sp_sacks c = 0 /\ sp_int_count c = 0)
  \/ (sp_tkl c = 0 /\ sp_int_count c = 0)
  \/ (sp_tkl c = 0 /\ sp_sacks c = 0).
Proof.
  unfold combined, defense_partial, sacks_partial, interceptions_partial,
    select_keyed.
  rewrite !in_app_iff, !in_map_iff.
  intros [[kg [<- _]] | [[kg [<- _]] | [kg [<- _]]]]; cbn; tauto.
Qed.

(** ** Games played in passing, rushing and receiving *)

Section PlayerCareerGames.
Context {S T : Type} (game_id player_id : S -> string) (total : list S -> T).
Variable tbl : list S.
Variable db : Database.
Variable playerId : string.

(** Every row of the player refers to a game of [games]. *)
Hypothesis games_known :
  forall s, In s tbl -> player_id s = playerId ->
            In (game_id s) (map g_game_id (games db)).

Lemma joined_game_ids (x : string) :
  In x (map (fun r => game_id (fst r)) (stat_game_of game_id player_id tbl db playerId))
  <-> In x (map game_id (rows_of player_id tbl playerId)).
Proof.
  unfold stat_game_of, rows_of. rewrite !in_map_iff. split.
  - intros [[s g] [E H]]. apply filter_In in H. destruct H as [H Hp].
    apply in_inner_join in H. destruct H as [Hs _].
    exists s. split; [exact E|]. apply filter_In. split; assumption.
  - intros [s [E H]]. apply filter_In in H. destruct H as [Hs Hp].
    assert (In (game_id s) (map g_game_id (games db))) as Hg.
    { apply games_known; [assumption|]. now apply String.eqb_eq. }
    apply in_map_iff in Hg. destruct Hg as [g [Eg Hg]].
    exists (s, g). split; [exact E|].
    apply filter_In. split; [|exact Hp].
    apply in_inner_join. repeat split; try assumption.
    apply String.eqb_eq. now symmetry.
Qed.

(** The career summary counts the distinct games among the rows of the
    player in the table it sums, and reads no other table. *)
Lemma player_career_games :
  exists r,
    player_career game_id player_id total tbl db playerId = Some r
    /\ pc_games r = count_distinct (map game_id (rows_of player_id tbl playerId)).
Proof.
  eexists. split; [reflexivity|].
  cbn [pc_games]. unfold count_distinct. f_equal.
  apply (distinct_length_same String.eqb String.eqb_eq).
  apply joined_game_ids.
Qed.
End PlayerCareerGames.

Lemma career_passing_example :
  exists r,
    getPlayerCareerPassing two_passing_games "P" = Some r
    /\ pk_yds (pc_totals r) = Some 550
    /\ pc_games r = 2.
Proof. eexists. repeat split. Qed.

(** C6 (defect). The season-page leaders count rows ([COUNT( * )]), not
    distinct games: with two rows for one game the player is credited with
    two games, while the season records and the career summary, which use
    [COUNT(DISTINCT game_id)], credit one. *)
Theorem season_leaders_count_rows (ch : BareColumns) :
  (exists r,
     getSeasonPassingLeaders ch 2009 duplicate_passing_row = [r]
     /\ ld_games r = 2)
  /\ count_distinct
       (map pp_game_id (rows_of pp_player_id
                          (player_passing duplicate_passing_row) "P")) = 1
  /\ (exists r,
        getSeasonPassingRecords ch 25 duplicate_passing_row = [r]
        /\ rc_games r = 1)
  /\ (exists r,
        getPlayerCareerPassing duplicate_passing_row "P" = Some r
        /\ pc_games r = 1).
Proof.
  split; [|split; [|split]].
  - unfold getSeasonPassingLeaders, season_leaders.
    eval_groups ch. pick_rows ch;
      (eexists; split; [vm_compute; reflexivity | reflexivity]).
  - reflexivity.
  - unfold getSeasonPassingRecords, season_records.
    eval_groups ch. pick_rows ch;
      (eexists; split; [vm_compute; reflexivity | reflexivity]).
  - eexists. split; reflexivity.
Qed.

(** The career passing summary: the distinct games among the passing rows
    of the player, whatever the rushing and receiving tables hold. *)
Lemma career_passing_games (db : Database) (playerId : string) :
  (forall s, In s (player_passing db) -> pp_player_id s = playerId ->
             In (pp_game_id s) (map g_game_id (games db))) ->
  exists r,
    getPlayerCareerPassing db playerId = Some r
    /\ pc_games r =
       count_distinct
         (map pp_game_id (rows_of pp_player_id (player_passing db) playerId)).
Proof.
  intros H. unfold getPlayerCareerPassing.
  now apply (player_career_games pp_game_id pp_player_id).
Qed.

Lemma career_passing_reads_passing_only (db db' : Database) (playerId : string) :
  games db = games db' ->
  player_passing db = player_passing db' ->
  getPlayerCareerPassing db playerId = getPlayerCareerPassing db' playerId.
Proof.
  intros Eg Ep.
  unfold getPlayerCareerPassing, player_career, stat_game_of.
  now rewrite Eg, Ep.
Qed.

(** ** The leaderboard route *)

Module RouteFacts.
Import Route.

Lemma call_fetcher_ignores_gameType (ch : BareColumns) (f : Fetcher) (limit : Z)
  (g1 g2 : string) (db : Database) :
  call_fetcher ch f limit g1 db = call_fetcher ch f limit g2 db.
Proof. destruct f; reflexivity. Qed.

Lemma own_fetchers_scope (scope : string) :
  match own fetchers scope with
  | Some _ => In scope valid_scopes
  | None => ~ In scope valid_scopes
  end.
Proof.
  unfold fetchers, valid_scopes, own.
  destruct ("career" == scope) eqn:E1; [apply String.eqb_eq in E1; simpl; auto|].
  destruct ("season" == scope) eqn:E2; [apply String.eqb_eq in E2; simpl; auto|].
  destruct ("game" == scope) eqn:E3; [apply String.eqb_eq in E3; simpl; auto|].
  apply String.eqb_neq in E1, E2, E3. simpl. intuition congruence.
Qed.

Lemma own_table_category (scope category : string) (t : list (string * Fetcher)) :
  own fetchers scope = Some t ->
  match own t category with
  | Some _ => In category valid_categories
  | None => ~ In category valid_categories
  end.
Proof.
  unfold fetchers, valid_categories. cbn [own].
  destruct ("career" == scope);
    [|destruct ("season" == scope); [|destruct ("game" == scope)]];
    intros E; inversion E; subst t; clear E; cbn [own];
    (destruct ("passing" == category) eqn:E1;
       [apply String.eqb_eq in E1; simpl; auto|];
     destruct ("rushing" == category) eqn:E2;
       [apply String.eqb_eq in E2; simpl; auto|];
     destruct ("receiving" == category) eqn:E3;
       [apply String.eqb_eq in E3; simpl; auto|];
     destruct ("defense" == category) eqn:E4;
       [apply String.eqb_eq in E4; simpl; auto|];
     apply String.eqb_neq in E1, E2, E3, E4; simpl; intuition congruence).
Qed.

(** A request outside the interface never resolves to a query function. *)
Lemma invalid_request_no_query_function (rt : Runtime) (request : Request) :
  ~ In (or_default (scope_param request) "career") valid_scopes
  \/ ~ In (or_default (category_param request) "passing") valid_categories ->
  forall f, fetcher_of rt request <> QueryFunction f.
Proof.
  intros H f. unfold fetcher_of, get_scope.
  pose proof (own_fetchers_scope (or_default (scope_param request) "career")) as Hs.
  destruct (own fetchers (or_default (scope_param request) "career")) as [t|] eqn:Es.
  - pose proof (own_table_category _ (or_default (category_param request) "passing")
                  t Es) as Hc.
    cbn [get_category].
    destruct (own t (or_default (category_param request) "passing")).
    + tauto.
    + unfold inherited. destruct (object_prototype rt _); discriminate.
  - unfold inherited.
    destruct (object_prototype rt (or_default (scope_param request) "career"));
      cbn [get_category]; [|discriminate].
    destruct (builtin_member rt b _); discriminate.
Qed.

(** No statement is issued for a request outside the interface. *)
Lemma invalid_request_issues_no_query (rt : Runtime) (ch : BareColumns)
  (request : Request) (db : Database) :
  ~ In (or_default (scope_param request) "career") valid_scopes
  \/ ~ In (or_default (category_param request) "passing") valid_categories ->
  snd (GET rt ch request db) = [].
Proof.
  intros H. pose proof (invalid_request_no_query_function rt request H) as Hq.
  unfold GET. destruct (fetcher_of rt request) as [| t | f | b].
  - reflexivity.
  - reflexivity.
  - exfalso. now apply (Hq f).
  - destruct (builtin_truthy rt b); [|reflexivity].
    destruct (builtin_call rt b 50 (game_type_of request)); reflexivity.
Qed.

(** A name that is neither in the interface nor a member of
    [Object.prototype] is rejected with status 400. *)
Lemma unknown_name_rejected (rt : Runtime) (ch : BareColumns)
  (request : Request) (db : Database) :
  let scope := or_default (scope_param request) "career" in
  let category := or_default (category_param request) "passing" in
  (~ In scope valid_scopes /\ object_prototype rt scope = None)
  \/ (In scope valid_scopes /\ ~ In category valid_categories
      /\ object_prototype rt category = None) ->
  GET rt ch request db = (invalid, []).
Proof.
  intros scope category H. unfold GET, fetcher_of, get_scope.
  fold scope. fold category.
  pose proof (own_fetchers_scope scope) as Hs.
  destruct (own fetchers scope) as [t|] eqn:Es.
  - destruct H as [[H _] | [_ [Hc Hp]]]; [contradiction|].
    pose proof (own_table_category scope category t Es) as Ht.
    cbn [get_category]. destruct (own t category); [contradiction|].
    unfold inherited. rewrite Hp. reflexivity.
  - destruct H as [[_ Hp] | [H _]]; [|contradiction].
    unfold inherited. rewrite Hp. reflexivity.
Qed.

(** For a request the route resolves to a query function, the answer does
    not depend on the [gameType] parameter. *)
Lemma GET_ignores_gameType (rt : Runtime) (ch : BareColumns)
  (scope category g1 g2 : option string) (f : Fetcher) (db : Database) :
  fetcher_of rt {| scope_param := scope; category_param := category;
                   gameType_param := g1 |} = QueryFunction f ->
  GET rt ch {| scope_param := scope; category_param := category;
               gameType_param := g1 |} db =
  GET rt ch {| scope_param := scope; category_param := category;
               gameType_param := g2 |} db.
Proof.
  unfold GET, fetcher_of. cbn [scope_param category_param].
  intros ->. unfold bind, issue, ret.
  now rewrite (call_fetcher_ignores_gameType ch f 50 _
                 (game_type_of {| scope_param := scope;
                                  category_param := category;
                                  gameType_param := g2 |})).
Qed.

End RouteFacts.

(** C3 (defect). The route validates [gameType] and passes it to the
    fetcher, but no query function has a parameter for it and every
    statement keeps [g.game_type = 'regular'].  A request for the playoff
    career passing leaders is answered with the regular-season totals: 100
    yards in one game, where the playoff game of the player has 300. *)
Theorem playoff_request_answers_regular_season (rt : Route.Runtime)
  (ch : BareColumns) :
  Route.GET rt ch
    {| Route.scope_param := Some "career";
       Route.category_param := Some "passing";
       Route.gameType_param := Some "playoff" |}
    regular_and_playoff_passing =
  (Route.Json 200
     (Route.RowsBody
        (Route.CareerPassingRows
           [ {| ld_player_id := "P"; ld_player_name := "Drew";
                ld_totals := {| pt_att := 30; pt_com := 20; pt_yds := 100;
                                pt_td := 2; pt_int_thrown := 0 |};
                ld_games := 1 |} ])),
   [Route.CareerPassingLeaders]).
Proof.
  unfold Route.GET, Route.fetcher_of.
  cbn [Route.scope_param Route.category_param Route.or_default].
  change (Route.get_scope rt "career")
    with (@Route.Table rt [ ("passing", Route.CareerPassingLeaders);
                            ("rushing", Route.CareerRushingLeaders);
                            ("receiving", Route.CareerReceivingLeaders);
                            ("defense", Route.CareerDefensiveLeaders) ]).
  change (Route.get_category rt _ "passing")
    with (@Route.QueryFunction rt Route.CareerPassingLeaders).
  unfold Route.bind, Route.issue, Route.ret, Route.call_fetcher.
  unfold getCareerPassingLeaders, career_leaders.
  eval_groups ch. pick_rows ch. vm_compute. reflexivity.
Qed.

(** C8 (defect). The guard [if (!fetcher)] rejects a name only when the
    property read yields nothing.  A category that names a member of
    [Object.prototype], such as [toString], is not a category of the
    interface, yet it yields that member: the request is not rejected, the
    member is called in place of a fetcher and its result is sent back with
    status 200.  No statement is issued. *)
Theorem inherited_category_is_not_rejected (rt : Route.Runtime)
  (ch : BareColumns) (db : Database) (b : Route.builtin rt)
  (gameType : option string) :
  Route.object_prototype rt "toString" = Some b ->
  Route.builtin_truthy rt b = true ->
  let request := {| Route.scope_param := None;
                    Route.category_param := Some "toString";
                    Route.gameType_param := gameType |} in
  ~ In "toString" valid_categories
  /\ Route.GET rt ch request db =
     (match Route.builtin_call rt b 50 (Route.game_type_of request) with
      | Route.Returned v => Route.Json 200 (Route.ValueBody v)
      | Route.Thrown e => Route.Uncaught e
      end, [])
  /\ fst (Route.GET rt ch request db) <> Route.invalid.
Proof.
  intros Hb Ht request.
  assert (Route.GET rt ch request db =
          (match Route.builtin_call rt b 50 (Route.game_type_of request) with
           | Route.Returned v => Route.Json 200 (Route.ValueBody v)
           | Route.Thrown e => Route.Uncaught e
           end, [])) as E.
  { unfold Route.GET, Route.fetcher_of.
    cbn [Route.scope_param Route.category_param Route.or_default request].
    change (Route.get_scope rt "career")
      with (@Route.Table rt [ ("passing", Route.CareerPassingLeaders);
                              ("rushing", Route.CareerRushingLeaders);
                              ("receiving", Route.CareerReceivingLeaders);
                              ("defense", Route.CareerDefensiveLeaders) ]).
    change (Route.get_category rt _ "toString")
      with (Route.inherited rt "toString").
    unfold Route.inherited. rewrite Hb, Ht.
    destruct (Route.builtin_call rt b 50 _); reflexivity. }
  split; [|split].
  - unfold valid_categories. simpl. intuition discriminate.
  - exact E.
  - rewrite E. cbn [fst].
    destruct (Route.builtin_call rt b 50 _); discriminate.
Qed.

(** In a runtime that has [Object.prototype.toString]. *)
Lemma inherited_category_is_not_rejected_witness :
  Route.GET Route.toString_runtime first_row
    {| Route.scope_param := None;
       Route.category_param := Some "toString";
       Route.gameType_param := None |} no_rows =
  (Route.Json 200 (Route.ValueBody "[object Undefined]"), []).
Proof.
  apply (inherited_category_is_not_rejected Route.toString_runtime first_row
           no_rows Route.ObjectPrototype_toString None).
  - reflexivity.
  - reflexivity.
Defined.

(** ** The game log *)

Section GameLog.
Variable db : Database.
Variable playerId : string.

Hypothesis games_key : NoDup (map g_game_id (games db)).
Hypothesis passing_key :
  NoDup (map (fun s => (pp_game_id s, pp_player_id s)) (player_passing db)).
Hypothesis rushing_key :
  NoDup (map (fun s => (pr_game_id s, pr_player_id s)) (player_rushing db)).
Hypothesis receiving_key :
  NoDup (map (fun s => (rec_game_id s, rec_player_id s)) (player_receiving db)).

Lemma pair_of_eqb (a b c d : string) :
  (a == c) && (b == d) = true -> (a, b) = (c, d).
Proof.
  intros H. apply andb_true_iff in H. destruct H as [H1 H2].
  apply String.eqb_eq in H1, H2. congruence.
Qed.

(** The three left joins add to each game the row of the player, or
    NULLs. *)
Lemma game_log_join_eq :
  game_log_join db playerId = map (game_log_join_of db playerId) (games db).
Proof.
  unfold game_log_join.
  rewrite (left_join_lookup _ (player_passing db) _
             (fun g => passing_row db (g_game_id g) playerId)).
  2:{ intros g _. unfold passing_row.
      apply (filter_at_most_one (fun s => (pp_game_id s, pp_player_id s))
               (g_game_id g, playerId)); [exact passing_key|].
      intros a _. apply pair_of_eqb. }
  rewrite (left_join_lookup _ (player_rushing db) _
             (fun l => rushing_row db (g_game_id (fst l)) playerId)).
  2:{ intros l _. unfold rushing_row.
      apply (filter_at_most_one (fun s => (pr_game_id s, pr_player_id s))
               (g_game_id (fst l), playerId)); [exact rushing_key|].
      intros a _. apply pair_of_eqb. }
  rewrite (left_join_lookup _ (player_receiving db) _
             (fun l => receiving_row db (g_game_id (fst (fst l))) playerId)).
  2:{ intros l _. unfold receiving_row.
      apply (filter_at_most_one (fun s => (rec_game_id s, rec_player_id s))
               (g_game_id (fst (fst l)), playerId)); [exact receiving_key|].
      intros a _. apply pair_of_eqb. }
  rewrite !map_map. reflexivity.
Qed.

Lemma game_log_where_of (season : option Z) (g : Game) :
  game_log_where season (game_log_join_of db playerId g) =
  played db playerId g
  && negb (g_game_type g == "preseason")
  && season_clause season g.
Proof. reflexivity. Qed.

(** The rows of the log, before the projection. *)
Lemma game_log_rows (season : option Z) :
  Permutation
    (getPlayerGameLog db playerId season)
    (map (fun g => game_log_select (game_log_join_of db playerId g))
       (filter (fun g => game_log_where season (game_log_join_of db playerId g))
          (games db))).
Proof.
  unfold getPlayerGameLog. rewrite game_log_join_eq, filter_map_swap.
  rewrite <- (map_map (game_log_join_of db playerId) game_log_select).
  apply Permutation_map, order_by_perm.
Qed.

Lemma in_game_log (season : option Z) (r : GameLogRow) :
  In r (getPlayerGameLog db playerId season) <->
  exists g, In g (games db)
            /\ game_log_where season (game_log_join_of db playerId g) = true
            /\ r = game_log_select (game_log_join_of db playerId g).
Proof.
  split.
  - intros H. apply (Permutation_in _ (game_log_rows season)) in H.
    apply in_map_iff in H. destruct H as [g [E Hg]].
    apply filter_In in Hg. exists g. intuition.
  - intros [g [Hg [Hw E]]].
    apply (Permutation_in _ (Permutation_sym (game_log_rows season))).
    apply in_map_iff. exists g. split; [now symmetry|].
    apply filter_In. tauto.
Qed.

Lemma game_log_ids_NoDup (season : option Z) :
  NoDup (map lg_game_id (getPlayerGameLog db playerId season)).
Proof.
  eapply Permutation_NoDup.
  - apply Permutation_map, Permutation_sym, game_log_rows.
  - rewrite map_map. cbn [lg_game_id game_log_select].
    change (fun x : Game => g_game_id (gj_g (game_log_join_of db playerId x)))
      with g_game_id.
    now apply NoDup_map_filter.
Qed.
End GameLog.

(** C9 (counterexample). Two rows of [player_passing] for one game and
    player give two rows of the log for that game. *)
Lemma game_log_row_per_joined_row :
  map (fun r => (lg_game_id r, lg_pass_yds r))
    (getPlayerGameLog duplicate_passing_row "P" None)
  = [("2009-01", Some 300); ("2009-01", Some 300)].
Proof. vm_compute. reflexivity. Qed.

Lemma played_iff (db : Database) (playerId : string) (g : Game) :
  played db playerId g = true <->
  (exists pp, In pp (player_passing db) /\ pp_game_id pp = g_game_id g
              /\ pp_player_id pp = playerId)
  \/ (exists pr, In pr (player_rushing db) /\ pr_game_id pr = g_game_id g
                 /\ pr_player_id pr = playerId)
  \/ (exists rec, In rec (player_receiving db) /\ rec_game_id rec = g_game_id g
                  /\ rec_player_id rec = playerId).
Proof.
  unfold played, passing_row, rushing_row, receiving_row.
  rewrite !is_some_find, !orb_true_iff, !existsb_exists.
  assert (forall a b c d : string,
            (a == b) && (c == d) = true <-> a = b /\ c = d) as E
    by (intros; now rewrite andb_true_iff, !String.eqb_eq).
  split.
  - intros [[[x [Hx H]] | [x [Hx H]]] | [x [Hx H]]]; apply E in H;
      [left | right; left | right; right]; exists x; tauto.
  - intros [[x [Hx H]] | [[x [Hx H]] | [x [Hx H]]]];
      [left; left | left; right | right]; exists x;
      (split; [exact Hx | apply E; exact H]).
Qed.

Lemma season_clause_iff (season : option Z) (g : Game) :
  season_clause season g = true <->
  match season with
  | Some y => y = 0 \/ g_season g = y
  | None => True
  end.
Proof.
  unfold season_clause. destruct season as [y|]; [|tauto].
  destruct (y =? 0) eqn:E.
  - apply Z.eqb_eq in E. tauto.
  - apply Z.eqb_neq in E. rewrite Z.eqb_eq. tauto.
Qed.

(** C9 (amended). With one row per game in [games] and at most one row per
    game and player in each of [player_passing], [player_rushing] and
    [player_receiving]: the game log of a player holds exactly one row for
    each game that is not a preseason game, passes the season filter (a
    season of 0 filters nothing) and in which the player has a passing,
    rushing or receiving row; the defensive tables are not read.  The row
    carries the columns of the game and, left-joined, the statistic columns
    of the player's row of that game in each of the three tables, NULL
    where the player has no row in the table.  No preseason game is ever
    listed, with or without a season filter. *)
Theorem game_log_one_row_per_game (db : Database) (playerId : string)
  (season : option Z) :
  NoDup (map g_game_id (games db)) ->
  NoDup (map (fun s => (pp_game_id s, pp_player_id s)) (player_passing db)) ->
  NoDup (map (fun s => (pr_game_id s, pr_player_id s)) (player_rushing db)) ->
  NoDup (map (fun s => (rec_game_id s, rec_player_id s)) (player_receiving db)) ->
  let log := getPlayerGameLog db playerId season in
  NoDup (map lg_game_id log)
  /\ (forall g, In g (games db) ->
        (In (g_game_id g) (map lg_game_id log)
         <-> ((exists pp, In pp (player_passing db)
                          /\ pp_game_id pp = g_game_id g
                          /\ pp_player_id pp = playerId)
              \/ (exists pr, In pr (player_rushing db)
                             /\ pr_game_id pr = g_game_id g
                             /\ pr_player_id pr = playerId)
              \/ (exists rec, In rec (player_receiving db)
                              /\ rec_game_id rec = g_game_id g
                              /\ rec_player_id rec = playerId))
             /\ g_game_type g <> "preseason"
             /\ match season with
                | Some y => y = 0 \/ g_season g = y
                | None => True
                end))
  /\ (forall r, In r log ->
        lg_game_type r <> "preseason"
        /\ exists g,
             In g (games db)
             /\ r = {| lg_game_id := g_game_id g;
                       lg_season := g_season g;
                       lg_game_date := g_game_date g;
                       lg_opponent := g_opponent g;
                       lg_home_away := g_home_away g;
                       lg_saints_score := g_saints_score g;
                       lg_opponent_score := g_opponent_score g;
                       lg_result := g_result g;
                       lg_game_type := g_game_type g;
                       lg_pass_att :=
                         option_map pp_att (passing_row db (g_game_id g) playerId);
                       lg_pass_com :=
                         option_map pp_com (passing_row db (g_game_id g) playerId);
                       lg_pass_yds :=
                         option_map pp_yds (passing_row db (g_game_id g) playerId);
                       lg_pass_td :=
                         option_map pp_td (passing_row db (g_game_id g) playerId);
                       lg_pass_int :=
                         option_map pp_int_thrown
                           (passing_row db (g_game_id g) playerId);
                       lg_pass_rtg :=
                         option_map pp_rtg (passing_row db (g_game_id g) playerId);
                       lg_rush_att :=
                         option_map pr_att (rushing_row db (g_game_id g) playerId);
                       lg_rush_yds :=
                         option_map pr_yds (rushing_row db (g_game_id g) playerId);
                       lg_rush_td :=
                         option_map pr_td (rushing_row db (g_game_id g) playerId);
                       lg_rec :=
                         option_map rec_rec
                           (receiving_row db (g_game_id g) playerId);
                       lg_rec_yds :=
                         option_map rec_yds
                           (receiving_row db (g_game_id g) playerId);
                       lg_rec_td :=
                         option_map rec_td
                           (receiving_row db (g_game_id g) playerId) |}).
Proof.
  intros Kg Kp Kr Kc log. unfold log.
  assert (forall g, game_log_where season (game_log_join_of db playerId g) = true
                    <-> played db playerId g = true
                        /\ g_game_type g <> "preseason"
                        /\ season_clause season g = true) as W.
  { intros g. rewrite game_log_where_of, !andb_true_iff, negb_true_iff.
    rewrite String.eqb_neq. tauto. }
  split; [now apply game_log_ids_NoDup|]. split.
  - intros g Hg. rewrite <- played_iff, <- season_clause_iff, <- W.
    rewrite in_map_iff. split.
    + intros [r [E Hr]].
      apply (in_game_log db playerId Kp Kr Kc) in Hr.
      destruct Hr as [g' [Hg' [Hw ->]]].
      cbn [lg_game_id game_log_select] in E.
      change (gj_g (game_log_join_of db playerId g')) with g' in E.
      now rewrite <- (NoDup_map_inj g_game_id (games db) g' g Kg Hg' Hg E).
    + intros Hw. exists (game_log_select (game_log_join_of db playerId g)).
      split; [reflexivity|].
      apply (in_game_log db playerId Kp Kr Kc). exists g. auto.
  - intros r Hr. apply (in_game_log db playerId Kp Kr Kc) in Hr.
    destruct Hr as [g [Hg [Hw ->]]]. split.
    + apply W in Hw. cbn [lg_game_type game_log_select]. tauto.
    + exists g. split; [assumption | reflexivity].
Qed.

(** On [game_log_example], whose tables satisfy the keys, with the season
    2009: the playoff game is listed, with its passing and rushing columns
    and NULL receiving columns; the preseason game is not. *)
Lemma game_log_one_row_per_game_witness :
  NoDup (map lg_game_id (getPlayerGameLog game_log_example "P" (Some 2009)))
  /\ In "2009-p1"
       (map lg_game_id (getPlayerGameLog game_log_example "P" (Some 2009)))
  /\ ~ In "2009-00"
         (map lg_game_id (getPlayerGameLog game_log_example "P" (Some 2009)))
  /\ forall r, In r (getPlayerGameLog game_log_example "P" (Some 2009)) ->
       lg_game_type r <> "preseason"
       /\ (lg_game_id r = "2009-p1" ->
           lg_pass_yds r = Some 250 /\ lg_rush_yds r = Some 7
           /\ lg_rec_yds r = None).
Proof.
  destruct (game_log_one_row_per_game game_log_example "P" (Some 2009))
    as (N & M & R).
  - repeat constructor; simpl; intuition discriminate.
  - repeat constructor; simpl; intuition discriminate.
  - repeat constructor; simpl; intuition discriminate.
  - repeat constructor; simpl; intuition discriminate.
  - split; [exact N|]. split; [|split].
    + apply (M (game "2009-p1" 2009 "playoff")); [simpl; tauto|].
      split; [|split].
      * left. exists (passing "2009-p1" "P" 250). simpl. tauto.
      * discriminate.
      * right. reflexivity.
    + intros H.
      apply (M (game "2009-00" 2009 "preseason")) in H; [|simpl; tauto].
      destruct H as (_ & T & _). apply T. reflexivity.
    + intros r Hr. destruct (R r Hr) as (T & g & Hg & E). split; [exact T|].
      intros I. rewrite E in I |- *. cbn [lg_game_id] in I.
      simpl in Hg.
      repeat (destruct Hg as [<- | Hg];
              [try discriminate I; vm_compute; repeat split|]).
      destruct Hg.
Defined.

(** The log of the example: the playoff game carries passing and rushing
    columns and NULL receiving columns, the regular-season game passing
    columns only; the preseason game, the game with tackles only and the
    game without a row are absent. *)
Lemma game_log_example_rows :
  map (fun r => (lg_game_id r, lg_pass_yds r, lg_rush_yds r, lg_rec_yds r))
    (getPlayerGameLog game_log_example "P" (Some 2009)) =
  [ ("2009-p1", Some 250, Some 7, None); ("2009-01", Some 300, None, None) ]
  /\ map lg_game_id (getPlayerGameLog game_log_example "P" None) =
     ["2010-01"; "2009-p1"; "2009-01"].
Proof. split; vm_compute; reflexivity. Qed.

(** ** Player search *)

Lemma like_any_run (rest t : string) :
  like (String "%" rest) t =
  like rest t
  || match t with
     | EmptyString => false
     | String _ t' => like (String "%" rest) t'
     end.
Proof. destruct t; reflexivity. Qed.

Lemma like_letter (c : ascii) (rest t : string) :
  Ascii.eqb c "%" = false -> Ascii.eqb c "_" = false ->
  like (String c rest) t =
  match t with
  | EmptyString => false
  | String d t' => ci_eqb c d && like rest t'
  end.
Proof. intros H1 H2. cbn [like]. rewrite H1, H2. reflexivity. Qed.

Lemma like_trailing_run (t : string) : like "%" t = true.
Proof.
  induction t as [|d t IH]; rewrite like_any_run.
  - reflexivity.
  - rewrite IH. apply orb_true_r.
Qed.

(** Without wildcards in [q], [q%] matches the texts that start with
    [q]. *)
Lemma like_prefix (q t : string) :
  wildcard_free q = true -> like (q ++ "%") t = prefix_ci q t.
Proof.
  revert t. induction q as [|c q IH]; intros t W.
  - apply like_trailing_run.
  - cbn [wildcard_free] in W. rewrite !andb_true_iff, !negb_true_iff in W.
    destruct W as [[W1 W2] W3].
    change (String c q ++ "%")%string with (String c (q ++ "%")).
    rewrite (like_letter c _ t W1 W2). cbn [prefix_ci].
    destruct t as [|d t]; [reflexivity|]. now rewrite IH.
Qed.

(** ... and [%q%] the texts that contain [q]. *)
Lemma like_substring (q t : string) :
  wildcard_free q = true -> like (search_pattern q) t = contains_ci q t.
Proof.
  intros W. unfold search_pattern.
  change ("%" ++ q ++ "%")%string with (String "%" (q ++ "%")).
  induction t as [|d t IH]; rewrite like_any_run, (like_prefix q _ W).
  - reflexivity.
  - cbn [contains_ci]. now rewrite IH.
Qed.

Lemma opt_max_assoc (a b c : option Z) :
  opt_max a (opt_max b c) = opt_max (opt_max a b) c.
Proof. destruct a, b, c; simpl; f_equal; lia. Qed.

Lemma opt_min_assoc (a b c : option Z) :
  opt_min a (opt_min b c) = opt_min (opt_min a b) c.
Proof. destruct a, b, c; simpl; f_equal; lia. Qed.

Lemma sql_max_app (l l' : list (option Z)) :
  sql_max (l ++ l') = opt_max (sql_max l) (sql_max l').
Proof.
  unfold sql_max. induction l as [|a l IH]; simpl.
  - reflexivity.
  - now rewrite IH, opt_max_assoc.
Qed.

Lemma sql_min_app (l l' : list (option Z)) :
  sql_min (l ++ l') = opt_min (sql_min l) (sql_min l').
Proof.
  unfold sql_min. induction l as [|a l IH]; simpl.
  - reflexivity.
  - now rewrite IH, opt_min_assoc.
Qed.

(** [ORDER BY 1 DESC LIMIT 1] over three values: the largest, NULLs
    aside. *)
Lemma first_of_descending (a b c : option Z) :
  scalar (limit 1 (order_by (fun x y => null_leb y x) ([a] ++ [b] ++ [c]))) =
  opt_max a (opt_max b c).
Proof.
  unfold limit; change (Z.to_nat 1) with 1%nat.
  destruct a as [a|], b as [b|], c as [c|]; cbn;
    repeat match goal with
           | |- context [?x <=? ?y] => destruct (Z.leb_spec x y); cbn
           end;
    f_equal; lia.
Qed.

(** [ORDER BY 1 LIMIT 1] over three values: NULL as soon as one of them is
    NULL, their minimum otherwise. *)
Lemma first_of_ascending (a b c : option Z) :
  scalar (limit 1 (order_by null_leb ([a] ++ [b] ++ [c]))) =
  match a, b, c with
  | Some x, Some y, Some z => Some (Z.min x (Z.min y z))
  | _, _, _ => None
  end.
Proof.
  unfold limit; change (Z.to_nat 1) with 1%nat.
  destruct a as [a|], b as [b|], c as [c|]; cbn;
    repeat match goal with
           | |- context [?x <=? ?y] => destruct (Z.leb_spec x y); cbn
           end;
    f_equal; lia.
Qed.

Lemma sql_min_seasons_none {S : Type} (rows : list (S * Game)) :
  sql_min (seasons_of rows) = None <-> rows = [].
Proof.
  destruct rows as [|r rows].
  - cbn. tauto.
  - split; [|discriminate]. intros H. exfalso.
    unfold sql_min, seasons_of in H. cbn [map fold_right] in H.
    match type of H with
    | opt_min _ ?x = None => destruct x; discriminate
    end.
Qed.

Section SearchSeasons.
Variable db : Database.
Variable playerId : string.

(** [last_season] is the latest season of the passing, rushing and
    receiving appearances; the defensive tables are not read. *)
Lemma search_last_season_max :
  search_last_season db playerId = sql_max (offense_seasons db playerId).
Proof.
  unfold search_last_season, offense_seasons.
  rewrite first_of_descending, !sql_max_app. reflexivity.
Qed.

(** [first_season] is their earliest season when the player has appeared
    in all three categories... *)
Lemma search_first_season_min :
  stat_game_of pp_game_id pp_player_id (player_passing db) db playerId <> [] ->
  stat_game_of pr_game_id pr_player_id (player_rushing db) db playerId <> [] ->
  stat_game_of rec_game_id rec_player_id (player_receiving db) db playerId <> [] ->
  search_first_season db playerId = sql_min (offense_seasons db playerId).
Proof.
  intros Hp Hr Hc.
  unfold search_first_season, offense_seasons.
  rewrite first_of_ascending, !sql_min_app.
  rewrite <- sql_min_seasons_none in Hp.
  rewrite <- sql_min_seasons_none in Hr.
  rewrite <- sql_min_seasons_none in Hc.
  destruct (sql_min (seasons_of (stat_game_of pp_game_id _ _ _ _))); [|tauto].
  destruct (sql_min (seasons_of (stat_game_of pr_game_id _ _ _ _))); [|tauto].
  destruct (sql_min (seasons_of (stat_game_of rec_game_id _ _ _ _))); [|tauto].
  reflexivity.
Qed.

(** ... and NULL as soon as one category is empty, because NULL is ordered
    first. *)
Lemma search_first_season_null :
  stat_game_of pp_game_id pp_player_id (player_passing db) db playerId = []
  \/ stat_game_of pr_game_id pr_player_id (player_rushing db) db playerId = []
  \/ stat_game_of rec_game_id rec_player_id (player_receiving db) db playerId = [] ->
  search_first_season db playerId = None.
Proof.
  intros H. unfold search_first_season. rewrite first_of_ascending.
  rewrite <- (sql_min_seasons_none (stat_game_of pp_game_id _ _ _ _)) in H.
  rewrite <- (sql_min_seasons_none (stat_game_of pr_game_id _ _ _ _)) in H.
  rewrite <- (sql_min_seasons_none (stat_game_of rec_game_id _ _ _ _)) in H.
  destruct H as [-> | [-> | ->]].
  - reflexivity.
  - destruct (sql_min _); reflexivity.
  - destruct (sql_min _); [destruct (sql_min _)|]; reflexivity.
Qed.
End SearchSeasons.

Lemma opt_Z_eqb_eq (a b : option Z) : opt_Z_eqb a b = true <-> a = b.
Proof.
  destruct a, b; simpl; try rewrite Z.eqb_eq;
    split; intros; try congruence; try discriminate.
Qed.

Lemma opt_string_eqb_eq (a b : option string) : opt_string_eqb a b = true <-> a = b.
Proof.
  destruct a, b; simpl; try rewrite String.eqb_eq;
    split; intros; try congruence; try discriminate.
Qed.

Lemma search_row_eqb_eq (a b : SearchRow) : search_row_eqb a b = true <-> a = b.
Proof.
  unfold search_row_eqb. rewrite !andb_true_iff, !String.eqb_eq,
    opt_string_eqb_eq, !opt_Z_eqb_eq.
  destruct a, b; simpl. split.
  - intros [[[[-> ->] ->] ->] ->]. reflexivity.
  - intros E. inversion E. tauto.
Qed.

Lemma in_search_universe (q : string) (db : Database) (r : SearchRow) :
  In r (search_universe q db) <->
  exists p, In p (players db)
            /\ like (search_pattern q) (p_player_name p) = true
            /\ recognized p = true
            /\ r = search_select db p.
Proof.
  unfold search_universe.
  rewrite (distinct_In search_row_eqb search_row_eqb_eq), in_map_iff.
  split.
  - intros [p [E Hp]]. apply filter_In in Hp. destruct Hp as [Hp Hc].
    apply andb_true_iff in Hc. exists p. intuition.
  - intros [p [Hp [Hl [Hr E]]]]. exists p. split; [now symmetry|].
    apply filter_In. split; [assumption|]. now rewrite Hl, Hr.
Qed.

(** C10 (counterexample). A query holding a wildcard returns players whose
    name does not contain it; a limit below the number of matches leaves
    matching players out.  (And [first_season] of a player who only passed
    is NULL, not 2009.) *)
Lemma search_is_like_and_limited :
  (exists r, In r (searchPlayers "_" 50 search_example)
             /\ contains_ci "_" (sr_name r) = false)
  /\ (contains_ci "o" "Drew Brees" = false
      /\ contains_ci "e" "Drew Brees" = true
      /\ contains_ci "B" "Bo" = true
      /\ map sr_name (searchPlayers "B" 1 search_example) = ["Bo"])
  /\ map (fun r => (sr_name r, sr_first_season r, sr_last_season r))
       (searchPlayers "drew" 50 search_example)
     = [("Drew Brees", None, Some 2010)].
Proof.
  split; [|split].
  - eexists. split; [vm_compute; left; reflexivity | reflexivity].
  - repeat split.
  - vm_compute. reflexivity.
Qed.

(** [ORDER BY p.player_name] compares texts byte by byte. *)
Lemma string_leb_trans (a b c : string) :
  String.leb a b = true -> String.leb b c = true -> String.leb a c = true.
Proof.
  revert b c. unfold String.leb.
  induction a as [|x a IH]; intros [|y b] [|z c]; cbn [String.compare];
    try (intros; reflexivity); try (intros; discriminate).
  unfold Ascii.compare.
  destruct (N.compare_spec (N_of_ascii x) (N_of_ascii y)) as [E1 | L1 | G1];
    destruct (N.compare_spec (N_of_ascii y) (N_of_ascii z)) as [E2 | L2 | G2];
    destruct (N.compare_spec (N_of_ascii x) (N_of_ascii z)) as [E3 | L3 | G3];
    intros H1 H2; try reflexivity; try discriminate; try lia.
  now apply (IH b c).
Qed.

Lemma search_players_sorted (q : string) (limit : Z) (db : Database) :
  StronglySorted (fun a b => String.leb (sr_name a) (sr_name b) = true)
    (searchPlayers q limit db).
Proof.
  unfold searchPlayers. apply limit_sorted.
  apply (order_by_sorted (fun a b => String.leb (sr_name a) (sr_name b))).
  - intros a b. apply String.leb_total.
  - intros a b c. apply string_leb_trans.
Qed.

(** C10 (amended). For a query without [%] and [_], the search returns
    recognized players whose name contains the query as a case-insensitive
    substring, each row once, in name order and cut to [limit] rows: a
    matching player the cut leaves out does not precede, in name order, any
    player returned, and all matching players are returned when the limit
    does not cut or fewer than [limit] rows come back.
    Each row is annotated with [last_season], the latest season over the
    player's passing, rushing and receiving appearances, and, for a player
    who has appeared in all three categories, with [first_season], the
    earliest such season.  The defensive tables are not read. *)
Theorem search_players_substring (q : string) (limit : Z) (db : Database) :
  wildcard_free q = true ->
  let rows := searchPlayers q limit db in
  (forall r,
     In r rows ->
     exists p,
       In p (players db)
       /\ recognized p = true
       /\ contains_ci q (p_player_name p) = true
       /\ sr_id r = p_player_id p
       /\ sr_name r = p_player_name p
       /\ sr_position r = p_position p
       /\ sr_last_season r = sql_max (offense_seasons db (p_player_id p))
       /\ (stat_game_of pp_game_id pp_player_id (player_passing db) db
             (p_player_id p) <> [] ->
           stat_game_of pr_game_id pr_player_id (player_rushing db) db
             (p_player_id p) <> [] ->
           stat_game_of rec_game_id rec_player_id (player_receiving db) db
             (p_player_id p) <> [] ->
           sr_first_season r = sql_min (offense_seasons db (p_player_id p))))
  /\ NoDup rows
  /\ StronglySorted (fun a b => String.leb (sr_name a) (sr_name b) = true) rows
  /\ (0 <= limit -> Z.of_nat (List.length rows) <= limit)
  /\ (forall p,
        In p (players db) ->
        recognized p = true ->
        contains_ci q (p_player_name p) = true ->
        In (search_select db p) rows
        \/ forall r, In r rows ->
             String.leb (sr_name r) (p_player_name p) = true)
  /\ (limit < 0 \/ Z.of_nat (List.length rows) < limit ->
      forall p,
        In p (players db) ->
        recognized p = true ->
        contains_ci q (p_player_name p) = true ->
        In (search_select db p) rows)
  /\ (limit < 0 \/ Z.of_nat (List.length (search_universe q db)) <= limit ->
      forall p,
        In p (players db) ->
        recognized p = true ->
        contains_ci q (p_player_name p) = true ->
        In (search_select db p) rows).
Proof.
  intros W rows. unfold rows.
  split; [|split; [|split; [|split; [|split; [|split]]]]].
  - intros r H. unfold searchPlayers in H.
    apply limit_In, order_by_In, in_search_universe in H.
    destruct H as [p [Hp [Hl [Hr ->]]]].
    rewrite (like_substring q _ W) in Hl.
    exists p. cbn [search_select sr_id sr_name sr_position sr_last_season
                   sr_first_season].
    repeat split; try assumption.
    + apply search_last_season_max.
    + apply search_first_season_min.
  - unfold searchPlayers. apply NoDup_limit.
    apply (Permutation_NoDup (Permutation_sym (order_by_perm _ _))).
    apply distinct_NoDup. apply search_row_eqb_eq.
  - apply search_players_sorted.
  - unfold searchPlayers. apply limit_length.
  - intros p Hp Hr Hc.
    assert (In (search_select db p)
              (order_by (fun a b => String.leb (sr_name a) (sr_name b))
                 (search_universe q db))) as Hin.
    { apply order_by_In, in_search_universe. exists p.
      rewrite (like_substring q _ W). auto. }
    unfold searchPlayers.
    rewrite <- (limit_dropped limit
                  (order_by (fun a b => String.leb (sr_name a) (sr_name b))
                     (search_universe q db))) in Hin.
    apply in_app_or in Hin. destruct Hin as [Hin | Hin]; [now left | right].
    intros r Hrow.
    apply (limit_keeps_the_first
             (fun a b => String.leb (sr_name a) (sr_name b) = true) limit
             (order_by (fun a b => String.leb (sr_name a) (sr_name b))
                (search_universe q db))
             (order_by_sorted (fun a b => String.leb (sr_name a) (sr_name b))
                (fun a b => String.leb_total (sr_name a) (sr_name b))
                (fun a b c => string_leb_trans (sr_name a) (sr_name b) (sr_name c))
                (search_universe q db))
             r (search_select db p) Hrow Hin).
  - intros Hlim p Hp Hr Hc. unfold searchPlayers in *.
    rewrite (limit_not_cut _ _ Hlim).
    apply order_by_In, in_search_universe. exists p.
    rewrite (like_substring q _ W). auto.
  - intros Hlim p Hp Hr Hc. unfold searchPlayers.
    rewrite limit_all.
    + apply order_by_In, in_search_universe. exists p.
      rewrite (like_substring q _ W). auto.
    + rewrite (Permutation_length (order_by_perm _ _)). exact Hlim.
Qed.

(** On [all_purpose_example]: the one match of the query [bush]. *)
Lemma search_players_substring_witness :
  exists p,
    In p (players all_purpose_example)
    /\ recognized p = true
    /\ contains_ci "bush" (p_player_name p) = true
    /\ sql_max (offense_seasons all_purpose_example (p_player_id p)) = Some 2008
    /\ sql_min (offense_seasons all_purpose_example (p_player_id p)) = Some 2006.
Proof.
  destruct (proj1 (search_players_substring "bush" 50 all_purpose_example
                     eq_refl)
              {| sr_id := "R"; sr_name := "Reggie Bush"; sr_position := None;
                 sr_first_season := Some 2006; sr_last_season := Some 2008 |})
    as [p [Hp [Hr [Hc [Hid [_ [_ [Hl Hf]]]]]]]].
  - vm_compute. left. reflexivity.
  - exists p. cbn [sr_id sr_last_season sr_first_season] in Hid, Hl, Hf.
    rewrite <- Hid in *. repeat split; assumption.
Defined.

(** ** Sums over a partition *)

Lemma sum_Z_perm (l l' : list Z) : Permutation l l' -> sum_Z l = sum_Z l'.
Proof.
  unfold sum_Z.
  induction 1 as [| x l l' _ IH | x y l | l l' l'' _ IH1 _ IH2]; simpl; lia.
Qed.

Lemma sum_Z_concat (ls : list (list Z)) :
  sum_Z (List.concat ls) = sum_Z (map sum_Z ls).
Proof.
  induction ls as [|l t IH]; simpl.
  - reflexivity.
  - rewrite sum_Z_app, IH. reflexivity.
Qed.

Lemma filter_split_perm {A : Type} (P : A -> bool) (l : list A) :
  Permutation (filter P l ++ filter (fun a => negb (P a)) l) l.
Proof.
  induction l as [|a t IH]; simpl.
  - constructor.
  - destruct (P a); simpl.
    + now apply perm_skip.
    + apply Permutation_sym, Permutation_cons_app, Permutation_sym, IH.
Qed.

Lemma filter_filter_ext {A : Type} (P Q : A -> bool) (l : list A) :
  (forall a, In a l -> Q a = true -> P a = true) ->
  filter Q (filter P l) = filter Q l.
Proof.
  induction l as [|a t IH]; intros H; simpl.
  - reflexivity.
  - destruct (P a) eqn:Pa; simpl.
    + destruct (Q a); rewrite IH; try reflexivity;
        intros b Hb; apply H; now right.
    + destruct (Q a) eqn:Qa.
      * rewrite (H a (or_introl eq_refl) Qa) in Pa. discriminate.
      * apply IH. intros b Hb. apply H. now right.
Qed.

Section Partition.
Context {K : Type} (eqb : K -> K -> bool).
Hypothesis eqb_eq : forall a b, eqb a b = true <-> a = b.
Context {R : Type} (key : R -> K).

Lemma groups_of_keys_perm (ks : list K) (l : list R) :
  NoDup ks -> (forall a, In a l -> In (key a) ks) ->
  Permutation (List.concat (map (fun k => filter (fun a => eqb k (key a)) l) ks)) l.
Proof.
  intros ND. revert l. induction ND as [|k ks Hk ND IH]; intros l Hin.
  - destruct l as [|a t]; [constructor|].
    destruct (Hin a (or_introl eq_refl)).
  - cbn [map List.concat].
    eapply Permutation_trans;
      [|apply (filter_split_perm (fun a => eqb k (key a)))].
    apply Permutation_app_head.
    rewrite <- (IH (filter (fun a => negb (eqb k (key a))) l)).
    + apply Permutation_refl'. f_equal. apply map_ext_in.
      intros k' Hk'. symmetry. apply filter_filter_ext.
      intros a _ E. apply eqb_eq in E. subst k'.
      destruct (eqb k (key a)) eqn:Ek; [|reflexivity].
      apply eqb_eq in Ek. subst k. contradiction.
    + intros a Ha. apply filter_In in Ha. destruct Ha as [Ha Hne].
      destruct (Hin a Ha) as [E | H]; [|exact H].
      subst k. assert (eqb (key a) (key a) = true) as T by now apply eqb_eq.
      rewrite T in Hne. discriminate.
Qed.

(** The groups of [GROUP BY] partition the rows. *)
Lemma group_by_partition (l : list R) :
  Permutation (List.concat (map snd (group_by eqb key l))) l.
Proof.
  unfold group_by. rewrite map_map. cbn [snd].
  apply groups_of_keys_perm.
  - now apply distinct_NoDup.
  - intros a Ha. rewrite (distinct_In eqb eqb_eq). now apply in_map.
Qed.

(** A sum over the rows is the sum of the sums over the groups. *)
Lemma group_by_sum (f : R -> Z) (l : list R) :
  sum_Z (map (fun kg => sum_Z (map f (snd kg))) (group_by eqb key l))
  = sum_Z (map f l).
Proof.
  rewrite <- (sum_Z_perm _ _ (Permutation_map f (group_by_partition l))).
  rewrite concat_map, sum_Z_concat, !map_map. reflexivity.
Qed.
End Partition.

Lemma Z_eqb_iff (a b : Z) : (a =? b) = true <-> a = b.
Proof. apply Z.eqb_eq. Qed.

Lemma count_rows_sum {A : Type} (l : list A) :
  count_rows l = sum_Z (map (fun _ => 1) l).
Proof.
  unfold count_rows, sum_Z.
  induction l as [|a t IH]; cbn [map fold_right List.length]; lia.
Qed.

Lemma coalesce_sum_nullable (l : list (option Z)) :
  coalesce (sql_sum_nullable l) 0 = sum_Z (map (fun o => coalesce o 0) l).
Proof.
  unfold sql_sum_nullable.
  assert (sum_Z (non_null l) = sum_Z (map (fun o => coalesce o 0) l)) as E.
  { unfold sum_Z, non_null. induction l as [|[x|] t IH]; simpl; lia. }
  rewrite <- E. unfold sql_sum. destruct (non_null l); reflexivity.
Qed.

Lemma coalesce_sql_sum (l : list Z) : coalesce (sql_sum l) 0 = sum_Z l.
Proof. destruct l; reflexivity. Qed.

(** [MIN] and [MAX] of a non-NULL column. *)
Lemma sql_min_spec (l : list Z) :
  match sql_min (map Some l) with
  | None => l = []
  | Some m => In m l /\ forall x, In x l -> m <= x
  end.
Proof.
  induction l as [|a t IH]; cbn [map sql_min fold_right]; [reflexivity|].
  fold (sql_min (map Some t)).
  destruct (sql_min (map Some t)) as [m|]; cbn [opt_min].
  - destruct IH as [Hm Hle]. split.
    + destruct (Z.min_spec a m) as [[_ ->] | [_ ->]]; [now left | now right].
    + intros x [<- | Hx]; [lia|]. specialize (Hle x Hx). lia.
  - subst t. split; [now left|]. intros x [<- | []]. lia.
Qed.

Lemma sql_max_spec (l : list Z) :
  match sql_max (map Some l) with
  | None => l = []
  | Some m => In m l /\ forall x, In x l -> x <= m
  end.
Proof.
  induction l as [|a t IH]; cbn [map sql_max fold_right]; [reflexivity|].
  fold (sql_max (map Some t)).
  destruct (sql_max (map Some t)) as [m|]; cbn [opt_max].
  - destruct IH as [Hm Hle]. split.
    + destruct (Z.max_spec a m) as [[_ ->] | [_ ->]]; [now right | now left].
    + intros x [<- | Hx]; [lia|]. specialize (Hle x Hx). lia.
  - subst t. split; [now left|]. intros x [<- | []]. lia.
Qed.

Lemma sql_min_same_members (l l' : list Z) :
  (forall x, In x l <-> In x l') ->
  sql_min (map Some l) = sql_min (map Some l').
Proof.
  intros H. pose proof (sql_min_spec l) as S1. pose proof (sql_min_spec l') as S2.
  destruct (sql_min (map Some l)) as [m|], (sql_min (map Some l')) as [m'|].
  - destruct S1 as [I1 L1], S2 as [I2 L2]. f_equal.
    pose proof (L1 m' (proj2 (H m') I2)). pose proof (L2 m (proj1 (H m) I1)). lia.
  - subst l'. destruct S1 as [I1 _]. apply H in I1. destruct I1.
  - subst l. destruct S2 as [I2 _]. apply H in I2. destruct I2.
  - reflexivity.
Qed.

Lemma sql_max_same_members (l l' : list Z) :
  (forall x, In x l <-> In x l') ->
  sql_max (map Some l) = sql_max (map Some l').
Proof.
  intros H. pose proof (sql_max_spec l) as S1. pose proof (sql_max_spec l') as S2.
  destruct (sql_max (map Some l)) as [m|], (sql_max (map Some l')) as [m'|].
  - destruct S1 as [I1 L1], S2 as [I2 L2]. f_equal.
    pose proof (L1 m' (proj2 (H m') I2)). pose proof (L2 m (proj1 (H m) I1)). lia.
  - subst l'. destruct S1 as [I1 _]. apply H in I1. destruct I1.
  - subst l. destruct S2 as [I2 _]. apply H in I2. destruct I2.
  - reflexivity.
Qed.

(** ** Seasons *)

Lemma result_case_count (c : string) (l : list Game) :
  sum_Z (map (result_case c) l) = count_rows (filter (result_is c) l).
Proof.
  unfold sum_Z, count_rows, result_case, result_is.
  induction l as [|g t IH]; cbn [map fold_right filter]; [reflexivity|].
  rewrite IH. destruct (g_result g) as [r|]; [destruct (r == c)|];
    cbn [List.length]; lia.
Qed.

Lemma result_cases_exclusive (g : Game) :
  result_case "W" g + result_case "L" g + result_case "T" g <= 1.
Proof.
  unfold result_case. destruct (g_result g) as [r|]; [|lia].
  destruct (r == "W") eqn:W, (r == "L") eqn:L, (r == "T") eqn:T; try lia;
    repeat match goal with
           | H : (_ == _) = true |- _ => apply String.eqb_eq in H; subst
           end; discriminate.
Qed.

Lemma season_rows (db : Database) :
  getSeasons db =
  order_by (desc ss_season)
    (map (fun y => season_summary_select y
                     (filter (fun g => y =? g_season g) (regular_games db)))
       (distinct Z.eqb (map g_season (regular_games db)))).
Proof.
  unfold getSeasons, select_keyed, group_by. rewrite map_map. reflexivity.
Qed.

Lemma season_keys (db : Database) :
  Permutation (map ss_season (getSeasons db))
    (distinct Z.eqb (map g_season (regular_games db))).
Proof.
  rewrite season_rows.
  eapply Permutation_trans; [apply Permutation_map, order_by_perm|].
  rewrite map_map. cbn [ss_season season_summary_select]. rewrite map_id.
  apply Permutation_refl.
Qed.

Lemma in_getSeasons (db : Database) (r : SeasonSummary) :
  In r (getSeasons db) <->
  In (ss_season r) (map g_season (regular_games db))
  /\ r = season_summary_select (ss_season r)
           (filter (fun g => ss_season r =? g_season g) (regular_games db)).
Proof.
  rewrite season_rows, order_by_In, in_map_iff. split.
  - intros [y [<- Hy]]. cbn [ss_season season_summary_select].
    rewrite (distinct_In Z.eqb Z_eqb_iff) in Hy. split; [exact Hy | reflexivity].
  - intros [Hy E]. exists (ss_season r). split; [now symmetry|].
    now rewrite (distinct_In Z.eqb Z_eqb_iff).
Qed.

Lemma seasons_descending (db : Database) :
  StronglySorted (fun a b => ss_season b < ss_season a) (getSeasons db).
Proof.
  apply (sorted_NoDup_strict ss_season
           (fun a b => ss_season b <= ss_season a)).
  - intros a b. lia.
  - eapply Permutation_NoDup; [apply Permutation_sym, season_keys|].
    apply (distinct_NoDup Z.eqb Z_eqb_iff).
  - unfold getSeasons. apply order_by_desc_sorted.
Qed.

Lemma season_column_sum (db : Database) (col : SeasonSummary -> Z)
  (f : Game -> Z) :
  (forall k g, col (season_summary_select k g) = sum_Z (map f g)) ->
  sum_Z (map col (getSeasons db)) = sum_Z (map f (regular_games db)).
Proof.
  intros H. unfold getSeasons.
  rewrite (sum_Z_perm _ _ (Permutation_map col (order_by_perm _ _))).
  unfold select_keyed. rewrite map_map.
  rewrite (map_ext _ (fun kg => sum_Z (map f (snd kg))))
    by (intros [k g]; apply H).
  apply (group_by_sum Z.eqb Z_eqb_iff).
Qed.

Lemma no_season_no_regular_game (db : Database) :
  getSeasons db = [] <-> regular_games db = [].
Proof.
  pose proof (season_keys db) as P. split; intros E.
  - rewrite E in P. apply Permutation_nil in P.
    destruct (regular_games db) as [|g t]; [reflexivity | discriminate].
  - rewrite E in P. apply Permutation_sym, Permutation_nil in P.
    destruct (getSeasons db); [reflexivity | discriminate].
Qed.

Lemma season_members (db : Database) (y : Z) :
  In y (map ss_season (getSeasons db)) <-> In y (map g_season (regular_games db)).
Proof.
  split; intros H.
  - apply (distinct_In Z.eqb Z_eqb_iff).
    eapply Permutation_in; [apply season_keys | exact H].
  - apply (distinct_In Z.eqb Z_eqb_iff) in H.
    eapply Permutation_in; [apply Permutation_sym, season_keys | exact H].
Qed.

(** X2. [getSeasons] lists every season that has a regular-season game
    once, newest first; the row of a season counts that season's
    regular-season games, and its wins, losses and ties are the games with
    result W, L and T, which never add up to more than the games. *)
Theorem seasons_one_row_each_newest_first (db : Database) :
  StronglySorted (fun a b => ss_season b < ss_season a) (getSeasons db)
  /\ (forall y, In y (map ss_season (getSeasons db)) <->
        exists g, In g (games db) /\ g_game_type g = "regular" /\ g_season g = y)
  /\ (forall r, In r (getSeasons db) ->
        let played := filter (fun g => ss_season r =? g_season g) (regular_games db) in
        ss_games r = count_rows played
        /\ ss_wins r = count_rows (filter (result_is "W") played)
        /\ ss_losses r = count_rows (filter (result_is "L") played)
        /\ ss_ties r = count_rows (filter (result_is "T") played)
        /\ 1 <= ss_games r
        /\ ss_wins r + ss_losses r + ss_ties r <= ss_games r).
Proof.
  split; [apply seasons_descending|]. split.
  - intros y. rewrite season_members, in_map_iff. unfold regular_games.
    split.
    + intros [g [E Hg]]. apply filter_In in Hg. destruct Hg as [Hg Hr].
      exists g. repeat split; try assumption. now apply String.eqb_eq.
    + intros [g [Hg [Hr E]]]. exists g. split; [exact E|].
      apply filter_In. split; [exact Hg|]. now apply String.eqb_eq.
  - intros r Hr played. apply in_getSeasons in Hr. destruct Hr as [Hy E].
    fold played in E.
    assert (ss_games r = count_rows played) as G by now rewrite E.
    assert (ss_wins r = sum_Z (map (result_case "W") played)) as W by now rewrite E.
    assert (ss_losses r = sum_Z (map (result_case "L") played)) as L by now rewrite E.
    assert (ss_ties r = sum_Z (map (result_case "T") played)) as T by now rewrite E.
    rewrite <- !result_case_count. repeat split; try assumption.
    + rewrite G. unfold played, count_rows.
      apply (group_nonempty Z.eqb Z_eqb_iff) in Hy.
      destruct (filter _ (regular_games db)); [contradiction | simpl; lia].
    + rewrite G, W, L, T, count_rows_sum. clear. unfold sum_Z.
      induction played as [|g t IH]; cbn [map fold_right]; [lia|].
      pose proof (result_cases_exclusive g). lia.
Qed.

(** X3. The franchise summary adds up the season rows of [getSeasons]:
    games, points, and, when there is a season at all, wins, losses and
    ties; the win, loss and tie totals are NULL when there is none.  Its
    first and last season are the oldest and the newest season listed. *)
Theorem franchise_summary_adds_up_seasons (db : Database) :
  exists f, getFranchiseSummary db = Some f
    /\ fs_total_games f = sum_Z (map ss_games (getSeasons db))
    /\ fs_points_for f = sum_Z (map ss_points_for (getSeasons db))
    /\ fs_points_against f = sum_Z (map ss_points_against (getSeasons db))
    /\ fs_wins f = match getSeasons db with
                   | [] => None
                   | rows => Some (sum_Z (map ss_wins rows))
                   end
    /\ fs_losses f = match getSeasons db with
                     | [] => None
                     | rows => Some (sum_Z (map ss_losses rows))
                     end
    /\ fs_ties f = match getSeasons db with
                   | [] => None
                   | rows => Some (sum_Z (map ss_ties rows))
                   end
    /\ fs_first_season f = sql_min (map (fun r => Some (ss_season r)) (getSeasons db))
    /\ fs_last_season f = sql_max (map (fun r => Some (ss_season r)) (getSeasons db)).
Proof.
  unfold getFranchiseSummary, queryOne. cbn [hd_error].
  eexists. split; [reflexivity|].
  cbn [fs_total_games fs_points_for fs_points_against fs_wins fs_losses
       fs_ties fs_first_season fs_last_season].
  assert (forall (col : SeasonSummary -> Z) (f : Game -> Z),
    (forall k g, col (season_summary_select k g) = sum_Z (map f g)) ->
    sql_sum (map f (regular_games db)) =
    match getSeasons db with
    | [] => None
    | rows => Some (sum_Z (map col rows))
    end) as Cases.
  { intros col f H. pose proof (season_column_sum db col f H) as E.
    pose proof (no_season_no_regular_game db) as N.
    destruct (getSeasons db) as [|r t].
    - rewrite (proj1 N eq_refl). reflexivity.
    - destruct (regular_games db) as [|g l].
      + destruct N as [_ N]. discriminate (N eq_refl).
      + rewrite E. reflexivity. }
  repeat split.
  - rewrite count_rows_sum. symmetry. apply season_column_sum.
    intros k g. apply count_rows_sum.
  - rewrite coalesce_sum_nullable, map_map. symmetry. apply season_column_sum.
    intros k g. cbn [ss_points_for season_summary_select].
    now rewrite coalesce_sum_nullable, map_map.
  - rewrite coalesce_sum_nullable, map_map. symmetry. apply season_column_sum.
    intros k g. cbn [ss_points_against season_summary_select].
    now rewrite coalesce_sum_nullable, map_map.
  - apply Cases. reflexivity.
  - apply Cases. reflexivity.
  - apply Cases. reflexivity.
  - rewrite <- (map_map g_season Some), <- (map_map ss_season Some).
    apply sql_min_same_members. intros y. now rewrite season_members.
  - rewrite <- (map_map g_season Some), <- (map_map ss_season Some).
    apply sql_max_same_members. intros y. now rewrite season_members.
Qed.

(** X4. [getRecentSeasons(limit)] returns at most [limit] rows of
    [getSeasons], and they are the latest: every season it leaves out is
    older than every season it returns. *)
Theorem recent_seasons_are_the_latest (limit : Z) (db : Database) :
  (0 <= limit -> Z.of_nat (List.length (getRecentSeasons limit db)) <= limit)
  /\ (forall r, In r (getRecentSeasons limit db) -> In r (getSeasons db))
  /\ (forall r s, In r (getRecentSeasons limit db) -> In s (getSeasons db) ->
        ~ In s (getRecentSeasons limit db) -> ss_season s < ss_season r).
Proof.
  change (getRecentSeasons limit db) with (Sql.limit limit (getSeasons db)).
  split; [apply limit_length|]. split; [intros r; apply limit_In|].
  intros r s Hr Hs Hnot.
  apply (limit_keeps_the_first (fun a b => ss_season b < ss_season a) limit
           (getSeasons db) (seasons_descending db) r s Hr).
  rewrite <- (limit_dropped limit (getSeasons db)) in Hs.
  apply in_app_or in Hs. destruct Hs as [Hs | Hs]; [contradiction | exact Hs].
Qed.

(** ** The season page *)

Lemma filter_swap {A : Type} (P Q : A -> bool) (l : list A) :
  filter P (filter Q l) = filter Q (filter P l).
Proof.
  induction l as [|a t IH]; simpl; [reflexivity|].
  destruct (P a) eqn:Pa, (Q a) eqn:Qa; simpl; rewrite ?Pa, ?Qa, IH; reflexivity.
Qed.

Lemma count_rows_perm {A : Type} (l l' : list A) :
  Permutation l l' -> count_rows l = count_rows l'.
Proof. intros H. unfold count_rows. now rewrite (Permutation_length H). Qed.

Lemma page_regular_games (y : Z) (db : Database) :
  Permutation (filter (game_type_is "regular") (getSeasonGames y db))
    (filter (fun g => y =? g_season g) (regular_games db)).
Proof.
  unfold getSeasonGames, regular_games.
  eapply Permutation_trans; [apply perm_filter, order_by_perm|].
  rewrite filter_swap. apply Permutation_refl'.
  apply filter_ext. intros g. apply Z.eqb_sym.
Qed.

(** X5. Every season listed by [getSeasons] has a season page (the page
    does not answer not-found), and the record the page computes from the
    season's games is the record of the listed row: the same wins, losses
    and ties, and as many regular-season games. *)
Theorem listed_season_has_a_page (ch : BareColumns)
  (team_game_stats : list TeamGameStats) (db : Database) (r : SeasonSummary) :
  In r (getSeasons db) ->
  exists page,
    SeasonDetailPage ch team_game_stats (Num (ss_season r)) db = Some page
    /\ sp_wins page = ss_wins r
    /\ sp_losses page = ss_losses r
    /\ sp_ties page = ss_ties r
    /\ count_rows (sp_regular page) = ss_games r.
Proof.
  intros Hr. apply in_getSeasons in Hr. destruct Hr as [Hy E].
  set (y := ss_season r) in *.
  unfold SeasonDetailPage.
  destruct (getSeasonGames y db) as [|g0 t0] eqn:G.
  - exfalso. apply in_map_iff in Hy. destruct Hy as [g [Eg Hg]].
    unfold regular_games in Hg. apply filter_In in Hg. destruct Hg as [Hg _].
    assert (In g (getSeasonGames y db)) as Hin.
    { unfold getSeasonGames. rewrite order_by_In. apply filter_In.
      split; [exact Hg | now apply Z.eqb_eq]. }
    rewrite G in Hin. destruct Hin.
  - cbn [List.length Nat.eqb]. rewrite <- G. eexists. split; [reflexivity|].
    cbn [sp_wins sp_losses sp_ties sp_regular].
    pose proof (page_regular_games y db) as P.
    rewrite E. cbn [ss_wins ss_losses ss_ties ss_games season_summary_select].
    rewrite !result_case_count.
    repeat split; apply count_rows_perm;
      try apply perm_filter; exact P.
Qed.

Lemma listed_season_has_a_page_witness :
  exists r, In r (getSeasons two_seasons) /\ ss_season r = 2009
  /\ exists page,
       SeasonDetailPage first_row [] (Num (ss_season r)) two_seasons = Some page
       /\ sp_wins page = ss_wins r
       /\ sp_losses page = ss_losses r
       /\ sp_ties page = ss_ties r
       /\ count_rows (sp_regular page) = ss_games r.
Proof.
  exists {| ss_season := 2009; ss_wins := 1; ss_losses := 1; ss_ties := 0;
            ss_games := 3; ss_points_for := 55; ss_points_against := 44 |}.
  assert (In {| ss_season := 2009; ss_wins := 1; ss_losses := 1; ss_ties := 0;
                ss_games := 3; ss_points_for := 55; ss_points_against := 44 |}
             (getSeasons two_seasons)) as H by (vm_compute; tauto).
  split; [exact H|]. split; [reflexivity|].
  exact (listed_season_has_a_page first_row [] two_seasons _ H).
Defined.

(** ** Passing, rushing and receiving leaderboards *)

(** The rows a leaderboard ranks: sorted, cut to the limit, and the cut
    keeps the best. *)
Lemma ranked_and_cut {A : Type} (y : A -> Z) (n : Z) (universe : list A) :
  let rows := limit n (order_by (desc y) universe) in
  StronglySorted (fun a b => y b <= y a) rows
  /\ (0 <= n -> Z.of_nat (List.length rows) <= n)
  /\ (forall r, In r rows -> In r universe)
  /\ (forall r s, In r rows -> In s universe -> y r < y s -> In s rows)
  /\ (n < 0 \/ Z.of_nat (List.length rows) < n ->
      forall s, In s universe -> In s rows).
Proof.
  intros rows. unfold rows.
  pose proof (order_by_desc_sorted y universe) as S.
  split; [now apply limit_sorted|].
  split; [apply limit_length|].
  split; [intros r Hr; apply limit_In in Hr; now rewrite order_by_In in Hr|].
  split.
  - intros r s Hr Hs Hlt.
    apply (order_by_In (desc y)) in Hs.
    rewrite <- (limit_dropped n (order_by (desc y) universe)) in Hs.
    apply in_app_or in Hs. destruct Hs as [Hs | Hs]; [exact Hs|].
    pose proof (limit_keeps_the_first _ n _ S r s Hr Hs). cbn beta in *. lia.
  - intros H s Hs. rewrite (limit_not_cut _ _ H). now apply order_by_In.
Qed.

Lemma in_stat_player_game {S : Type} (game_id player_id : S -> string)
  (tbl : list S) (db : Database) (x : (S * Player) * Game) :
  In x (stat_player_game game_id player_id tbl db) <->
  In (spg_stat x) tbl /\ In (spg_p x) (players db) /\ In (spg_g x) (games db)
  /\ player_id (spg_stat x) = p_player_id (spg_p x)
  /\ game_id (spg_stat x) = g_game_id (spg_g x).
Proof.
  destruct x as [[s p] g]. unfold stat_player_game, spg_stat, spg_p, spg_g.
  cbn [fst snd]. rewrite !in_inner_join. cbn [fst snd].
  rewrite !String.eqb_eq. tauto.
Qed.

Section OffenseLeaders.
Context {S T : Type} (game_id player_id : S -> string) (total : list S -> T).

Lemma career_leaders_universe (yds : T -> Z) (ch : BareColumns)
  (tbl : list S) (limit : Z) (db : Database) :
  career_leaders game_id player_id total yds ch tbl limit db =
  Sql.limit limit
    (order_by (desc (fun r => yds (ld_totals r)))
       (career_universe game_id player_id total ch tbl db)).
Proof. reflexivity. Qed.

Lemma career_universe_ids (ch : BareColumns) (tbl : list S) (db : Database) :
  map (@ld_player_id T) (career_universe game_id player_id total ch tbl db) =
  distinct String.eqb
    (map (fun r => player_id (spg_stat r))
       (filter regular_recognized (stat_player_game game_id player_id tbl db))).
Proof.
  unfold career_universe, career_groups.
  rewrite <- (group_by_keys String.eqb).
  apply select_groups_keys.
  - intros k g Hg E. apply (in_group_by String.eqb String.eqb_eq) in Hg.
    destruct Hg as [Hk ->]. apply (group_nonempty String.eqb String.eqb_eq) in Hk.
    contradiction.
  - intros k g a Hg Ha. cbn [ld_player_id].
    apply (in_group_by String.eqb String.eqb_eq) in Hg. destruct Hg as [_ ->].
    apply filter_In in Ha. destruct Ha as [Ha Hk]. apply String.eqb_eq in Hk.
    apply filter_In in Ha. destruct Ha as [Ha _].
    apply in_stat_player_game in Ha. destruct Ha as (_ & _ & _ & E & _).
    congruence.
Qed.

Lemma in_career_universe_row (ch : BareColumns) (tbl : list S) (db : Database)
  (r : Leader T) :
  In r (career_universe game_id player_id total ch tbl db) ->
  let mine :=
    filter (fun x => ld_player_id r == player_id (spg_stat x))
      (filter regular_recognized (stat_player_game game_id player_id tbl db)) in
  mine <> []
  /\ ld_totals r = total (map spg_stat mine)
  /\ ld_games r = count_distinct (map (fun x => game_id (spg_stat x)) mine)
  /\ exists p, In p (players db) /\ recognized p = true
       /\ p_player_id p = ld_player_id r /\ p_player_name p = ld_player_name r.
Proof.
  intros Hr. unfold career_universe, career_groups in Hr.
  apply in_select_groups in Hr. destruct Hr as (k & g & a & Hg & Ha & ->).
  apply (in_group_by String.eqb String.eqb_eq) in Hg. destruct Hg as [Hk ->].
  cbn [ld_player_id ld_totals ld_games ld_player_name].
  pose proof Ha as Ha'.
  apply filter_In in Ha'. destruct Ha' as [Ha' Hka]. apply String.eqb_eq in Hka.
  apply filter_In in Ha'. destruct Ha' as [Hj Hrr].
  apply in_stat_player_game in Hj. destruct Hj as (_ & Hp & _ & E & _).
  assert (p_player_id (spg_p a) = k) as Ek by congruence.
  cbv zeta. rewrite Ek. repeat split.
  - intros N. rewrite N in Ha. destruct Ha.
  - exists (spg_p a). repeat split; try assumption.
    unfold regular_recognized in Hrr. apply andb_true_iff in Hrr. tauto.
Qed.
End OffenseLeaders.

(** X1. The career leaderboards of passing, rushing and receiving are
    ranked by yards, hold at most [limit] rows, and the cut keeps the best:
    a player of the leaderboard universe with more yards than a listed
    player is listed too, and when the limit is not reached every player of
    the universe is listed. *)
Theorem career_leaders_keep_the_best {S T : Type}
  (game_id player_id : S -> string) (total : list S -> T) (yds : T -> Z)
  (ch : BareColumns) (tbl : list S) (limit : Z) (db : Database) :
  let rows := career_leaders game_id player_id total yds ch tbl limit db in
  let universe := career_universe game_id player_id total ch tbl db in
  let y := fun r : Leader T => yds (ld_totals r) in
  StronglySorted (fun a b => y b <= y a) rows
  /\ (0 <= limit -> Z.of_nat (List.length rows) <= limit)
  /\ (forall r, In r rows -> In r universe)
  /\ (forall r s, In r rows -> In s universe -> y r < y s -> In s rows)
  /\ (limit < 0 \/ Z.of_nat (List.length rows) < limit ->
      forall s, In s universe -> In s rows).
Proof.
  intros rows universe y. unfold rows.
  rewrite career_leaders_universe.
  apply (ranked_and_cut y limit universe).
Qed.

(** X6. A career leaderboard lists no player twice.  The row of a player
    adds up the player's rows over regular-season games (there is at least
    one), counts their distinct games, and carries the name of a
    recognized player with that id. *)
Theorem career_leaders_one_row_per_player {S T : Type}
  (game_id player_id : S -> string) (total : list S -> T) (yds : T -> Z)
  (ch : BareColumns) (tbl : list S) (limit : Z) (db : Database) :
  let rows := career_leaders game_id player_id total yds ch tbl limit db in
  NoDup (map (@ld_player_id T) rows)
  /\ forall r, In r rows ->
       let mine :=
         filter (fun x => ld_player_id r == player_id (spg_stat x))
           (filter regular_recognized
              (stat_player_game game_id player_id tbl db)) in
       mine <> []
       /\ ld_totals r = total (map spg_stat mine)
       /\ ld_games r = count_distinct (map (fun x => game_id (spg_stat x)) mine)
       /\ exists p, In p (players db) /\ recognized p = true
            /\ p_player_id p = ld_player_id r
            /\ p_player_name p = ld_player_name r.
Proof.
  intros rows. unfold rows. rewrite career_leaders_universe. split.
  - rewrite map_limit. apply NoDup_limit.
    eapply Permutation_NoDup;
      [apply Permutation_sym, Permutation_map, order_by_perm|].
    rewrite career_universe_ids. apply (distinct_NoDup String.eqb String.eqb_eq).
  - intros r Hr. apply limit_In in Hr. rewrite order_by_In in Hr.
    exact (in_career_universe_row game_id player_id total ch tbl db r Hr).
Qed.

Section SeasonRecords.
Context {S T : Type} (game_id player_id : S -> string) (total : list S -> T).

Lemma season_records_universe (yds : T -> Z) (ch : BareColumns)
  (tbl : list S) (limit : Z) (db : Database) :
  season_records game_id player_id total yds ch tbl limit db =
  Sql.limit limit
    (order_by (desc (fun r => yds (rc_totals r)))
       (season_record_universe game_id player_id total ch tbl db)).
Proof. reflexivity. Qed.

Lemma season_record_keys (ch : BareColumns) (tbl : list S) (db : Database) :
  map (fun r : SeasonRecord T => (rc_player_id r, rc_season r))
    (season_record_universe game_id player_id total ch tbl db) =
  distinct pair_eqb
    (map (fun r => (player_id (spg_stat r), g_season (spg_g r)))
       (filter regular_recognized (stat_player_game game_id player_id tbl db))).
Proof.
  unfold season_record_universe, season_record_groups.
  rewrite <- (group_by_keys pair_eqb).
  apply select_groups_keys.
  - intros k g Hg E. apply (in_group_by pair_eqb pair_eqb_eq) in Hg.
    destruct Hg as [Hk ->]. apply (group_nonempty pair_eqb pair_eqb_eq) in Hk.
    contradiction.
  - intros k g a Hg Ha. cbn [rc_player_id rc_season].
    apply (in_group_by pair_eqb pair_eqb_eq) in Hg. destruct Hg as [_ ->].
    apply filter_In in Ha. destruct Ha as [Ha Hk]. apply pair_eqb_eq in Hk.
    apply filter_In in Ha. destruct Ha as [Ha _].
    apply in_stat_player_game in Ha. destruct Ha as (_ & _ & _ & E & _).
    subst k. cbn [fst snd]. now rewrite E.
Qed.

Lemma in_season_record_universe (ch : BareColumns) (tbl : list S)
  (db : Database) (r : SeasonRecord T) :
  In r (season_record_universe game_id player_id total ch tbl db) ->
  let mine :=
    filter (fun x => (rc_player_id r == player_id (spg_stat x))
                     && (rc_season r =? g_season (spg_g x)))
      (filter regular_recognized (stat_player_game game_id player_id tbl db)) in
  mine <> []
  /\ rc_totals r = total (map spg_stat mine)
  /\ rc_games r = count_distinct (map (fun x => game_id (spg_stat x)) mine).
Proof.
  intros Hr. unfold season_record_universe, season_record_groups in Hr.
  apply in_select_groups in Hr. destruct Hr as (k & g & a & Hg & Ha & ->).
  apply (in_group_by pair_eqb pair_eqb_eq) in Hg. destruct Hg as [Hk ->].
  cbn [rc_player_id rc_season rc_totals rc_games].
  pose proof Ha as Ha'.
  apply filter_In in Ha'. destruct Ha' as [Ha' Hka]. apply pair_eqb_eq in Hka.
  apply filter_In in Ha'. destruct Ha' as [Hj _].
  apply in_stat_player_game in Hj. destruct Hj as (_ & _ & _ & E & _).
  assert (p_player_id (spg_p a) = fst k) as Ek by (subst k; cbn [fst]; congruence).
  cbv zeta. rewrite Ek.
  change (fun x => (fst k == player_id (spg_stat x))
                   && (snd k =? g_season (spg_g x)))
    with (fun x : (S * Player) * Game =>
            pair_eqb k (player_id (spg_stat x), g_season (spg_g x))).
  repeat split. intros N. rewrite N in Ha. destruct Ha.
Qed.
End SeasonRecords.

(** X7. The season-record leaderboards of passing, rushing and receiving
    are ranked by yards and hold one row per player and season: the row
    adds up the player's rows over the regular-season games of that season
    and counts their distinct games. *)
Theorem season_records_one_row_per_player_season {S T : Type}
  (game_id player_id : S -> string) (total : list S -> T) (yds : T -> Z)
  (ch : BareColumns) (tbl : list S) (limit : Z) (db : Database) :
  let rows := season_records game_id player_id total yds ch tbl limit db in
  StronglySorted (fun a b => yds (rc_totals b) <= yds (rc_totals a)) rows
  /\ (0 <= limit -> Z.of_nat (List.length rows) <= limit)
  /\ NoDup (map (fun r : SeasonRecord T => (rc_player_id r, rc_season r)) rows)
  /\ forall r, In r rows ->
       let mine :=
         filter (fun x => (rc_player_id r == player_id (spg_stat x))
                          && (rc_season r =? g_season (spg_g x)))
           (filter regular_recognized
              (stat_player_game game_id player_id tbl db)) in
       mine <> []
       /\ rc_totals r = total (map spg_stat mine)
       /\ rc_games r = count_distinct (map (fun x => game_id (spg_stat x)) mine).
Proof.
  intros rows. unfold rows. rewrite season_records_universe.
  destruct (ranked_and_cut (fun r : SeasonRecord T => yds (rc_totals r)) limit
              (season_record_universe game_id player_id total ch tbl db))
    as (Sorted & Len & _).
  split; [exact Sorted|]. split; [exact Len|]. split.
  - rewrite map_limit. apply NoDup_limit.
    eapply Permutation_NoDup;
      [apply Permutation_sym, Permutation_map, order_by_perm|].
    rewrite season_record_keys. apply (distinct_NoDup pair_eqb pair_eqb_eq).
  - intros r Hr. apply limit_In in Hr. rewrite order_by_In in Hr.
    exact (in_season_record_universe game_id player_id total ch tbl db r Hr).
Qed.

(** X8. The single-game leaderboards of passing, rushing and receiving
    select the lines of kept joined rows: each is a line of the table by a
    recognized player in a regular-season game, they are ranked by yards
    and at most [limit], and a qualifying line with more yards than a kept
    one is kept too. *)
Theorem single_game_leaders_keep_the_best {S L : Type}
  (game_id player_id : S -> string) (line : S -> L) (yds : S -> Z)
  (tbl : list S) (limit : Z) (db : Database) :
  let qualifies := fun x : (S * Player) * Game =>
    In (spg_stat x) tbl /\ In (spg_p x) (players db) /\ In (spg_g x) (games db)
    /\ player_id (spg_stat x) = p_player_id (spg_p x)
    /\ game_id (spg_stat x) = g_game_id (spg_g x)
    /\ g_game_type (spg_g x) = "regular"
    /\ p_pfa_url (spg_p x) <> None in
  exists kept,
    single_game_leaders game_id player_id line yds tbl limit db
    = map (game_leader_row line) kept
    /\ StronglySorted (fun a b => yds (spg_stat b) <= yds (spg_stat a)) kept
    /\ (0 <= limit -> Z.of_nat (List.length kept) <= limit)
    /\ (forall x, In x kept -> qualifies x)
    /\ (forall x u, In x kept -> qualifies u ->
          yds (spg_stat x) < yds (spg_stat u) -> In u kept).
Proof.
  intros qualifies.
  set (U := filter regular_recognized (stat_player_game game_id player_id tbl db)).
  assert (forall x, In x U <-> qualifies x) as HU.
  { intros x. unfold U, qualifies. rewrite filter_In, in_stat_player_game.
    unfold regular_recognized, is_regular, recognized.
    rewrite andb_true_iff, String.eqb_eq.
    destruct (p_pfa_url (spg_p x)); intuition (try discriminate; congruence). }
  exists (Sql.limit limit (order_by (desc (fun r => yds (spg_stat r))) U)).
  destruct (ranked_and_cut (fun r : (S * Player) * Game => yds (spg_stat r))
              limit U) as (Sorted & Len & Sub & Best & _).
  split; [unfold single_game_leaders; now rewrite map_limit|].
  split; [exact Sorted|]. split; [exact Len|]. split.
  - intros x Hx. apply HU. now apply Sub.
  - intros x u Hx Hu Hlt. apply (Best x u Hx); [now apply HU | exact Hlt].
Qed.

Lemma count_distinct_le_rows {A : Type} (f : A -> string) (l : list A) :
  count_distinct (map f l) <= count_rows l.
Proof.
  unfold count_distinct, count_rows. apply inj_le.
  rewrite <- (length_map f l).
  apply NoDup_incl_length; [apply (distinct_NoDup String.eqb String.eqb_eq)|].
  intros x Hx. now rewrite (distinct_In String.eqb String.eqb_eq) in Hx.
Qed.

(** X17. The five leaders of a season shown on the season page agree with
    the season-record leaderboards: a leader of [year] has a row in the
    season-record universe for the same player and season with the same
    totals; its games count, taken over distinct games, is at most the
    leader's, taken over rows. *)
Theorem season_leader_is_a_season_record {S T : Type}
  (game_id player_id : S -> string) (total : list S -> T) (yds : T -> Z)
  (ch : BareColumns) (tbl : list S) (year : Z) (db : Database) :
  let leaders := season_leaders game_id player_id total yds ch tbl year db in
  Z.of_nat (List.length leaders) <= 5
  /\ StronglySorted (fun a b => yds (ld_totals b) <= yds (ld_totals a)) leaders
  /\ forall r, In r leaders ->
       exists s, In s (season_record_universe game_id player_id total ch tbl db)
         /\ rc_player_id s = ld_player_id r
         /\ rc_season s = year
         /\ rc_totals s = ld_totals r
         /\ rc_games s <= ld_games r.
Proof.
  intros leaders. unfold leaders, season_leaders.
  split; [apply limit_length; lia|].
  split; [apply limit_sorted, (order_by_desc_sorted (fun r => yds (ld_totals r)))|].
  intros r Hr. apply limit_In in Hr. rewrite order_by_In in Hr.
  apply in_select_groups in Hr. destruct Hr as (k & g & a & Hg & Ha & ->).
  apply (in_group_by String.eqb String.eqb_eq) in Hg. destruct Hg as [Hk ->].
  cbn [ld_player_id ld_totals ld_games].
  set (J := stat_player_game game_id player_id tbl db) in *.
  (* the rows of the leader are the group of (player, year) *)
  assert (filter (fun x => k == player_id (spg_stat x))
            (filter (fun x => (g_season (spg_g x) =? year)
                              && is_regular (spg_g x) && recognized (spg_p x)) J)
          = filter (fun x => pair_eqb (k, year)
                               (player_id (spg_stat x), g_season (spg_g x)))
              (filter regular_recognized J)) as E.
  { rewrite !filter_and. apply filter_ext. intros x.
    unfold regular_recognized, pair_eqb. cbn [fst snd].
    rewrite (Z.eqb_sym year).
    destruct (g_season (spg_g x) =? year), (is_regular (spg_g x)),
      (recognized (spg_p x)), (k == player_id (spg_stat x)); reflexivity. }
  rewrite E in Ha |- *.
  set (G := filter (fun x => pair_eqb (k, year)
                               (player_id (spg_stat x), g_season (spg_g x)))
              (filter regular_recognized J)) in *.
  assert (G <> []) as Hne by (intros N; rewrite N in Ha; destruct Ha).
  assert (In ((k, year), G)
            (season_record_groups game_id player_id tbl db)) as HG.
  { unfold season_record_groups. apply (in_group_by pair_eqb pair_eqb_eq).
    split; [|reflexivity].
    apply (group_nonempty pair_eqb pair_eqb_eq). exact Hne. }
  unfold season_record_universe, select_groups.
  destruct (bare_row ch G) as [b|] eqn:B;
    [|destruct G; [contradiction | discriminate]].
  exists {| rc_player_id := p_player_id (spg_p b);
            rc_player_name := p_player_name (spg_p b);
            rc_season := year;
            rc_totals := total (map spg_stat G);
            rc_games := count_distinct (map (fun x => game_id (spg_stat x)) G) |}.
  split; [|cbn [rc_player_id rc_season rc_totals rc_games]; repeat split].
  - apply in_flat_map. exists ((k, year), G). split; [exact HG|].
    cbn [fst snd]. rewrite B. now left.
  - (* both bare rows carry the id of the group *)
    assert (forall x, In x G -> p_player_id (spg_p x) = k) as Id.
    { intros x Hx. apply filter_In in Hx. destruct Hx as [Hx Hxk].
      apply pair_eqb_eq in Hxk. inversion Hxk as [[Ek _]].
      apply filter_In in Hx. destruct Hx as [Hx _].
      apply in_stat_player_game in Hx. destruct Hx as (_ & _ & _ & Ep & _).
      congruence. }
    rewrite (Id a Ha). apply Id. now apply (bare_row_In ch).
  - apply count_distinct_le_rows.
Qed.

(** ** The season tables of one player *)

Lemma count_distinct_incl (l l' : list string) :
  (forall x, In x l -> In x l') -> count_distinct l <= count_distinct l'.
Proof.
  intros H. unfold count_distinct. apply inj_le.
  apply NoDup_incl_length; [apply (distinct_NoDup String.eqb String.eqb_eq)|].
  intros x Hx. rewrite (distinct_In String.eqb String.eqb_eq) in Hx |- *.
  now apply H.
Qed.

Lemma sg_eqb_eq (a b : Z * string) : sg_eqb a b = true <-> a = b.
Proof.
  destruct a as [a1 a2], b as [b1 b2]. unfold sg_eqb. cbn [fst snd].
  rewrite andb_true_iff, Z.eqb_eq, String.eqb_eq.
  split; [intros [-> ->]; reflexivity | intros E; inversion E; tauto].
Qed.

Lemma in_all_games (db : Database) (playerId : string) (x : Z * string) :
  In x (all_games db playerId) <->
  In x (season_games_of pp_game_id
          (stat_game_of pp_game_id pp_player_id (player_passing db) db playerId))
  \/ In x (season_games_of pr_game_id
             (stat_game_of pr_game_id pr_player_id (player_rushing db) db playerId))
  \/ In x (season_games_of rec_game_id
             (stat_game_of rec_game_id rec_player_id (player_receiving db)
                db playerId))
  \/ In x (season_games_of pd_game_id (player_defense_games db playerId))
  \/ In x (season_games_of ps_game_id (player_sacks_games db playerId))
  \/ In x (season_games_of pi_game_id (player_interceptions_games db playerId)).
Proof.
  unfold all_games. rewrite !(union_In sg_eqb sg_eqb_eq). tauto.
Qed.

Lemma in_getPlayerGamesPlayedByYear (db : Database) (playerId : string)
  (r : GamesPlayed) :
  In r (getPlayerGamesPlayedByYear db playerId) <->
  In (gy_season r) (map fst (all_games db playerId))
  /\ gy_games r =
     count_distinct
       (map snd (filter (fun x => gy_season r =? fst x) (all_games db playerId))).
Proof.
  unfold getPlayerGamesPlayedByYear, select_keyed.
  rewrite order_by_In, in_map_iff. split.
  - intros [[k g] [<- Hg]]. cbn [fst snd gy_season gy_games].
    apply (in_group_by Z.eqb Z_eqb_iff) in Hg. destruct Hg as [Hk ->]. tauto.
  - intros [Hk E].
    exists (gy_season r,
            filter (fun x => gy_season r =? fst x) (all_games db playerId)).
    split.
    + cbn [fst snd]. destruct r as [y n]. cbn [gy_season gy_games] in *.
      now rewrite E.
    + apply (in_group_by Z.eqb Z_eqb_iff). tauto.
Qed.

Lemma games_played_ascending (db : Database) (playerId : string) :
  StronglySorted (fun a b => gy_season a < gy_season b)
    (getPlayerGamesPlayedByYear db playerId).
Proof.
  apply (sorted_NoDup_strict gy_season
           (fun a b => gy_season a <= gy_season b)).
  - intros a b. lia.
  - unfold getPlayerGamesPlayedByYear.
    eapply Permutation_NoDup;
      [apply Permutation_sym, Permutation_map, order_by_perm|].
    rewrite (select_keyed_keys _ gy_season) by reflexivity.
    rewrite group_by_keys. apply (distinct_NoDup Z.eqb Z_eqb_iff).
  - unfold getPlayerGamesPlayedByYear. apply order_by_asc_sorted.
Qed.

(** The games of a season found in one table are among the games of that
    season found in any table. *)
Lemma games_played_covers {S : Type} (game_id : S -> string)
  (rows : list (S * Game)) (db : Database) (playerId : string) (y : Z) :
  (forall x, In x (season_games_of game_id rows) -> In x (all_games db playerId)) ->
  filter (fun r => y =? g_season (snd r)) rows <> [] ->
  exists r, In r (getPlayerGamesPlayedByYear db playerId)
    /\ gy_season r = y
    /\ count_distinct
         (map (fun r => game_id (fst r))
            (filter (fun r => y =? g_season (snd r)) rows))
       <= gy_games r.
Proof.
  intros Sub Hne.
  exists {| gy_season := y;
            gy_games := count_distinct
              (map snd (filter (fun x => y =? fst x) (all_games db playerId))) |}.
  split; [|split; [reflexivity|]].
  - apply in_getPlayerGamesPlayedByYear. cbn [gy_season gy_games].
    split; [|reflexivity].
    destruct (filter (fun r => y =? g_season (snd r)) rows) as [|a t] eqn:E;
      [contradiction|].
    assert (In a (filter (fun r => y =? g_season (snd r)) rows)) as Ha
      by (rewrite E; now left).
    apply filter_In in Ha. destruct Ha as [Ha Hy]. apply Z.eqb_eq in Hy.
    apply in_map_iff. exists (g_season (snd a), game_id (fst a)).
    split; [cbn [fst]; now symmetry|].
    apply Sub. unfold season_games_of.
    now apply (in_map (fun r => (g_season (snd r), game_id (fst r)))).
  - cbn [gy_games]. apply count_distinct_incl. intros x Hx.
    apply in_map_iff in Hx. destruct Hx as [a [<- Ha]].
    apply filter_In in Ha. destruct Ha as [Ha Hy].
    apply in_map_iff. exists (g_season (snd a), game_id (fst a)).
    split; [reflexivity|]. apply filter_In. split; [|exact Hy].
    apply Sub. unfold season_games_of.
    now apply (in_map (fun r => (g_season (snd r), game_id (fst r)))).
Qed.

Section PlayerSeasons.
Context {S T : Type} (game_id player_id : S -> string) (total : list S -> T).

Lemma in_player_seasons (tbl : list S) (db : Database) (playerId : string)
  (s : PlayerSeason T) :
  In s (player_seasons game_id player_id total tbl db playerId) ->
  let mine := filter (fun r => py_season s =? g_season (snd r))
                (stat_game_of game_id player_id tbl db playerId) in
  mine <> []
  /\ py_totals s = total (map fst mine)
  /\ py_games s = count_distinct (map (fun x => game_id (fst x)) mine).
Proof.
  unfold player_seasons, select_keyed. rewrite order_by_In, in_map_iff.
  intros [[k g] [<- Hg]]. cbn [fst snd py_season py_totals py_games].
  apply (in_group_by Z.eqb Z_eqb_iff) in Hg. destruct Hg as [Hk ->].
  apply (group_nonempty Z.eqb Z_eqb_iff) in Hk. cbv zeta. tauto.
Qed.

Lemma player_seasons_covered (tbl : list S) (db : Database) (playerId : string) :
  (forall x,
     In x (season_games_of game_id
             (stat_game_of game_id player_id tbl db playerId)) ->
     In x (all_games db playerId)) ->
  forall s, In s (player_seasons game_id player_id total tbl db playerId) ->
  exists r, In r (getPlayerGamesPlayedByYear db playerId)
    /\ gy_season r = py_season s /\ py_games s <= gy_games r.
Proof.
  intros Sub s Hs. apply in_player_seasons in Hs.
  destruct Hs as (Hne & _ & ->).
  exact (games_played_covers game_id _ db playerId (py_season s) Sub Hne).
Qed.
End PlayerSeasons.

(** X9. [getPlayerGamesPlayedByYear] has one row per season, oldest first.
    It covers every season table of the player: for each row of the
    passing, rushing, receiving and defensive season tables it has a row of
    the same season, whose games count is at least that table's. *)
Theorem games_played_covers_every_season_table (db : Database)
  (playerId : string) :
  let played := getPlayerGamesPlayedByYear db playerId in
  StronglySorted (fun a b => gy_season a < gy_season b) played
  /\ (forall s, In s (getPlayerSeasonStats db playerId) ->
        exists r, In r played /\ gy_season r = py_season s
                  /\ py_games s <= gy_games r)
  /\ (forall s, In s (getPlayerSeasonRushing db playerId) ->
        exists r, In r played /\ gy_season r = py_season s
                  /\ py_games s <= gy_games r)
  /\ (forall s, In s (getPlayerSeasonReceiving db playerId) ->
        exists r, In r played /\ gy_season r = py_season s
                  /\ py_games s <= gy_games r)
  /\ (forall d, In d (getPlayerSeasonDefense db playerId) ->
        exists r, In r played /\ gy_season r = psd_season d
                  /\ psd_games d <= gy_games r).
Proof.
  intros played. unfold played.
  split; [apply games_played_ascending|].
  split; [|split; [|split]].
  - apply player_seasons_covered. intros x Hx. apply in_all_games. tauto.
  - apply player_seasons_covered. intros x Hx. apply in_all_games. tauto.
  - apply player_seasons_covered. intros x Hx. apply in_all_games. tauto.
  - intros d Hd. apply in_getPlayerSeasonDefense in Hd. destruct Hd as [Hs E].
    set (y := psd_season d) in *.
    assert (In y (map fst (all_games db playerId))) as Hy.
    { unfold defensive_seasons in Hs. rewrite !in_app_iff, !in_map_iff in Hs.
      apply in_map_iff.
      destruct Hs as [[a [Ea Ha]] | [[a [Ea Ha]] | [a [Ea Ha]]]].
      - exists (y, pd_game_id (fst a)). split; [reflexivity|].
        apply in_all_games. do 3 right. left. unfold season_games_of.
        apply in_map_iff. exists a. now rewrite Ea.
      - exists (y, ps_game_id (fst a)). split; [reflexivity|].
        apply in_all_games. do 4 right. left. unfold season_games_of.
        apply in_map_iff. exists a. now rewrite Ea.
      - exists (y, pi_game_id (fst a)). split; [reflexivity|].
        apply in_all_games. do 5 right. unfold season_games_of.
        apply in_map_iff. exists a. now rewrite Ea. }
    exists {| gy_season := y;
              gy_games := count_distinct
                (map snd (filter (fun x => y =? fst x) (all_games db playerId))) |}.
    split; [apply in_getPlayerGamesPlayedByYear; now split|].
    split; [reflexivity|]. cbn [gy_games].
    assert (forall (S : Type) (game_id : S -> string) (rows : list (S * Game)),
      (forall x, In x (season_games_of game_id rows) ->
                 In x (all_games db playerId)) ->
      count_distinct (map (fun r => game_id (fst r))
                        (filter (fun r => y =? g_season (snd r)) rows))
      <= count_distinct
           (map snd (filter (fun x => y =? fst x) (all_games db playerId))))
      as Le.
    { intros S game_id rows Sub. apply count_distinct_incl. intros x Hx.
      apply in_map_iff in Hx. destruct Hx as [a [<- Ha]].
      apply filter_In in Ha. destruct Ha as [Ha Ey].
      apply in_map_iff. exists (g_season (snd a), game_id (fst a)).
      split; [reflexivity|]. apply filter_In. split; [|exact Ey].
      apply Sub. unfold season_games_of.
      now apply (in_map (fun r => (g_season (snd r), game_id (fst r)))). }
    rewrite E. cbn [psd_games player_season_row].
    unfold season_tackle_games, season_sack_games, season_interception_games,
      season_tackles_of, season_sacks_of, season_interceptions_of.
    pose proof (Le _ pd_game_id (player_defense_games db playerId)
                  ltac:(intros x Hx; apply in_all_games; tauto)).
    pose proof (Le _ ps_game_id (player_sacks_games db playerId)
                  ltac:(intros x Hx; apply in_all_games; tauto)).
    pose proof (Le _ pi_game_id (player_interceptions_games db playerId)
                  ltac:(intros x Hx; apply in_all_games; tauto)).
    lia.
Qed.

Section SeasonsAndCareer.
Context {S T : Type} (game_id player_id : S -> string) (total : list S -> T).

Lemma player_seasons_column_sum (tbl : list S) (db : Database)
  (playerId : string) (col : T -> Z) (f : S -> Z) :
  (forall l, col (total l) = sum_Z (map f l)) ->
  sum_Z (map (fun s => col (py_totals s))
           (player_seasons game_id player_id total tbl db playerId))
  = sum_Z (map f (map fst (stat_game_of game_id player_id tbl db playerId))).
Proof.
  intros H. unfold player_seasons.
  rewrite (sum_Z_perm _ _
             (Permutation_map (fun s => col (py_totals s)) (order_by_perm _ _))).
  unfold select_keyed. rewrite !map_map. cbn [py_totals].
  rewrite (map_ext _ (fun kg => sum_Z (map (fun r => f (fst r)) (snd kg))))
    by (intros [k g]; now rewrite H, map_map).
  apply (group_by_sum Z.eqb Z_eqb_iff).
Qed.

Lemma player_seasons_members (tbl : list S) (db : Database)
  (playerId : string) (y : Z) :
  In y (map (@py_season T)
          (player_seasons game_id player_id total tbl db playerId)) <->
  In y (map (fun r => g_season (snd r))
          (stat_game_of game_id player_id tbl db playerId)).
Proof.
  unfold player_seasons.
  assert (Permutation
            (map (@py_season T)
               (order_by (asc py_season)
                  (select_keyed
                     (fun k g =>
                        {| py_season := k;
                           py_totals := total (map fst g);
                           py_games :=
                             count_distinct (map (fun x => game_id (fst x)) g) |})
                     (group_by Z.eqb (fun r => g_season (snd r))
                        (stat_game_of game_id player_id tbl db playerId)))))
            (distinct Z.eqb
               (map (fun r => g_season (snd r))
                  (stat_game_of game_id player_id tbl db playerId)))) as P.
  { eapply Permutation_trans; [apply Permutation_map, order_by_perm|].
    rewrite (select_keyed_keys _ py_season) by reflexivity.
    rewrite group_by_keys. apply Permutation_refl. }
  split; intros H.
  - apply (distinct_In Z.eqb Z_eqb_iff).
    eapply Permutation_in; [exact P | exact H].
  - apply (distinct_In Z.eqb Z_eqb_iff) in H.
    eapply Permutation_in; [apply Permutation_sym, P | exact H].
Qed.

Lemma player_career_seasons (tbl : list S) (db : Database) (playerId : string) :
  let seasons := player_seasons game_id player_id total tbl db playerId in
  sql_min (seasons_of (stat_game_of game_id player_id tbl db playerId))
  = sql_min (map (fun s => Some (py_season s)) seasons)
  /\ sql_max (seasons_of (stat_game_of game_id player_id tbl db playerId))
     = sql_max (map (fun s => Some (py_season s)) seasons).
Proof.
  intros seasons. unfold seasons, seasons_of.
  rewrite <- (map_map (fun r => g_season (snd r)) Some).
  rewrite <- (map_map (@py_season T) Some).
  split; [apply sql_min_same_members | apply sql_max_same_members];
    intros y; now rewrite player_seasons_members.
Qed.

Lemma player_seasons_nil (tbl : list S) (db : Database) (playerId : string) :
  player_seasons game_id player_id total tbl db playerId = [] <->
  stat_game_of game_id player_id tbl db playerId = [].
Proof.
  pose proof (player_seasons_members tbl db playerId) as M. split; intros E.
  - destruct (stat_game_of game_id player_id tbl db playerId) as [|a t];
      [reflexivity|].
    rewrite E in M. destruct (proj2 (M (g_season (snd a)))). now left.
  - destruct (player_seasons game_id player_id total tbl db playerId) as [|a t];
      [reflexivity|].
    rewrite E in M. destruct (proj1 (M (py_season a))). now left.
Qed.
End SeasonsAndCareer.

Lemma sql_sum_none_iff {A : Type} (f : A -> Z) (l : list A) :
  sql_sum (map f l) = None <-> l = [].
Proof. destruct l; cbn [map sql_sum]; split; congruence. Qed.

(** X10. The season rows of a player add up to the career row: the
    career sums of passing, rushing and receiving are the sums of the
    season rows (NULL exactly when there is no season row), and the first
    and last season of the career row are the oldest and the newest season
    listed. *)
Theorem player_seasons_add_up_to_career (db : Database) (playerId : string) :
  (exists c, getPlayerCareerPassing db playerId = Some c
     /\ let seasons := getPlayerSeasonStats db playerId in
        coalesce (pk_att (pc_totals c)) 0
        = sum_Z (map (fun s => pt_att (py_totals s)) seasons)
        /\ coalesce (pk_com (pc_totals c)) 0
           = sum_Z (map (fun s => pt_com (py_totals s)) seasons)
        /\ coalesce (pk_yds (pc_totals c)) 0
           = sum_Z (map (fun s => pt_yds (py_totals s)) seasons)
        /\ coalesce (pk_td (pc_totals c)) 0
           = sum_Z (map (fun s => pt_td (py_totals s)) seasons)
        /\ coalesce (pk_int_thrown (pc_totals c)) 0
           = sum_Z (map (fun s => pt_int_thrown (py_totals s)) seasons)
        /\ (pk_yds (pc_totals c) = None <-> seasons = [])
        /\ pc_first_season c = sql_min (map (fun s => Some (py_season s)) seasons)
        /\ pc_last_season c = sql_max (map (fun s => Some (py_season s)) seasons))
  /\ (exists c, getPlayerCareerRushing db playerId = Some c
        /\ let seasons := getPlayerSeasonRushing db playerId in
           coalesce (rk_att (pc_totals c)) 0
           = sum_Z (map (fun s => rt_att (py_totals s)) seasons)
           /\ coalesce (rk_yds (pc_totals c)) 0
              = sum_Z (map (fun s => rt_yds (py_totals s)) seasons)
           /\ coalesce (rk_td (pc_totals c)) 0
              = sum_Z (map (fun s => rt_td (py_totals s)) seasons)
           /\ (rk_yds (pc_totals c) = None <-> seasons = [])
           /\ pc_first_season c
              = sql_min (map (fun s => Some (py_season s)) seasons)
           /\ pc_last_season c
              = sql_max (map (fun s => Some (py_season s)) seasons))
  /\ (exists c, getPlayerCareerReceiving db playerId = Some c
        /\ let seasons := getPlayerSeasonReceiving db playerId in
           coalesce (ck_rec (pc_totals c)) 0
           = sum_Z (map (fun s => ct_rec (py_totals s)) seasons)
           /\ coalesce (ck_yds (pc_totals c)) 0
              = sum_Z (map (fun s => ct_yds (py_totals s)) seasons)
           /\ coalesce (ck_td (pc_totals c)) 0
              = sum_Z (map (fun s => ct_td (py_totals s)) seasons)
           /\ (ck_yds (pc_totals c) = None <-> seasons = [])
           /\ pc_first_season c
              = sql_min (map (fun s => Some (py_season s)) seasons)
           /\ pc_last_season c
              = sql_max (map (fun s => Some (py_season s)) seasons)).
Proof.
  unfold getPlayerCareerPassing, getPlayerCareerRushing,
    getPlayerCareerReceiving, getPlayerSeasonStats, getPlayerSeasonRushing,
    getPlayerSeasonReceiving, player_career, queryOne.
  cbn [hd_error].
  split; [|split]; (eexists; split; [reflexivity|]);
    cbn [pc_totals pc_first_season pc_last_season passing_career_totals
         rushing_career_totals receiving_career_totals pk_att pk_com pk_yds
         pk_td pk_int_thrown rk_att rk_yds rk_td ck_rec ck_yds ck_td];
    cbv zeta; rewrite ?coalesce_sql_sum;
    repeat match goal with
    | |- _ /\ _ => split
    | |- sum_Z _ = sum_Z _ =>
        symmetry;
        first [ apply (player_seasons_column_sum _ _ _ _ _ _ pt_att pp_att)
              | apply (player_seasons_column_sum _ _ _ _ _ _ pt_com pp_com)
              | apply (player_seasons_column_sum _ _ _ _ _ _ pt_yds pp_yds)
              | apply (player_seasons_column_sum _ _ _ _ _ _ pt_td pp_td)
              | apply (player_seasons_column_sum _ _ _ _ _ _ pt_int_thrown
                         pp_int_thrown)
              | apply (player_seasons_column_sum _ _ _ _ _ _ rt_att pr_att)
              | apply (player_seasons_column_sum _ _ _ _ _ _ rt_yds pr_yds)
              | apply (player_seasons_column_sum _ _ _ _ _ _ rt_td pr_td)
              | apply (player_seasons_column_sum _ _ _ _ _ _ ct_rec rec_rec)
              | apply (player_seasons_column_sum _ _ _ _ _ _ ct_yds rec_yds)
              | apply (player_seasons_column_sum _ _ _ _ _ _ ct_td rec_td) ];
        reflexivity
    | |- _ = None <-> _ = [] =>
        rewrite player_seasons_nil, sql_sum_none_iff;
        split; [intros E; now apply map_eq_nil in E | intros ->; reflexivity]
    | |- _ = sql_min _ => apply player_career_seasons
    | |- _ = sql_max _ => apply player_career_seasons
    end.
Qed.

(** ** The players directory *)

Lemma sorted_app_r {A : Type} (R : A -> A -> Prop) (l1 l2 : list A) :
  StronglySorted R (l1 ++ l2) -> StronglySorted R l2.
Proof.
  induction l1 as [|a t IH]; intros H; [exact H|].
  simpl in H. apply StronglySorted_inv in H. now apply IH.
Qed.

Lemma offset_rows_sorted {A : Type} (R : A -> A -> Prop) (n : Z) (l : list A) :
  StronglySorted R l -> StronglySorted R (offset_rows n l).
Proof.
  intros H. unfold offset_rows.
  apply (sorted_app_r R (firstn (Z.to_nat n) l)). now rewrite firstn_skipn.
Qed.

Lemma offset_rows_In {A : Type} (n : Z) (l : list A) (x : A) :
  In x (offset_rows n l) -> In x l.
Proof.
  unfold offset_rows. intros H. rewrite <- (firstn_skipn (Z.to_nat n) l).
  apply in_or_app. now right.
Qed.

Lemma offset_rows_none {A : Type} (n : Z) (l : list A) :
  n <= 0 -> offset_rows n l = l.
Proof.
  intros H. unfold offset_rows. replace (Z.to_nat n) with 0%nat by lia.
  reflexivity.
Qed.

Section Directory.
Variable db : Database.

Lemma stat_sub_lookup {S : Type} (player_id game_id : S -> string)
  (yds td : S -> Z) (tbl : list S) (id : string) :
  filter (fun s => id == sub_player_id s)
    (stat_sub player_id game_id yds td tbl) =
  match stat_lookup player_id game_id yds td tbl id with
  | Some b => [b]
  | None => []
  end.
Proof.
  unfold stat_sub, stat_lookup.
  rewrite (select_keyed_lookup_by String.eqb String.eqb_eq player_id _
             sub_player_id (fun k => id == k) tbl id).
  - destruct (filter (fun a => id == player_id a) tbl); reflexivity.
  - reflexivity.
  - intros x. rewrite String.eqb_eq. split; congruence.
Qed.

Lemma players_stats_join_eq :
  players_stats_join db = map (stats_join_of db) (players db).
Proof.
  unfold players_stats_join.
  rewrite (left_join_lookup _ _ _
             (fun p => stat_lookup pp_player_id pp_game_id pp_yds pp_td
                         (player_passing db) (p_player_id p)))
    by (intros a _; apply stat_sub_lookup).
  rewrite (left_join_lookup _ _ _
             (fun l => stat_lookup pr_player_id pr_game_id pr_yds pr_td
                         (player_rushing db) (p_player_id (fst l))))
    by (intros a _; apply stat_sub_lookup).
  rewrite (left_join_lookup _ _ _
             (fun l => stat_lookup rec_player_id rec_game_id rec_yds rec_td
                         (player_receiving db) (p_player_id (fst (fst l)))))
    by (intros a _; apply stat_sub_lookup).
  rewrite !map_map. reflexivity.
Qed.

Lemma stats_select_join_of (p : Player) :
  players_stats_select (stats_join_of db p) = directory_row db p
  /\ total_yds (stats_join_of db p) = directory_yds (directory_row db p).
Proof.
  unfold players_stats_select, stats_join_of, directory_row, directory_yds,
    total_yds, sj_p, sj_pass, sj_rush, sj_recv, stat_lookup, passing_of,
    rushing_of, receiving_of.
  cbn [fst snd pw_pass_yds pw_rush_yds pw_rec_yds].
  destruct (filter _ (player_passing db));
    destruct (filter _ (player_rushing db));
    destruct (filter _ (player_receiving db)); split; reflexivity.
Qed.

Lemma directory_universe :
  map players_stats_select
    (order_by (desc total_yds)
       (filter (fun r => (0 <? total_yds r) && recognized (sj_p r))
          (players_stats_join db)))
  = map (directory_row db)
      (order_by (desc (fun p => directory_yds (directory_row db p)))
         (filter (fun p => (0 <? directory_yds (directory_row db p))
                           && recognized p)
            (players db))).
Proof.
  rewrite players_stats_join_eq, filter_map_swap.
  rewrite (filter_ext _ (fun p => (0 <? directory_yds (directory_row db p))
                                  && recognized p))
    by (intros p; now rewrite (proj2 (stats_select_join_of p))).
  generalize (filter (fun p => (0 <? directory_yds (directory_row db p))
                               && recognized p) (players db)).
  intros l.
  assert (order_by (desc total_yds) (map (stats_join_of db) l)
          = map (stats_join_of db)
              (order_by (desc (fun p => directory_yds (directory_row db p))) l))
    as E.
  { induction l as [|a t IH]; [reflexivity|].
    cbn [map order_by fold_right]. fold (order_by (desc total_yds)).
    fold (order_by (desc (fun p => directory_yds (directory_row db p)))).
    change (fold_right (insert_by (desc total_yds)) [] (map (stats_join_of db) t))
      with (order_by (desc total_yds) (map (stats_join_of db) t)).
    rewrite IH.
    change (fold_right
              (insert_by (desc (fun p => directory_yds (directory_row db p))))
              [] t)
      with (order_by (desc (fun p => directory_yds (directory_row db p))) t).
    generalize (order_by (desc (fun p => directory_yds (directory_row db p))) t).
    intros s. induction s as [|b s IHs]; [reflexivity|].
    cbn [map insert_by]. unfold desc at 1 3.
    rewrite !(proj2 (stats_select_join_of _)).
    destruct (_ <=? _); cbn [map]; [reflexivity | now rewrite IHs]. }
  rewrite E, map_map. apply map_ext. intros p. apply stats_select_join_of.
Qed.
End Directory.

(** X11. The players directory [getPlayersWithStats] lists recognized
    players only, each with its passing, rushing and receiving yards and
    touchdowns summed over all rows of the three tables (games of every
    type), and only players whose three yardages add up to more than zero;
    the rows are ranked by that sum.  Without limit and offset every such
    player is listed. *)
Theorem players_directory_rows (limit offset : Z) (db : Database) :
  let rows := getPlayersWithStats limit offset db in
  StronglySorted (fun a b => directory_yds b <= directory_yds a) rows
  /\ (forall r, In r rows ->
        0 < directory_yds r
        /\ exists p, In p (players db) /\ p_pfa_url p <> None
                     /\ r = directory_row db p)
  /\ (limit < 0 -> offset <= 0 ->
      forall p, In p (players db) -> p_pfa_url p <> None ->
        0 < directory_yds (directory_row db p) ->
        In (directory_row db p) rows).
Proof.
  intros rows. unfold rows, getPlayersWithStats.
  rewrite directory_universe.
  set (keep := fun p => (0 <? directory_yds (directory_row db p)) && recognized p).
  assert (forall p, keep p = true <->
            0 < directory_yds (directory_row db p) /\ p_pfa_url p <> None) as K.
  { intros p. unfold keep, recognized. rewrite andb_true_iff, Z.ltb_lt.
    destruct (p_pfa_url p); intuition (try discriminate; congruence). }
  split; [|split].
  - apply limit_sorted, offset_rows_sorted, sorted_map.
    apply (order_by_desc_sorted (fun p => directory_yds (directory_row db p))).
  - intros r Hr. apply limit_In, offset_rows_In in Hr.
    apply in_map_iff in Hr. destruct Hr as [p [<- Hp]].
    rewrite order_by_In in Hp. apply filter_In in Hp. destruct Hp as [Hp Hk].
    apply K in Hk. split; [tauto|]. exists p. tauto.
  - intros Hl Ho p Hp Hu Hy.
    rewrite limit_all by now left. rewrite offset_rows_none by exact Ho.
    apply in_map. rewrite order_by_In. apply filter_In. split; [exact Hp|].
    apply K. tauto.
Qed.

(** ** The draft *)

Lemma min_Z_spec (l : list Z) :
  l <> [] -> In (min_Z l) l /\ forall x, In x l -> min_Z l <= x.
Proof.
  destruct l as [|a t]; [congruence|]. intros _. unfold min_Z.
  induction t as [|b t IH]; cbn [fold_right].
  - split; [now left|]. intros x [<- | []]. lia.
  - destruct IH as [Hin Hle]. split.
    + destruct (Z.min_spec b (fold_right Z.min a t)) as [[_ ->] | [_ ->]].
      * right. now left.
      * destruct Hin as [E | Hin]; [now left | right; now right].
    + intros x [<- | [<- | Hx]].
      * pose proof (Hle a (or_introl eq_refl)). lia.
      * lia.
      * pose proof (Hle x (or_intror Hx)). lia.
Qed.

Lemma sorted_head_least {A : Type} (f : A -> Z) (a : A) (l : list A) :
  StronglySorted (fun x y => f x <= f y) (a :: l) ->
  forall x, In x (a :: l) -> f a <= f x.
Proof.
  intros H x [<- | Hx]; [lia|].
  apply StronglySorted_inv in H. destruct H as [_ H].
  rewrite Forall_forall in H. now apply H.
Qed.

Lemma draft_rows (picks : list DraftPick) :
  getDraftYears picks =
  order_by (desc ds_season)
    (map (fun y => {| ds_season := y;
                      ds_picks := count_rows (filter (fun d => y =? d_season d) picks);
                      ds_first_pick :=
                        min_Z (map d_pick (filter (fun d => y =? d_season d) picks));
                      ds_first_player := first_player picks y |})
       (distinct Z.eqb (map d_season picks))).
Proof.
  unfold getDraftYears, select_keyed, group_by. rewrite map_map. reflexivity.
Qed.

Lemma draft_keys (picks : list DraftPick) :
  Permutation (map ds_season (getDraftYears picks))
    (distinct Z.eqb (map d_season picks)).
Proof.
  rewrite draft_rows.
  eapply Permutation_trans; [apply Permutation_map, order_by_perm|].
  rewrite map_map. cbn [ds_season]. rewrite map_id. apply Permutation_refl.
Qed.

Lemma draft_members (picks : list DraftPick) (y : Z) :
  In y (map ds_season (getDraftYears picks)) <-> In y (map d_season picks).
Proof.
  split; intros H.
  - apply (distinct_In Z.eqb Z_eqb_iff).
    eapply Permutation_in; [apply draft_keys | exact H].
  - apply (distinct_In Z.eqb Z_eqb_iff) in H.
    eapply Permutation_in; [apply Permutation_sym, draft_keys | exact H].
Qed.

Lemma drafts_descending (picks : list DraftPick) :
  StronglySorted (fun a b => ds_season b < ds_season a) (getDraftYears picks).
Proof.
  apply (sorted_NoDup_strict ds_season
           (fun a b => ds_season b <= ds_season a)).
  - intros a b. lia.
  - eapply Permutation_NoDup; [apply Permutation_sym, draft_keys|].
    apply (distinct_NoDup Z.eqb Z_eqb_iff).
  - unfold getDraftYears. apply order_by_desc_sorted.
Qed.

Lemma in_getDraftYears (picks : list DraftPick) (s : DraftSummary) :
  In s (getDraftYears picks) ->
  let mine := filter (fun d => ds_season s =? d_season d) picks in
  mine <> []
  /\ ds_picks s = count_rows mine
  /\ ds_first_pick s = min_Z (map d_pick mine)
  /\ ds_first_player s = first_player picks (ds_season s).
Proof.
  rewrite draft_rows, order_by_In, in_map_iff.
  intros [y [<- Hy]]. cbn [ds_season ds_picks ds_first_pick ds_first_player].
  rewrite (distinct_In Z.eqb Z_eqb_iff) in Hy.
  apply (group_nonempty Z.eqb Z_eqb_iff) in Hy. cbv zeta. tauto.
Qed.

(** The scalar sub-select of [first_player]: the name on a pick of the
    season that no pick of the season precedes. *)
Lemma first_player_least (picks : list DraftPick) (y : Z) :
  filter (fun d => y =? d_season d) picks <> [] ->
  exists d, In d picks /\ d_season d = y
    /\ first_player picks y = Some (d_player_name d)
    /\ forall x, In x picks -> d_season x = y -> d_pick d <= d_pick x.
Proof.
  intros Hne. unfold first_player.
  pose proof (order_by_asc_sorted d_pick
                (filter (fun d2 => d_season d2 =? y) picks)) as S.
  pose proof (order_by_In (asc d_pick)
                (filter (fun d2 => d_season d2 =? y) picks)) as M.
  destruct (order_by (asc d_pick) (filter (fun d2 => d_season d2 =? y) picks))
    as [|d t].
  - exfalso. apply Hne. apply filter_none. intros a Ha.
    destruct (y =? d_season a) eqn:E; [|reflexivity].
    apply Z.eqb_eq in E. destruct (proj2 (M a)).
    apply filter_In. split; [exact Ha | apply Z.eqb_eq; congruence].
  - exists d.
    assert (In d picks /\ d_season d = y) as [Hd Ey].
    { pose proof (proj1 (M d) (or_introl eq_refl)) as H.
      apply filter_In in H. rewrite Z.eqb_eq in H. exact H. }
    repeat split; try assumption.
    intros x Hx Ex. apply (sorted_head_least d_pick d t S).
    apply M. apply filter_In. split; [exact Hx | now apply Z.eqb_eq].
Qed.

Lemma sorted_desc_ends (l : list DraftSummary) :
  StronglySorted (fun a b => ds_season b < ds_season a) l ->
  draft_range l = (sql_min (map (fun s => Some (ds_season s)) l),
                   sql_max (map (fun s => Some (ds_season s)) l)).
Proof.
  intros S. unfold draft_range.
  rewrite <- (map_map ds_season Some).
  pose proof (sql_min_spec (map ds_season l)) as Smin.
  pose proof (sql_max_spec (map ds_season l)) as Smax.
  destruct l as [|a t].
  - reflexivity.
  - f_equal.
    + destruct (sql_min (map Some (map ds_season (a :: t)))) as [m|];
        [|discriminate].
      destruct Smin as [Hin Hle].
      cbn [List.length]. rewrite Nat.sub_succ, Nat.sub_0_r.
      destruct (nth_error (a :: t) (List.length t)) as [z|] eqn:N.
      * cbn [option_map]. f_equal.
        assert (In z (a :: t)) as Hz by (eapply nth_error_In; exact N).
        pose proof (Hle _ (in_map ds_season _ _ Hz)) as Lz.
        apply in_map_iff in Hin. destruct Hin as [w [<- Hw]].
        (* [z] is the last row: every other row is newer *)
        assert (forall x, In x (a :: t) -> ds_season z <= ds_season x) as Last.
        { clear - S N. revert a S N.
          induction t as [|b t IH]; intros a S N x Hx.
          - cbn in N. inversion N; subst. destruct Hx as [<- | []]. lia.
          - cbn [List.length nth_error] in N.
            apply StronglySorted_inv in S. destruct S as [St Ha].
            destruct Hx as [<- | Hx].
            + rewrite Forall_forall in Ha.
              assert (In z (b :: t)) as Hz by (eapply nth_error_In; exact N).
              specialize (Ha z Hz). lia.
            + now apply (IH b St N). }
        specialize (Last w Hw). lia.
      * apply nth_error_None in N. cbn [List.length] in N. lia.
    + destruct (sql_max (map Some (map ds_season (a :: t)))) as [m|];
        [|discriminate].
      destruct Smax as [Hin Hle]. cbn [nth_error option_map]. f_equal.
      pose proof (Hle _ (in_map ds_season (a :: t) a (or_introl eq_refl))) as La.
      apply in_map_iff in Hin. destruct Hin as [w [<- [<- | Hw]]]; [reflexivity|].
      apply StronglySorted_inv in S. destruct S as [_ Ha].
      rewrite Forall_forall in Ha. specialize (Ha w Hw). lia.
Qed.

(** X12. [getDraftYears] lists every draft year once, newest first, with
    the number of its picks; [first_pick] is the lowest pick number of the
    year and [first_player] the name on a pick that bears it.  The range the
    draft index shows is the oldest and the newest year of [draft_picks]. *)
Theorem draft_years_one_row_each (picks : list DraftPick) :
  let drafts := getDraftYears picks in
  StronglySorted (fun a b => ds_season b < ds_season a) drafts
  /\ (forall y, In y (map ds_season drafts) <-> In y (map d_season picks))
  /\ (forall s, In s drafts ->
        ds_picks s = count_rows (filter (fun d => ds_season s =? d_season d) picks)
        /\ 1 <= ds_picks s
        /\ (forall d, In d picks -> d_season d = ds_season s ->
              ds_first_pick s <= d_pick d)
        /\ exists d, In d picks /\ d_season d = ds_season s
             /\ d_pick d = ds_first_pick s
             /\ ds_first_player s = Some (d_player_name d))
  /\ draft_range drafts
     = (sql_min (map (fun d => Some (d_season d)) picks),
        sql_max (map (fun d => Some (d_season d)) picks)).
Proof.
  intros drafts. unfold drafts.
  split; [apply drafts_descending|].
  split; [apply draft_members|]. split.
  - intros s Hs. apply in_getDraftYears in Hs.
    destruct Hs as (Hne & Hn & Hmin & Hname).
    set (mine := filter (fun d => ds_season s =? d_season d) picks) in *.
    assert (map d_pick mine <> []) as Hne'
      by (destruct mine; [contradiction | discriminate]).
    destruct (min_Z_spec (map d_pick mine) Hne') as [Hin Hle].
    assert (forall d, In d picks -> d_season d = ds_season s ->
              ds_first_pick s <= d_pick d) as Least.
    { intros d Hd Ed. rewrite Hmin. apply Hle. apply in_map.
      apply filter_In. split; [exact Hd | apply Z.eqb_eq; congruence]. }
    split; [exact Hn|]. split; [|split; [exact Least|]].
    + rewrite Hn. unfold count_rows. destruct mine; [contradiction|].
      cbn [List.length]. lia.
    + destruct (first_player_least picks (ds_season s) Hne)
        as (d & Hd & Ed & Ename & Hfirst).
      exists d. repeat split; try assumption; [|congruence].
      apply in_map_iff in Hin. destruct Hin as [w [Ew Hw]].
      apply filter_In in Hw. destruct Hw as [Hw Esw]. apply Z.eqb_eq in Esw.
      pose proof (Hfirst w Hw (eq_sym Esw)). pose proof (Least d Hd Ed).
      rewrite Hmin in *. lia.
  - rewrite (sorted_desc_ends _ (drafts_descending picks)).
    rewrite <- !(map_map ds_season Some), <- !(map_map d_season Some).
    f_equal; [apply sql_min_same_members | apply sql_max_same_members];
      intros y; apply draft_members.
Qed.

Lemma round_pick_leb_total (a b : DraftPick) :
  round_pick_leb a b = true \/ round_pick_leb b a = true.
Proof.
  unfold round_pick_leb. rewrite (Z.eqb_sym (d_round b)).
  destruct (d_round a =? d_round b) eqn:E.
  - rewrite !Z.leb_le. lia.
  - apply Z.eqb_neq in E. rewrite !Z.ltb_lt. lia.
Qed.

Lemma round_pick_leb_le (a b : DraftPick) :
  round_pick_leb a b = true <-> round_pick_le a b.
Proof.
  unfold round_pick_leb, round_pick_le.
  destruct (d_round a =? d_round b) eqn:E.
  - apply Z.eqb_eq in E. rewrite Z.leb_le. lia.
  - apply Z.eqb_neq in E. rewrite Z.ltb_lt. lia.
Qed.

Lemma round_pick_leb_trans (a b c : DraftPick) :
  round_pick_leb a b = true -> round_pick_leb b c = true ->
  round_pick_leb a c = true.
Proof. rewrite !round_pick_leb_le. unfold round_pick_le. lia. Qed.

Lemma draft_by_year_sorted (ch : BareColumns) (picks : list DraftPick)
  (year : Z) (db : Database) :
  StronglySorted (fun a b => round_pick_le (dr_pick a) (dr_pick b))
    (getDraftByYear ch picks year db).
Proof.
  unfold getDraftByYear.
  pose proof (order_by_sorted round_pick_leb round_pick_leb_total
                round_pick_leb_trans
                (filter (fun d => d_season d =? year) picks)) as S.
  induction S as [|a t St IH Ha]; cbn [map]; constructor; [exact IH|].
  rewrite Forall_forall in *. intros x Hx.
  apply in_map_iff in Hx. destruct Hx as [d [<- Hd]]. cbn [dr_pick].
  apply round_pick_leb_le. now apply Ha.
Qed.

Lemma any_row_In {A : Type} (ch : BareColumns) (l : list A) (a : A) :
  any_row ch l = Some a -> In a l.
Proof. apply bare_row_In. Qed.

Lemma any_row_none {A : Type} (ch : BareColumns) (l : list A) :
  any_row ch l = None <-> l = [].
Proof.
  unfold any_row, bare_row. destruct l; split; congruence.
Qed.

Lemma linked_by_id_spec (ch : BareColumns) (db : Database) (d : DraftPick) :
  match linked_by_id ch db d with
  | Some id => d_player_id d = Some id /\ In id (map p_player_id (players db))
  | None => forall p, In p (players db) -> d_player_id d <> Some (p_player_id p)
  end.
Proof.
  unfold linked_by_id. destruct (d_player_id d) as [id|]; [|discriminate].
  destruct (any_row ch (filter (fun p => p_player_id p == id) (players db)))
    as [p|] eqn:E; cbn [option_map].
  - apply any_row_In, filter_In in E. destruct E as [Hp Ep].
    apply String.eqb_eq in Ep. subst id. split; [reflexivity | now apply in_map].
  - apply any_row_none in E. rewrite filter_nil_iff in E.
    intros p Hp H. inversion H; subst. specialize (E p Hp).
    rewrite String.eqb_refl in E. discriminate.
Qed.

Lemma linked_by_name_spec (ch : BareColumns) (db : Database) (d : DraftPick) :
  match linked_by_name ch db d with
  | Some id => exists p, In p (players db) /\ p_player_id p = id
                 /\ lower (p_player_name p) = lower (d_player_name d)
  | None => forall p, In p (players db) ->
              lower (p_player_name p) <> lower (d_player_name d)
  end.
Proof.
  unfold linked_by_name.
  destruct (any_row ch _) as [p|] eqn:E; cbn [option_map].
  - apply any_row_In, filter_In in E. destruct E as [Hp Ep].
    apply String.eqb_eq in Ep. exists p. tauto.
  - apply any_row_none in E. rewrite filter_nil_iff in E.
    intros p Hp H. specialize (E p Hp). apply String.eqb_neq in E. contradiction.
Qed.


(** ** The draft pages *)

Lemma add_pick_cons (k : Z) (v : list DraftRow) (rest : RoundMap)
  (x : DraftRow) :
  k <> d_round (dr_pick x) ->
  add_pick ((k, v) :: rest) x = (k, v) :: add_pick rest x.
Proof.
  intros Hne. unfold add_pick. cbn [map_get map_set].
  apply Z.eqb_neq in Hne. rewrite Hne. reflexivity.
Qed.

Lemma add_pick_keys (m : RoundMap) (x : DraftRow) (k : Z) :
  In k (map fst (add_pick m x)) ->
  k = d_round (dr_pick x) \/ In k (map fst m).
Proof.
  induction m as [|[k' v'] rest IH].
  - unfold add_pick. cbn. intros [<- | []]. now left.
  - destruct (Z.eq_dec k' (d_round (dr_pick x))) as [E | Hne].
    + unfold add_pick. cbn [map_get map_set]. apply Z.eqb_eq in E.
      rewrite E. cbn [map fst]. tauto.
    + rewrite add_pick_cons by exact Hne. cbn [map fst In].
      intros [H | H]; [tauto|]. apply IH in H. tauto.
Qed.

(** Adding a pick whose round no earlier pick exceeds. *)
Lemma add_pick_ok (m : RoundMap) (x : DraftRow) :
  well_grouped m ->
  Forall (fun k => k <= d_round (dr_pick x)) (map fst m) ->
  well_grouped (add_pick m x)
  /\ List.concat (map snd (add_pick m x)) = List.concat (map snd m) ++ [x].
Proof.
  induction m as [|[k v] rest IH]; intros [S G] B.
  - unfold add_pick, well_grouped. cbn. repeat constructor; discriminate.
  - cbn [map fst] in S, B. apply StronglySorted_inv in S. destruct S as [S Hk].
    inversion G as [|? ? [Gv Gr] G']; subst. cbn [fst snd] in Gv, Gr.
    inversion B as [|? ? Bk B']; subst.
    destruct (Z.eq_dec k (d_round (dr_pick x))) as [E | Hne].
    + (* the last round so far: no later round exists *)
      assert (rest = []) as ->.
      { destruct rest as [|[k2 v2] rest']; [reflexivity|]. exfalso.
        cbn [map fst] in Hk, B'. inversion Hk; subst. inversion B'; subst. lia. }
      unfold add_pick. cbn [map_get map_set]. apply Z.eqb_eq in E. rewrite E.
      apply Z.eqb_eq in E. split.
      * split; [cbn; repeat constructor|].
        constructor; [|constructor]. cbn [fst snd]. split.
        -- destruct v; discriminate.
        -- apply Forall_app. split; [exact Gr|]. constructor; [now symmetry|].
           constructor.
      * cbn. now rewrite !app_nil_r.
    + rewrite add_pick_cons by exact Hne.
      destruct (IH (conj S G') B') as [[S' G''] C]. split.
      * split.
        -- cbn [map fst]. constructor; [exact S'|].
           rewrite Forall_forall in *. intros k' Hk'.
           apply add_pick_keys in Hk'. destruct Hk' as [-> | Hk'].
           ++ lia.
           ++ now apply Hk.
        -- constructor; [exact (conj Gv Gr) | exact G''].
      * cbn [map snd List.concat]. rewrite C. now rewrite app_assoc.
Qed.

Lemma well_grouped_keys (m : RoundMap) (k : Z) :
  well_grouped m -> In k (map fst m) ->
  exists r, In r (List.concat (map snd m)) /\ d_round (dr_pick r) = k.
Proof.
  intros [_ G] Hk. apply in_map_iff in Hk. destruct Hk as [[k' v] [<- Hin]].
  rewrite Forall_forall in G. destruct (G _ Hin) as [Hne Hr]. cbn [fst snd] in *.
  destruct v as [|r t]; [contradiction|]. exists r. split.
  - apply in_concat. exists (r :: t). split; [|now left].
    now apply (in_map snd _ (k', r :: t)).
  - rewrite Forall_forall in Hr. apply Hr. now left.
Qed.

(** Picks ordered by round come out of the round map as they went in. *)
Lemma group_by_round_sorted (l : list DraftRow) :
  StronglySorted
    (fun a b => d_round (dr_pick a) <= d_round (dr_pick b)) l ->
  well_grouped (group_by_round l)
  /\ List.concat (map snd (group_by_round l)) = l.
Proof.
  unfold group_by_round.
  induction l as [|x l IH] using rev_ind; intros S.
  - cbn. split; [split; constructor | reflexivity].
  - rewrite fold_left_app. cbn [fold_left].
    destruct (IH (sorted_app_l _ _ _ S)) as [W C].
    assert (Forall (fun k => k <= d_round (dr_pick x))
              (map fst (fold_left add_pick l []))) as B.
    { rewrite Forall_forall. intros k Hk.
      destruct (well_grouped_keys _ k W Hk) as [r [Hr <-]].
      rewrite C in Hr.
      apply (sorted_app_inv _ l [x] S r x Hr). now left. }
    destruct (add_pick_ok _ x W B) as [W' C']. split; [exact W'|].
    rewrite C', C. reflexivity.
Qed.

(** X14. Every year listed by [getDraftYears] has a draft page (the page
    does not answer not-found).  The page counts as many selections as the
    listed row, and its table, read round by round, shows the rows of
    [getDraftByYear] in their order, each once; the rounds ascend and each
    holds its own picks. *)
Theorem listed_draft_year_has_a_page (ch : BareColumns)
  (picks : list DraftPick) (db : Database) (s : DraftSummary) :
  In s (getDraftYears picks) ->
  exists page,
    DraftYearPage ch picks (Num (ds_season s)) db = Some page
    /\ dp_selections page = ds_picks s
    /\ table_rows page = getDraftByYear ch picks (ds_season s) db
    /\ StronglySorted Z.lt (map fst (dp_rounds page))
    /\ (forall round rows, In (round, rows) (dp_rounds page) ->
          rows <> [] /\ forall r, In r rows -> d_round (dr_pick r) = round).
Proof.
  intros Hs. apply in_getDraftYears in Hs. destruct Hs as (Hne & Hn & _ & _).
  set (y := ds_season s) in *.
  assert (Permutation (map dr_pick (getDraftByYear ch picks y db))
            (filter (fun d => y =? d_season d) picks)) as P.
  { unfold getDraftByYear. rewrite map_map. cbn [dr_pick]. rewrite map_id.
    eapply Permutation_trans; [apply order_by_perm|].
    apply Permutation_refl'. apply filter_ext. intros d. apply Z.eqb_sym. }
  assert (StronglySorted
            (fun a b => d_round (dr_pick a) <= d_round (dr_pick b))
            (getDraftByYear ch picks y db)) as S.
  { eapply sorted_impl; [|apply draft_by_year_sorted].
    intros a b. unfold round_pick_le. lia. }
  destruct (group_by_round_sorted _ S) as [[Keys Groups] C].
  unfold DraftYearPage.
  destruct (getDraftByYear ch picks y db) as [|r0 t0] eqn:E.
  - apply Permutation_nil in P. contradiction.
  - cbn [List.length Nat.eqb]. eexists. split; [reflexivity|].
    cbn [dp_selections dp_rounds]. unfold table_rows. cbn [dp_rounds].
    repeat split.
    + rewrite Hn. unfold count_rows.
      rewrite <- (Permutation_length P), length_map. reflexivity.
    + exact C.
    + exact Keys.
    + rewrite Forall_forall in Groups. now apply (Groups (round, rows)).
    + rewrite Forall_forall in Groups. destruct (Groups (round, rows) H) as [_ G].
      cbn [fst snd] in G. rewrite Forall_forall in G. exact G.
Qed.

Lemma listed_draft_year_has_a_page_witness :
  exists s, In s (getDraftYears draft_example) /\ ds_season s = 2006
  /\ exists page,
       DraftYearPage first_row draft_example (Num (ds_season s)) two_seasons
       = Some page
       /\ dp_selections page = ds_picks s
       /\ table_rows page
          = getDraftByYear first_row draft_example (ds_season s) two_seasons
       /\ StronglySorted Z.lt (map fst (dp_rounds page))
       /\ (forall round rows, In (round, rows) (dp_rounds page) ->
             rows <> [] /\ forall r, In r rows -> d_round (dr_pick r) = round).
Proof.
  exists {| ds_season := 2006; ds_picks := 3; ds_first_pick := 2;
            ds_first_player := Some "Reggie" |}.
  assert (In {| ds_season := 2006; ds_picks := 3; ds_first_pick := 2;
                ds_first_player := Some "Reggie" |}
             (getDraftYears draft_example)) as H by (vm_compute; tauto).
  split; [exact H|]. split; [reflexivity|].
  exact (listed_draft_year_has_a_page first_row draft_example two_seasons _ H).
Defined.

Lemma text_is_true (a : option string) (b : string) :
  text_is a b = true <-> a = Some b.
Proof.
  unfold text_is. destruct a as [x|]; [rewrite String.eqb_eq|];
    split; congruence.
Qed.

Lemma lower_name_of_spec (ch : BareColumns) (db : Database) (id n : string) :
  lower_name_of ch db id = Some n ->
  exists p, In p (players db) /\ p_player_id p = id /\ n = lower (p_player_name p).
Proof.
  unfold lower_name_of.
  destruct (any_row ch _) as [p|] eqn:E; cbn [option_map]; [|discriminate].
  intros H. inversion H; subst. apply any_row_In, filter_In in E.
  destruct E as [Hp Ep]. apply String.eqb_eq in Ep. exists p. tauto.
Qed.

Lemma lower_name_of_key (ch : BareColumns) (db : Database) (p : Player) :
  NoDup (map p_player_id (players db)) -> In p (players db) ->
  lower_name_of ch db (p_player_id p) = Some (lower (p_player_name p)).
Proof.
  intros ND Hp. unfold lower_name_of.
  destruct (any_row ch _) as [q|] eqn:E; cbn [option_map].
  - apply any_row_In, filter_In in E. destruct E as [Hq Eq].
    apply String.eqb_eq in Eq.
    now rewrite (NoDup_map_inj p_player_id (players db) q p ND Hq Hp Eq).
  - apply any_row_none in E. rewrite filter_nil_iff in E.
    specialize (E p Hp). rewrite String.eqb_refl in E. discriminate.
Qed.

(** X15. With one row per player id: when [getDraftByYear] links a pick to
    a player, [getPlayerDraftInfo] of that player finds a pick, one that
    carries the player's id or the player's name up to the case of A-Z. *)
Theorem linked_pick_is_found_for_the_player (ch : BareColumns)
  (picks : list DraftPick) (db : Database) (year : Z) (r : DraftRow)
  (id : string) :
  NoDup (map p_player_id (players db)) ->
  In r (getDraftByYear ch picks year db) ->
  dr_linked_player_id r = Some id ->
  exists d, getPlayerDraftInfo ch picks db id = Some d /\ In d picks
    /\ (d_player_id d = Some id
        \/ exists p, In p (players db) /\ p_player_id p = id
             /\ lower (d_player_name d) = lower (p_player_name p)).
Proof.
  intros ND Hr Hl. unfold getDraftByYear in Hr. apply in_map_iff in Hr.
  destruct Hr as [d0 [<- Hd0]]. cbn [dr_linked_player_id] in Hl.
  rewrite order_by_In in Hd0. apply filter_In in Hd0. destruct Hd0 as [Hd0 _].
  assert (drafted_as ch db id d0 = true) as Hm.
  { unfold drafted_as. apply orb_true_iff.
    unfold linked_player_id, or_else_text in Hl.
    pose proof (linked_by_id_spec ch db d0) as I.
    pose proof (linked_by_name_spec ch db d0) as N.
    destruct (linked_by_id ch db d0) as [i|].
    - inversion Hl; subst. left. apply text_is_true. tauto.
    - rewrite Hl in N. destruct N as [p (Hp & Ep & En)]. right.
      apply text_is_true. subst id. rewrite (lower_name_of_key ch db p ND Hp).
      now rewrite En. }
  unfold getPlayerDraftInfo, queryOne.
  destruct (any_row ch (filter (drafted_as ch db id) picks)) as [d|] eqn:E.
  - exists d. cbn [hd_error]. split; [reflexivity|].
    apply any_row_In, filter_In in E. destruct E as [Hd Hdm].
    split; [exact Hd|]. unfold drafted_as in Hdm. apply orb_true_iff in Hdm.
    destruct Hdm as [H | H]; apply text_is_true in H; [now left | right].
    apply lower_name_of_spec in H. destruct H as [p (Hp & Ep & En)].
    exists p. tauto.
  - apply any_row_none in E. rewrite filter_nil_iff in E.
    rewrite (E d0 Hd0) in Hm. discriminate.
Qed.

Lemma linked_pick_is_found_for_the_player_witness :
  NoDup (map p_player_id (players two_seasons))
  /\ In {| dr_pick := drafted 2006 2 43 "PAT" None;
           dr_linked_player_id := Some "P" |}
        (getDraftByYear first_row draft_example 2006 two_seasons)
  /\ exists d, getPlayerDraftInfo first_row draft_example two_seasons "P" = Some d
       /\ In d draft_example
       /\ (d_player_id d = Some "P"
           \/ exists p, In p (players two_seasons) /\ p_player_id p = "P"
                /\ lower (d_player_name d) = lower (p_player_name p)).
Proof.
  assert (NoDup (map p_player_id (players two_seasons))) as ND
    by (cbn; repeat constructor; intros []).
  assert (In {| dr_pick := drafted 2006 2 43 "PAT" None;
                dr_linked_player_id := Some "P" |}
             (getDraftByYear first_row draft_example 2006 two_seasons)) as Hr
    by (vm_compute; tauto).
  split; [exact ND|]. split; [exact Hr|].
  exact (linked_pick_is_found_for_the_player first_row draft_example
           two_seasons 2006 _ "P" ND Hr eq_refl).
Defined.

(** ** Requests inside the leaderboard interface *)

(** X16. A request whose scope and category (after the defaults [career]
    and [passing]) belong to the interface is answered with status 200 and
    the rows of the one query function the table [fetchers] holds for them,
    called with limit 50; exactly that statement is issued, whatever the
    built-ins of the runtime.  The game type handed on is always one of
    [regular], [playoff], [preseason]. *)
Theorem valid_request_runs_its_query (rt : Route.Runtime) (ch : BareColumns)
  (request : Route.Request) (db : Database) :
  In (Route.or_default (Route.scope_param request) "career") valid_scopes ->
  In (Route.or_default (Route.category_param request) "passing")
    valid_categories ->
  exists t f,
    Route.own Route.fetchers
      (Route.or_default (Route.scope_param request) "career") = Some t
    /\ Route.own t (Route.or_default (Route.category_param request) "passing")
       = Some f
    /\ Route.GET rt ch request db
       = (Route.Json 200
            (Route.RowsBody
               (Route.call_fetcher ch f 50 (Route.game_type_of request) db)),
          [f])
    /\ In (Route.game_type_of request) Route.VALID_GAME_TYPES.
Proof.
  intros Hs Hc.
  pose proof (RouteFacts.own_fetchers_scope
                (Route.or_default (Route.scope_param request) "career")) as S.
  destruct (Route.own Route.fetchers
              (Route.or_default (Route.scope_param request) "career"))
    as [t|] eqn:Es; [|contradiction].
  pose proof (RouteFacts.own_table_category _
                (Route.or_default (Route.category_param request) "passing")
                t Es) as C.
  destruct (Route.own t
              (Route.or_default (Route.category_param request) "passing"))
    as [f|] eqn:Ec; [|contradiction].
  exists t, f. split; [reflexivity|]. split; [exact Ec|]. split.
  - unfold Route.GET, Route.fetcher_of, Route.get_scope. rewrite Es.
    cbn [Route.get_category]. rewrite Ec.
    unfold Route.bind, Route.issue, Route.ret. reflexivity.
  - unfold Route.game_type_of.
    destruct (Route.has Route.VALID_GAME_TYPES
                (Route.or_default (Route.gameType_param request) "regular"))
      eqn:H.
    + unfold Route.has in H. apply existsb_exists in H.
      destruct H as [y [Hy E]]. apply String.eqb_eq in E. now subst y.
    + now left.
Qed.

Lemma valid_request_runs_its_query_witness :
  exists t f,
    Route.own Route.fetchers "season" = Some t
    /\ Route.own t "defense" = Some f
    /\ Route.GET Route.toString_runtime first_row
         {| Route.scope_param := Some "season";
            Route.category_param := Some "defense";
            Route.gameType_param := Some "postseason" |} tackles_and_sack_same_game
       = (Route.Json 200
            (Route.RowsBody
               (Route.call_fetcher first_row f 50 "regular"
                  tackles_and_sack_same_game)),
          [f])
    /\ In "regular" Route.VALID_GAME_TYPES.
Proof.
  exact (valid_request_runs_its_query Route.toString_runtime first_row
           {| Route.scope_param := Some "season";
              Route.category_param := Some "defense";
              Route.gameType_param := Some "postseason" |}
           tackles_and_sack_same_game
           ltac:(cbn; tauto) ltac:(cbn; tauto)).
Defined.

(** ** The box score and the season totals *)

Lemma starts_with_prefix_ci (part text : string) :
  starts_with part text = true -> prefix_ci part text = true.
Proof.
  revert text. induction part as [|c part IH]; intros text H; [reflexivity|].
  destruct text as [|d text]; [discriminate|].
  cbn [starts_with prefix_ci] in *. apply andb_true_iff in H.
  destruct H as [E H]. apply Ascii.eqb_eq in E. subst d.
  apply andb_true_iff. split; [|now apply IH].
  unfold ci_eqb. apply Ascii.eqb_refl.
Qed.

Lemma includes_contains_ci (text part : string) :
  includes text part = true -> contains_ci part text = true.
Proof.
  induction text as [|d text IH]; cbn [includes contains_ci]; intros H;
    apply orb_true_iff in H; apply orb_true_iff.
  - destruct H as [H | H]; [left; now apply starts_with_prefix_ci | discriminate].
  - destruct H as [H | H]; [left; now apply starts_with_prefix_ci | right; auto].
Qed.

(** What the page takes for the Saints, the statement does too. *)
Lemma isSaintsTeam_saints_team (team : string) :
  isSaintsTeam team = true -> saints_team team = true.
Proof.
  unfold isSaintsTeam, saints_team. intros H.
  apply orb_true_iff in H. apply orb_true_iff.
  destruct H as [H | H]; [left | right].
  - change "%Saints%" with (search_pattern "Saints").
    rewrite like_substring by reflexivity. now apply includes_contains_ci.
  - change "%New Orleans%" with (search_pattern "New Orleans").
    rewrite like_substring by reflexivity. now apply includes_contains_ci.
Qed.

(** X18. The team line the box score of a regular-season game shows for the
    Saints is one of the lines [getSeasonTeamStats] adds up for the season
    of that game. *)
Theorem box_score_saints_line_counts_for_the_season
  (team_game_stats : list TeamGameStats) (db : Database) (id : string)
  (g : Game) (t : TeamGameStats) :
  getGame id db = Some g ->
  g_game_type g = "regular" ->
  saintsStats (getGameTeamStats team_game_stats id) = Some t ->
  In (t, g) (season_team_rows team_game_stats (g_season g) db).
Proof.
  intros Hg Hr Ht.
  unfold getGame, queryOne in Hg.
  assert (In g (games db) /\ g_game_id g = id) as [Hin Eid].
  { destruct (filter (fun g => g_game_id g == id) (games db)) as [|g' rest] eqn:E;
      [discriminate|].
    cbn [hd_error] in Hg. inversion Hg; subst g'.
    assert (In g (filter (fun g => g_game_id g == id) (games db))) as H
      by (rewrite E; now left).
    apply filter_In in H. now rewrite String.eqb_eq in H. }
  unfold saintsStats in Ht. apply find_some in Ht. destruct Ht as [Ht Hs].
  unfold getGameTeamStats in Ht. apply filter_In in Ht. destruct Ht as [Ht Et].
  apply String.eqb_eq in Et.
  unfold season_team_rows. apply filter_In. cbn [fst snd]. split.
  - apply in_inner_join. repeat split; try assumption.
    apply String.eqb_eq. congruence.
  - rewrite Z.eqb_refl. unfold is_regular. rewrite Hr.
    rewrite (isSaintsTeam_saints_team (tg_team t) Hs). reflexivity.
Qed.

Lemma box_score_saints_line_counts_for_the_season_witness :
  getGame "2009-01" two_seasons
  = Some (final_score "2009-01" 2009 "regular" 45 27 "W")
  /\ saintsStats (getGameTeamStats box_scores "2009-01")
     = Some (team_line "2009-01" "New Orleans SaintsNO" 45)
  /\ In (team_line "2009-01" "New Orleans SaintsNO" 45,
         final_score "2009-01" 2009 "regular" 45 27 "W")
        (season_team_rows box_scores 2009 two_seasons).
Proof.
  split; [reflexivity|]. split; [reflexivity|].
  exact (box_score_saints_line_counts_for_the_season box_scores two_seasons
           "2009-01" (final_score "2009-01" 2009 "regular" 45 27 "W")
           (team_line "2009-01" "New Orleans SaintsNO" 45)
           eq_refl eq_refl eq_refl).
Defined.

(** ** The game log and the season lines *)

Lemma sum_Z_cons (x : Z) (l : list Z) : sum_Z (x :: l) = x + sum_Z l.
Proof. reflexivity. Qed.

Lemma sum_Z_ext {A : Type} (f g : A -> Z) (l : list A) :
  (forall x, In x l -> f x = g x) -> sum_Z (map f l) = sum_Z (map g l).
Proof. intros H. f_equal. now apply map_ext_in. Qed.

Lemma sum_filter_indicator {A : Type} (f : A -> Z) (P : A -> bool) (l : list A) :
  sum_Z (map f (filter P l)) = sum_Z (map (fun x => if P x then f x else 0) l).
Proof.
  induction l as [|a t IH]; cbn [filter map]; [reflexivity|].
  destruct (P a); cbn [map]; rewrite !sum_Z_cons, IH; lia.
Qed.

Lemma sum_flat_map {A B : Type} (f : B -> Z) (h : A -> list B) (l : list A) :
  sum_Z (map f (flat_map h l)) = sum_Z (map (fun a => sum_Z (map f (h a))) l).
Proof.
  induction l as [|a t IH]; cbn [flat_map map]; [reflexivity|].
  now rewrite map_app, sum_Z_app, sum_Z_cons, IH.
Qed.

Lemma sum_zero {A : Type} (l : list A) : sum_Z (map (fun _ => 0) l) = 0.
Proof.
  induction l as [|a t IH]; cbn [map]; [reflexivity|].
  rewrite sum_Z_cons, IH. reflexivity.
Qed.

Lemma sum_add {A : Type} (f g : A -> Z) (l : list A) :
  sum_Z (map (fun x => f x + g x) l) = sum_Z (map f l) + sum_Z (map g l).
Proof.
  induction l as [|a t IH]; cbn [map]; [reflexivity|].
  rewrite !sum_Z_cons, IH. lia.
Qed.

Lemma sum_swap {A B : Type} (F : A -> B -> Z) (la : list A) (lb : list B) :
  sum_Z (map (fun a => sum_Z (map (F a) lb)) la)
  = sum_Z (map (fun b => sum_Z (map (fun a => F a b) la)) lb).
Proof.
  induction la as [|a t IH]; cbn [map].
  - symmetry. apply sum_zero.
  - rewrite sum_Z_cons, IH.
    rewrite (sum_Z_ext (fun b => sum_Z (map (fun a0 => F a0 b) (a :: t)))
               (fun b => F a b + sum_Z (map (fun a0 => F a0 b) t)))
      by reflexivity.
    now rewrite sum_add.
Qed.

Section LogSums.
Variable db : Database.
Variable playerId : string.
Variable y : Z.

Hypothesis passing_key :
  NoDup (map (fun s => (pp_game_id s, pp_player_id s)) (player_passing db)).
Hypothesis rushing_key :
  NoDup (map (fun s => (pr_game_id s, pr_player_id s)) (player_rushing db)).
Hypothesis receiving_key :
  NoDup (map (fun s => (rec_game_id s, rec_player_id s)) (player_receiving db)).
Hypothesis season_given : y <> 0.

Context {S : Type} (game_id player_id : S -> string) (tbl : list S).
Context (col : S -> Z) (lgcol : GameLogRow -> option Z).

Hypothesis tbl_key : NoDup (map (fun s => (game_id s, player_id s)) tbl).
Hypothesis lgcol_eq :
  forall g,
    lgcol (game_log_select (game_log_join_of db playerId g))
    = option_map col
        (find (fun s => (game_id s == g_game_id g) && (player_id s == playerId))
           tbl).
Hypothesis played_none :
  forall g, played db playerId g = false ->
    find (fun s => (game_id s == g_game_id g) && (player_id s == playerId)) tbl
    = None.

Lemma log_cell (g : Game) :
  coalesce (lgcol (game_log_select (game_log_join_of db playerId g))) 0
  = sum_Z (map (in_game game_id player_id col playerId g) tbl).
Proof.
  rewrite lgcol_eq. unfold in_game. rewrite <- sum_filter_indicator.
  rewrite (filter_at_most_one (fun s => (game_id s, player_id s))
             (g_game_id g, playerId) _ tbl tbl_key)
    by (intros a _; apply pair_of_eqb).
  destruct (find _ tbl); cbn [option_map coalesce map]; [|reflexivity].
  rewrite sum_Z_cons. cbn. lia.
Qed.

Lemma log_column_sum :
  sum_Z (map (fun r => coalesce (lgcol r) 0)
           (getPlayerGameLog db playerId (Some y)))
  = sum_Z (map (fun g => if (g_season g =? y)
                              && negb (g_game_type g == "preseason")
                         then sum_Z (map (in_game game_id player_id col playerId g) tbl) else 0)
             (games db)).
Proof.
  rewrite (sum_Z_perm _ _
             (Permutation_map (fun r => coalesce (lgcol r) 0)
                (game_log_rows db playerId passing_key rushing_key
                   receiving_key (Some y)))).
  rewrite map_map, sum_filter_indicator.
  apply sum_Z_ext. intros g _.
  rewrite game_log_where_of, log_cell. cbn [season_clause].
  apply Z.eqb_neq in season_given. rewrite season_given.
  destruct (played db playerId g) eqn:P.
  - cbn [andb]. rewrite andb_comm. reflexivity.
  - cbn [andb].
    assert (sum_Z (map (in_game game_id player_id col playerId g) tbl) = 0) as ->.
    { pose proof (log_cell g) as C. rewrite lgcol_eq, (played_none g P) in C.
      now rewrite <- C. }
    now destruct ((g_season g =? y) && negb (g_game_type g == "preseason")).
Qed.

Lemma joined_column_sum (keep : Game -> bool) :
  sum_Z (map (fun r => col (fst r))
           (filter (fun r => keep (snd r))
              (stat_game_of game_id player_id tbl db playerId)))
  = sum_Z (map (fun g => if keep g then sum_Z (map (in_game game_id player_id col playerId g) tbl) else 0)
             (games db)).
Proof.
  unfold stat_game_of, inner_join.
  rewrite filter_and, sum_filter_indicator, sum_flat_map.
  rewrite (sum_Z_ext _
             (fun s => sum_Z (map (fun g => if keep g then in_game game_id player_id col playerId g s else 0)
                                (games db)))).
  - rewrite sum_swap. apply sum_Z_ext. intros g _.
    destruct (keep g); [reflexivity | apply sum_zero].
  - intros s _. rewrite map_map, sum_filter_indicator.
    apply sum_Z_ext. intros g _. cbn [fst snd]. unfold in_game.
    destruct (game_id s == g_game_id g), (player_id s == playerId), (keep g);
      reflexivity.
Qed.

(** The log of season [y] adds up to the joined rows of the season that
    are not preseason rows. *)
Lemma log_and_preseason :
  sum_Z (map (fun r => coalesce (lgcol r) 0)
           (getPlayerGameLog db playerId (Some y)))
  + sum_Z (map (fun r => col (fst r))
             (preseason_of y (stat_game_of game_id player_id tbl db playerId)))
  = sum_Z (map (fun r => col (fst r))
             (filter (fun r => y =? g_season (snd r))
                (stat_game_of game_id player_id tbl db playerId))).
Proof.
  rewrite log_column_sum. unfold preseason_of.
  rewrite (joined_column_sum
             (fun g => (g_season g =? y) && (g_game_type g == "preseason"))).
  rewrite (joined_column_sum (fun g => y =? g_season g)).
  rewrite <- sum_add. apply sum_Z_ext. intros g _.
  rewrite (Z.eqb_sym y).
  destruct (g_season g =? y), (g_game_type g == "preseason"); cbn; lia.
Qed.
End LogSums.

Section SeasonLine.
Context {S T : Type} (game_id player_id : S -> string) (total : list S -> T).

Lemma season_line_sum (tbl : list S) (db : Database) (playerId : string)
  (y : Z) (tcol : T -> Z) (col : S -> Z) :
  (forall l, tcol (total l) = sum_Z (map col l)) ->
  sum_Z (map (fun s => tcol (py_totals s))
           (season_line y
              (player_seasons game_id player_id total tbl db playerId)))
  = sum_Z (map (fun r => col (fst r))
             (filter (fun r => y =? g_season (snd r))
                (stat_game_of game_id player_id tbl db playerId))).
Proof.
  intros H. unfold season_line, player_seasons.
  rewrite (sum_Z_perm _ _
             (Permutation_map (fun s => tcol (py_totals s))
                (perm_filter _ _ _ (order_by_perm _ _)))).
  rewrite (select_keyed_lookup_by Z.eqb Z_eqb_iff _ _ py_season
             (fun k => k =? y) _ y).
  - destruct (filter (fun a => y =? g_season (snd a))
                (stat_game_of game_id player_id tbl db playerId)) as [|a t];
      [reflexivity|].
    generalize (a :: t). intros G.
    cbn [map py_totals]. rewrite sum_Z_cons, H, map_map.
    change (sum_Z []) with 0. lia.
  - reflexivity.
  - intros x. apply Z.eqb_eq.
Qed.
End SeasonLine.

(** X19. With at most one row per game and player in each of the passing,
    rushing and receiving tables: the yards in the game log of a season,
    together with the yards of the player's preseason games of that season,
    are the yards of the season line.  The season line counts games of
    every type; the log leaves the preseason out. *)
Theorem game_log_adds_up_to_the_season_line (db : Database)
  (playerId : string) (y : Z) :
  NoDup (map (fun s => (pp_game_id s, pp_player_id s)) (player_passing db)) ->
  NoDup (map (fun s => (pr_game_id s, pr_player_id s)) (player_rushing db)) ->
  NoDup (map (fun s => (rec_game_id s, rec_player_id s)) (player_receiving db)) ->
  y <> 0 ->
  let log := getPlayerGameLog db playerId (Some y) in
  sum_Z (map (fun r => coalesce (lg_pass_yds r) 0) log)
  + sum_Z (map (fun r => pp_yds (fst r))
             (preseason_of y
                (stat_game_of pp_game_id pp_player_id (player_passing db)
                   db playerId)))
  = sum_Z (map (fun s => pt_yds (py_totals s))
             (season_line y (getPlayerSeasonStats db playerId)))
  /\ sum_Z (map (fun r => coalesce (lg_rush_yds r) 0) log)
     + sum_Z (map (fun r => pr_yds (fst r))
                (preseason_of y
                   (stat_game_of pr_game_id pr_player_id (player_rushing db)
                      db playerId)))
     = sum_Z (map (fun s => rt_yds (py_totals s))
                (season_line y (getPlayerSeasonRushing db playerId)))
  /\ sum_Z (map (fun r => coalesce (lg_rec_yds r) 0) log)
     + sum_Z (map (fun r => rec_yds (fst r))
                (preseason_of y
                   (stat_game_of rec_game_id rec_player_id
                      (player_receiving db) db playerId)))
     = sum_Z (map (fun s => ct_yds (py_totals s))
                (season_line y (getPlayerSeasonReceiving db playerId))).
Proof.
  intros Kp Kr Kc Hy log. unfold log.
  assert (forall a b c : bool, a || b || c = false ->
            a = false /\ b = false /\ c = false) as Or3
    by (intros [] [] []; cbn; auto; discriminate).
  split; [|split].
  - unfold getPlayerSeasonStats.
    rewrite (season_line_sum pp_game_id pp_player_id passing_totals _ db
               playerId y pt_yds pp_yds) by reflexivity.
    apply (log_and_preseason db playerId y Kp Kr Kc Hy pp_game_id pp_player_id
             (player_passing db) pp_yds lg_pass_yds Kp).
    + reflexivity.
    + intros g P. unfold played in P. apply Or3 in P. destruct P as (P & _ & _).
      unfold passing_row in P. now destruct (find _ (player_passing db)).
  - unfold getPlayerSeasonRushing.
    rewrite (season_line_sum pr_game_id pr_player_id rushing_totals _ db
               playerId y rt_yds pr_yds) by reflexivity.
    apply (log_and_preseason db playerId y Kp Kr Kc Hy pr_game_id pr_player_id
             (player_rushing db) pr_yds lg_rush_yds Kr).
    + reflexivity.
    + intros g P. unfold played in P. apply Or3 in P. destruct P as (_ & P & _).
      unfold rushing_row in P. now destruct (find _ (player_rushing db)).
  - unfold getPlayerSeasonReceiving.
    rewrite (season_line_sum rec_game_id rec_player_id receiving_totals _ db
               playerId y ct_yds rec_yds) by reflexivity.
    apply (log_and_preseason db playerId y Kp Kr Kc Hy rec_game_id
             rec_player_id (player_receiving db) rec_yds lg_rec_yds Kc).
    + reflexivity.
    + intros g P. unfold played in P. apply Or3 in P. destruct P as (_ & _ & P).
      unfold receiving_row in P. now destruct (find _ (player_receiving db)).
Qed.

Lemma game_log_adds_up_to_the_season_line_witness :
  sum_Z (map (fun r => coalesce (lg_pass_yds r) 0)
           (getPlayerGameLog game_log_example "P" (Some 2009))) = 550
  /\ sum_Z (map (fun r => pp_yds (fst r))
              (preseason_of 2009
                 (stat_game_of pp_game_id pp_player_id
                    (player_passing game_log_example) game_log_example "P")))
     = 80
  /\ sum_Z (map (fun r => coalesce (lg_pass_yds r) 0)
              (getPlayerGameLog game_log_example "P" (Some 2009)))
     + sum_Z (map (fun r => pp_yds (fst r))
                (preseason_of 2009
                   (stat_game_of pp_game_id pp_player_id
                      (player_passing game_log_example) game_log_example "P")))
     = sum_Z (map (fun s => pt_yds (py_totals s))
                (season_line 2009 (getPlayerSeasonStats game_log_example "P"))).
Proof.
  split; [reflexivity|]. split; [reflexivity|].
  apply (game_log_adds_up_to_the_season_line game_log_example "P" 2009).
  - repeat constructor; simpl; intuition discriminate.
  - repeat constructor; simpl; intuition discriminate.
  - repeat constructor; simpl; intuition discriminate.
  - discriminate.
Defined.

(** ** The directory and the search *)

Lemma append_empty (q : string) : (q ++ "")%string = q.
Proof. induction q as [|c q IH]; cbn; [reflexivity | now rewrite IH]. Qed.

(** A name followed by anything matches the pattern made of the name and a
    trailing [%], whatever characters the name holds. *)
Lemma like_own_prefix (q t : string) : like (q ++ "%") (q ++ t) = true.
Proof.
  induction q as [|c q IH].
  - apply like_trailing_run.
  - change (String c q ++ "%")%string with (String c (q ++ "%")).
    change (String c q ++ t)%string with (String c (q ++ t)).
    destruct (Ascii.eqb c "%") eqn:E1.
    + apply Ascii.eqb_eq in E1. subst c.
      rewrite like_any_run. apply orb_true_iff. right.
      rewrite like_any_run, IH. reflexivity.
    + destruct (Ascii.eqb c "_") eqn:E2.
      * cbn [like]. rewrite E1, E2. exact IH.
      * rewrite (like_letter c _ _ E1 E2), IH.
        unfold ci_eqb. now rewrite Ascii.eqb_refl.
Qed.

Lemma like_own_name (q : string) : like (search_pattern q) q = true.
Proof.
  unfold search_pattern.
  change ("%" ++ q ++ "%")%string with (String "%" (q ++ "%")).
  rewrite like_any_run. apply orb_true_iff. left.
  rewrite <- (append_empty q) at 2. apply like_own_prefix.
Qed.

(** X20. Every player the directory lists is found by a search for the
    player's own name, whatever characters the name holds: the search
    universe of that name has a row with the player's id and name, and the
    search returns it when its limit does not cut. *)
Theorem directory_player_is_found_by_name (limit offset : Z) (db : Database)
  (r : PlayerWithStats) :
  In r (getPlayersWithStats limit offset db) ->
  exists s, In s (search_universe (pw_player_name r) db)
    /\ sr_id s = pw_player_id r
    /\ sr_name s = pw_player_name r
    /\ forall n,
         n < 0
         \/ Z.of_nat (List.length (search_universe (pw_player_name r) db)) <= n ->
         In s (searchPlayers (pw_player_name r) n db).
Proof.
  intros Hr. unfold getPlayersWithStats in Hr.
  apply limit_In, offset_rows_In in Hr.
  apply in_map_iff in Hr. destruct Hr as [j [<- Hj]].
  rewrite order_by_In in Hj. apply filter_In in Hj. destruct Hj as [Hj Hk].
  apply andb_true_iff in Hk. destruct Hk as [_ Hrec].
  rewrite players_stats_join_eq in Hj. apply in_map_iff in Hj.
  destruct Hj as [p [<- Hp]].
  cbn [players_stats_select pw_player_id pw_player_name].
  change (sj_p (stats_join_of db p)) with p in *.
  assert (In (search_select db p) (search_universe (p_player_name p) db)) as Hs.
  { apply in_search_universe. exists p.
    repeat split; try assumption. apply like_own_name. }
  exists (search_select db p). split; [exact Hs|].
  split; [reflexivity|]. split; [reflexivity|].
  intros n Hn. unfold searchPlayers. rewrite limit_all.
  - now apply order_by_In.
  - now rewrite (Permutation_length (order_by_perm _ _)).
Qed.

Lemma directory_player_is_found_by_name_witness :
  In (directory_row two_seasons (linked_player "P" "Pat"))
    (getPlayersWithStats 200 0 two_seasons)
  /\ exists s, In s (search_universe "Pat" two_seasons)
       /\ sr_id s = "P"
       /\ sr_name s = "Pat"
       /\ forall n,
            n < 0
            \/ Z.of_nat (List.length (search_universe "Pat" two_seasons)) <= n ->
            In s (searchPlayers "Pat" n two_seasons).
Proof.
  assert (In (directory_row two_seasons (linked_player "P" "Pat"))
            (getPlayersWithStats 200 0 two_seasons)) as H
    by (vm_compute; tauto).
  split; [exact H|].
  exact (directory_player_is_found_by_name 200 0 two_seasons _ H).
Defined.
